(** * wajs: event normalisation, message model and batch commands

    A shallow embedding of the parts of the library that turn raw snapshots
    coming from the browser page into [Message] objects and domain events
    ([src/Structures/Message.js], [src/Structures/GroupNotification.js],
    [src/Structures/GroupChat.js] and the [Client] class), of the methods
    of [Message], [GroupChat] and [Client] that ask the page and look at
    its failures, and of [compareWwebVersions] ([src/Util/Injected.js]),
    followed by the properties established about them.

    Conventions of the embedding:
    - a JavaScript value is a term of [JS.value]; objects are finite maps
      from property names to values, arrays are lists;
    - an operation that may throw returns a [completion];
    - the calls a handler makes on the event emitter, the browser and the
      page are recorded, in program order, in a trace of [action]s;
    - a method that inspects what the page throws runs as a
      [Script.script]: the page functions it calls, in order, with what it
      returns or throws;
    - the tables of constants of [Util/Constant.js] are parameters of the
      development. *)

From Stdlib Require Import ZArith String Ascii Bool DecimalString.
From stdpp Require Import base option list strings gmap.
From Equations Require Import Equations.

Local Set Warnings "-register-all".
Local Open Scope string_scope.
Local Open Scope list_scope.

(** ** JavaScript values *)

Module JS.

(** Numbers: the finite values that occur in snapshots and options are
    integral counts and timestamps; [NaN] is kept because arithmetic on
    [undefined] produces it. *)
Inductive number :=
| NaN
| Num (z : Z).

Inductive value :=
| VUndefined
| VNull
| VBool (b : bool)
| VNum (n : number)
| VStr (s : string)
| VArr (xs : list value)
| VObj (fields : gmap string value).

Inductive error :=
| TypeError
| Error (message : string).

(** Result of evaluating code that may throw. *)
Inductive completion (A : Type) :=
| Normal (a : A)
| Throw (e : error).
Arguments Normal {A} a.
Arguments Throw {A} e.

Definition bind {A B} (c : completion A) (k : A -> completion B) : completion B :=
  match c with
  | Normal a => k a
  | Throw e => Throw e
  end.

Fixpoint mapM {A B} (f : A -> completion B) (l : list A) : completion (list B) :=
  match l with
  | [] => Normal []
  | x :: l' => bind (f x) (fun y => bind (mapM f l') (fun ys => Normal (y :: ys)))
  end.

(** [ToBoolean] of the language specification. *)
Definition ToBoolean (v : value) : bool :=
  match v with
  | VUndefined | VNull => false
  | VBool b => b
  | VNum NaN => false
  | VNum (Num z) => negb (z =? 0)%Z
  | VStr s => negb (String.eqb s "")
  | VArr _ | VObj _ => true
  end.

(** [a && b] and [a || b] return one of their operands. *)
Definition and (a b : value) : value := if ToBoolean a then b else a.
Definition or (a b : value) : value := if ToBoolean a then a else b.

Definition typeof (v : value) : string :=
  match v with
  | VUndefined => "undefined"
  | VNull | VArr _ | VObj _ => "object"
  | VBool _ => "boolean"
  | VNum _ => "number"
  | VStr _ => "string"
  end.

Definition number_eqb (a b : number) : bool :=
  match a, b with
  | Num x, Num y => (x =? y)%Z
  | _, _ => false
  end.

(** [a === b].  Primitives are compared by value ([NaN] differs from
    itself).  Objects and arrays are compared by reference; a snapshot
    received from the page is a tree, so two of its objects are never the
    same reference. *)
Definition strict_eq (a b : value) : bool :=
  match a, b with
  | VUndefined, VUndefined => true
  | VNull, VNull => true
  | VBool x, VBool y => Bool.eqb x y
  | VNum x, VNum y => number_eqb x y
  | VStr x, VStr y => String.eqb x y
  | _, _ => false
  end.

(** [a > b] on numbers: any comparison with [NaN] is false. *)
Definition number_gtb (a b : number) : bool :=
  match a, b with
  | Num x, Num y => (y <? x)%Z
  | _, _ => false
  end.

Definition number_add (a b : number) : number :=
  match a, b with
  | Num x, Num y => Num (x + y)
  | _, _ => NaN
  end.

(** Reading property [k] of [v] when [v] is known not to be [undefined] or
    [null]: an own property of an object, [undefined] otherwise.  The
    property names read in this development ([id], [remote], [fromMe],
    [_serialized], [vcard], ...) are not built-in properties of strings,
    numbers, booleans or arrays. *)
Definition get (v : value) (k : string) : value :=
  match v with
  | VObj o => default VUndefined (o !! k)
  | _ => VUndefined
  end.

(** [v.k]: throws a [TypeError] on [undefined] and [null]. *)
Definition prop (v : value) (k : string) : completion value :=
  match v with
  | VUndefined | VNull => Throw TypeError
  | _ => Normal (get v k)
  end.

(** [k in v]: throws unless [v] is an object (or an array). *)
Definition has_property (k : string) (v : value) : completion bool :=
  match v with
  | VObj o => Normal (bool_decide (is_Some (o !! k)))
  | VArr _ => Normal false
  | _ => Throw TypeError
  end.

(** [delete v.k] on an object. *)
Definition delete_prop (k : string) (v : value) : value :=
  match v with
  | VObj o => VObj (delete k o)
  | _ => v
  end.

(** [v[0]]. *)
Definition index0 (v : value) : completion value :=
  match v with
  | VUndefined | VNull => Throw TypeError
  | VArr (x :: _) => Normal x
  | VStr (String c _) => Normal (VStr (String c ""))
  | VObj o => Normal (default VUndefined (o !! "0"))
  | _ => Normal VUndefined
  end.

(** [xs.find(p)] on an array. *)
Fixpoint find (p : value -> bool) (xs : list value) : value :=
  match xs with
  | [] => VUndefined
  | x :: xs' => if p x then x else find p xs'
  end.

(** [s.split('\n')]. *)
Fixpoint split_lines (s : string) : list string :=
  match s with
  | EmptyString => [""]
  | String c s' =>
      if Ascii.eqb c "010"%char then "" :: split_lines s'
      else match split_lines s' with
           | [] => [String c ""]
           | l :: ls => String c l :: ls
           end
  end.

(** [xs[i]] on an array of strings, as a value. *)
Definition nth_str (i : nat) (xs : list string) : value :=
  match xs !! i with
  | Some s => VStr s
  | None => VUndefined
  end.

(** [String(v)] *)
Fixpoint ToString (v : value) : string :=
  match v with
  | VUndefined => "undefined"
  | VNull => "null"
  | VBool true => "true"
  | VBool false => "false"
  | VNum NaN => "NaN"
  | VNum (Num z) => NilZero.string_of_int (Z.to_int z)
  | VStr s => s
  | VArr xs =>
      let element x :=
        match x with
        | VUndefined | VNull => ""
        | _ => ToString x
        end in
      String.concat "," (List.map element xs)
  | VObj _ => "[object Object]"
  end.

(** [s.includes(word)]; also the test of a regular expression that is a
    plain word. *)
Fixpoint contains (word s : string) : bool :=
  String.prefix word s
  || match s with
     | EmptyString => false
     | String _ s' => contains word s'
     end.

(** [/word/.test(v)] *)
Definition test (word : string) (v : value) : bool := contains word (ToString v).

(** [v.k = x] on an object. *)
Definition set_prop (k : string) (x : value) (v : value) : value :=
  match v with
  | VObj o => VObj (<[k := x]> o)
  | _ => v
  end.

(** [v[key]] for a computed key. *)
Definition prop_at (v key : value) : completion value := prop v (ToString key).

Fixpoint characters (s : string) : list value :=
  match s with
  | EmptyString => []
  | String c s' => VStr (String c "") :: characters s'
  end.

(** The elements visited by [for (x of v)]. *)
Definition iterate (v : value) : completion (list value) :=
  match v with
  | VArr xs => Normal xs
  | VStr s => Normal (characters s)
  | _ => Throw TypeError
  end.

(** [{ k = d } = o]: the property, or [d] when it is [undefined]. *)
Definition get_default (o : value) (k : string) (d : value) : value :=
  match get o k with
  | VUndefined => d
  | v => v
  end.

End JS.

Export JS.

Notation "'let*' x ':=' c 'in' k" := (JS.bind c (fun x => k))
  (at level 10, x name, c at level 100, k at level 200).

(** ** Constants of [Util/Constant.js]

    [Events] is the table of event names; its keys are modelled as an
    enumeration.  The string values of the [MessageTypes] and [WAState]
    tables are taken as parameters: every result holds whatever strings
    the tables contain. *)

Inductive Events :=
| QR_RECEIVED
| MESSAGE_RECEIVED
| MESSAGE_CREATE
| MESSAGE_REVOKED_EVERYONE
| MESSAGE_REVOKED_ME
| MESSAGE_ACK
| MEDIA_UPLOADED
| GROUP_JOIN
| GROUP_LEAVE
| GROUP_ADMIN_CHANGED
| GROUP_MEMBERSHIP_REQUEST
| GROUP_UPDATE
| CONTACT_CHANGED
| STATE_CHANGED
| DISCONNECTED.

#[global] Instance Events_eq_dec : EqDecision Events.
Proof. solve_decision. Defined.

Record MessageTypesT := {
  LOCATION : string;
  CONTACT_CARD : string;
  CONTACT_CARD_MULTI : string;
  GROUP_INVITE : string;
  POLL_CREATION : string
}.

Record WAStateT := {
  CONFLICT : string;
  CONNECTED : string;
  OPENING : string;
  PAIRING : string;
  TIMEOUT : string
}.

(** ** [Structures/Message.js] *)

Module Message.

(** Arguments of the call [new Location(lat, lng, description)]; what the
    class does with them is not modelled. *)
Record LocationArgs := {
  latitude : value;
  longitude : value;
  loc_description : value
}.

(** The own properties of a [Message].  A property that [_patch] does not
    assign reads as [undefined].  [_data] is a reference to the snapshot
    the message was built from: the field holds the contents of that object
    once [_patch] has returned. *)
Record t := {
  _data : value;
  mediaKey : value;
  id : value;
  ack : value;
  hasMedia : value;
  body : value;
  type : value;
  timestamp : value;
  from : value;
  to : value;
  author : value;
  deviceType : value;
  isForwarded : value;
  forwardingScore : value;
  isStatus : value;
  isStarred : value;
  broadcast : value;
  fromMe : value;
  hasQuotedMsg : value;
  hasReaction : value;
  duration : value;
  location : option LocationArgs;
  vCards : value;
  inviteV4 : value;
  mentionedIds : value;
  orderId : value;
  token : value;
  isGif : value;
  isEphemeral : value;
  title : value;
  description : value;
  businessOwnerJid : value;
  productId : value;
  latestEditSenderTimestampMs : value;
  latestEditMsgKey : value;
  links : value;
  dynamicReplyButtons : value;
  selectedButtonId : value;
  selectedRowId : value;
  pollName : value;
  pollOptions : value;
  allowMultipleAnswers : value;
  pollInvalidated : value;
  isSentCagPollCreation : value
}.

(** A message on which [_patch] has not run. *)
Definition unpatched : t :=
  let u := VUndefined in
  Build_t u u u u u u u u u u u u u u u u u u u u u None
          u u u u u u u u u u u u u u u u u u u u u u.

Section Patch.

Variable MessageTypes : MessageTypesT.

(** [(typeof x === 'object' && x !== null) ? x._serialized : x] *)
Definition serialized_or_self (x : value) : value :=
  if String.eqb (typeof x) "object" && negb (strict_eq x VNull)
  then get x "_serialized" else x.

(** [typeof i === 'string' && i.length > 21 ? 'android'
     : typeof i === 'string' && i.substring(0, 2) === '3A' ? 'ios' : 'web'] *)
Definition device_type (i : value) : value :=
  match i with
  | VStr s =>
      if (21 <? String.length s)%nat then VStr "android"
      else if String.eqb (substring 0 2 s) "3A" then VStr "ios"
      else VStr "web"
  | _ => VStr "web"
  end.

(** [x ? x : undefined], and the pattern [if (x) this.p = x]. *)
Definition truthy_or_undefined (x : value) : value :=
  if ToBoolean x then x else VUndefined.

Definition location_of (data : value) : option LocationArgs :=
  if negb (strict_eq (get data "type") (VStr (LOCATION MessageTypes))) then None
  else
    let loc := get data "loc" in
    let description :=
      match loc with
      | VStr s =>
          if ToBoolean loc then
            let splitted := split_lines s in
            VObj (list_to_map [("name", nth_str 0 splitted);
                               ("address", nth_str 1 splitted);
                               ("url", get data "clientUrl")])
          else VUndefined
      | _ => VUndefined
      end in
    Some {| latitude := get data "lat";
            longitude := get data "lng";
            loc_description := description |}.

Definition vCards_of (data : value) : completion value :=
  if strict_eq (get data "type") (VStr (CONTACT_CARD_MULTI MessageTypes)) then
    match get data "vcardList" with
    | VArr cs => let* vs := mapM (fun c => prop c "vcard") cs in Normal (VArr vs)
    | _ => Throw TypeError
    end
  else if strict_eq (get data "type") (VStr (CONTACT_CARD MessageTypes)) then
    Normal (VArr [get data "body"])
  else Normal (VArr []).

Definition inviteV4_of (data : value) : completion value :=
  if strict_eq (get data "type") (VStr (GROUP_INVITE MessageTypes)) then
    let* in_from := has_property "_serialized" (get data "from") in
    let* in_to := has_property "_serialized" (get data "to") in
    Normal (VObj (list_to_map
      [("inviteCode", get data "inviteCode");
       ("inviteCodeExp", get data "inviteCodeExp");
       ("groupId", get data "inviteGrp");
       ("groupName", get data "inviteGrpName");
       ("fromId", if in_from : bool then get (get data "from") "_serialized"
                  else get data "from");
       ("toId", if in_to : bool then get (get data "to") "_serialized"
                else get data "to")]))
  else Normal VUndefined.

(** [data.listResponse && data.listResponse.singleSelectReply.selectedRowId] *)
Definition selectedRowId_of (data : value) : completion value :=
  let lr := get data "listResponse" in
  let* row := (if ToBoolean lr
               then let* reply := prop lr "singleSelectReply" in
                    prop reply "selectedRowId"
               else Normal lr) in
  Normal (truthy_or_undefined row).

(** The five [delete this._data.p] statements of the poll branch. *)
Definition delete_poll_fields (data : value) : value :=
  delete_prop "isSentCagPollCreation"
    (delete_prop "pollInvalidated"
       (delete_prop "pollSelectableOptionsCount"
          (delete_prop "pollOptions"
             (delete_prop "pollName" data)))).

(** The body of [_patch], for a snapshot that is neither [undefined] nor
    [null]. *)
Definition patch_fields (data : value) : completion t :=
  let hasMedia := ToBoolean (and (get data "mediaKey") (get data "directPath")) in
  let* id_id := prop (get data "id") "id" in
  let* vCards := vCards_of data in
  let* inviteV4 := inviteV4_of data in
  let* selectedRowId := selectedRowId_of data in
  let is_poll := strict_eq (get data "type") (VStr (POLL_CREATION MessageTypes)) in
  Normal {|
    _data := if is_poll then delete_poll_fields data else data;
    mediaKey := get data "mediaKey";
    id := get data "id";
    ack := get data "ack";
    hasMedia := VBool hasMedia;
    body := if hasMedia then or (get data "caption") (VStr "")
            else or (or (get data "body") (get data "pollName")) (VStr "");
    type := get data "type";
    timestamp := get data "t";
    from := serialized_or_self (get data "from");
    to := serialized_or_self (get data "to");
    author := serialized_or_self (get data "author");
    deviceType := device_type id_id;
    isForwarded := get data "isForwarded";
    forwardingScore := or (get data "forwardingScore") (VNum (Num 0));
    isStatus := or (get data "isStatusV3")
                   (VBool (strict_eq (get (get data "id") "remote")
                                     (VStr "status@broadcast")));
    isStarred := get data "star";
    broadcast := get data "broadcast";
    fromMe := get (get data "id") "fromMe";
    hasQuotedMsg := VBool (ToBoolean (get data "quotedMsg"));
    hasReaction := VBool (ToBoolean (get data "hasReaction"));
    duration := truthy_or_undefined (get data "duration");
    location := location_of data;
    vCards := vCards;
    inviteV4 := inviteV4;
    mentionedIds := if ToBoolean (get data "mentionedJidList")
                    then get data "mentionedJidList" else VArr [];
    orderId := truthy_or_undefined (get data "orderId");
    token := truthy_or_undefined (get data "token");
    isGif := VBool (ToBoolean (get data "isGif"));
    isEphemeral := get data "isEphemeral";
    title := truthy_or_undefined (get data "title");
    description := truthy_or_undefined (get data "description");
    businessOwnerJid := truthy_or_undefined (get data "businessOwnerJid");
    productId := truthy_or_undefined (get data "productId");
    latestEditSenderTimestampMs :=
      truthy_or_undefined (get data "latestEditSenderTimestampMs");
    latestEditMsgKey := truthy_or_undefined (get data "latestEditMsgKey");
    links := get data "links";
    dynamicReplyButtons := truthy_or_undefined (get data "dynamicReplyButtons");
    selectedButtonId := truthy_or_undefined (get data "selectedButtonId");
    selectedRowId := selectedRowId;
    pollName := if is_poll then get data "pollName" else VUndefined;
    pollOptions := if is_poll then get data "pollOptions" else VUndefined;
    allowMultipleAnswers :=
      if is_poll
      then VBool (negb (ToBoolean (get data "pollSelectableOptionsCount")))
      else VUndefined;
    pollInvalidated := if is_poll then get data "pollInvalidated" else VUndefined;
    isSentCagPollCreation :=
      if is_poll then get data "isSentCagPollCreation" else VUndefined
  |}.

(** [_patch(data)] run on a fresh message: the first property read throws
    when [data] is [undefined] or [null]. *)
Definition _patch (data : value) : completion t :=
  match data with
  | VUndefined | VNull => Throw TypeError
  | _ => patch_fields data
  end.

(** [new Message(client, data)]: [if (data) this._patch(data)].  The value
    of [_patch] (that of [Base._patch]) is discarded. *)
Definition new (data : value) : completion t :=
  if ToBoolean data then _patch data else Normal unpatched.

End Patch.

(** [get rawData() { return this._data; }] *)
Definition rawData (m : t) : value := _data m.

End Message.

(** ** [Structures/GroupNotification.js] *)

Module GroupNotification.

Record t := {
  id : value;
  body : value;
  type : value;
  timestamp : value;
  chatId : value;
  author : value;
  recipientIds : value
}.

Definition unpatched : t :=
  let u := VUndefined in Build_t u u u u u u u.

(** [typeof x === 'object' ? x._serialized : x] (no test for [null]). *)
Definition serialized_of_object (x : value) : completion value :=
  if String.eqb (typeof x) "object" then prop x "_serialized" else Normal x.

Definition _patch (data : value) : completion t :=
  match data with
  | VUndefined | VNull => Throw TypeError
  | _ =>
      let* remote := prop (get data "id") "remote" in
      let* chatId := serialized_of_object remote in
      let* author := serialized_of_object (get data "author") in
      Normal {|
        id := get data "id";
        body := or (get data "body") (VStr "");
        type := get data "subtype";
        timestamp := get data "t";
        chatId := chatId;
        author := author;
        recipientIds := if ToBoolean (get data "recipients")
                        then get data "recipients" else VArr []
      |}
  end.

Definition new (data : value) : completion t :=
  if ToBoolean data then _patch data else Normal unpatched.

End GroupNotification.

(** ** The [Client] class *)

Module Client.

(** An argument passed to [emit]. *)
Inductive arg :=
| ArgMessage (m : Message.t)
| ArgNotification (n : GroupNotification.t)
| ArgValue (v : value).

(** Functions of the page ([window.WPP], [window.WAJS]) and of [Util] that
    the commands call; what they return is decided by the page. *)
Inductive call :=
| WidFactory_createWid (id : value)
| ChatStore_find (wid : value)
| MsgStore_get (id : value)
| serialize (model : value)
| functions_sendSeen (chat : value)
| WAJS_sendMessage (chat message options sendSeen : value)
| status_sendTextStatus (message options : value)
| status_sendImageStatus (dataUrl options : value)
| status_sendVideoStatus (dataUrl options : value)
| Util_formatToWebpSticker (attachment metadata : value)
| group_addParticipants (groupId : value) (participants : list value)
| ContactStore_gadd (wid : value)
| WAJS_getProfilePicThumbToBase64 (wid : value)
| ChatModel_sendGroupInviteMessage
    (chat groupId groupName code expiration comment thumb : value)
| WAJS_compareWwebVersions (operator rOperand : string)
| group_approve (groupId requesterIds : value)
| group_reject (groupId requesterIds : value).

(** What the code does to the outside, in program order. *)
Inductive action :=
| Emit (event : Events) (args : list arg)   (* this.emit(event, ...args) *)
| Destroy                                   (* this.destroy() *)
| SetTimeoutTakeover (ms : value)           (* setTimeout(() => takeover, ms) *)
| Sleep (ms : value)                        (* Util.sleep(ms) *)
| Call (c : call).

(** The fields of [this.options] read by the handlers. *)
Record options := {
  qrMaxRetries : number;
  takeoverOnConflict : value;
  takeoverTimeoutMs : value
}.

(** The two variables of [initialize] captured by the handlers:
    [let qrRetries;] and [let last_message;].  [qrRetries] holds
    [undefined] ([None]) or a number. *)
Record locals := {
  qrRetries : option number;
  last_message : value
}.

Definition initial : locals :=
  {| qrRetries := None; last_message := VUndefined |}.

(** Outcome of running a handler or a command: the captured variables
    afterwards, the actions performed, and whether it returned or threw. *)
Record outcome (A : Type) := {
  final : locals;
  trace : list action;
  result : completion A
}.
Arguments final {A} o.
Arguments trace {A} o.
Arguments result {A} o.

Definition program (A : Type) : Type := locals -> outcome A.

Definition ret {A} (a : A) : program A :=
  fun st => {| final := st; trace := []; result := Normal a |}.

Definition seq {A B} (h : program A) (k : A -> program B) : program B :=
  fun st =>
    let o := h st in
    match result o with
    | Normal a =>
        let o' := k a (final o) in
        {| final := final o'; trace := trace o ++ trace o'; result := result o' |}
    | Throw e => {| final := final o; trace := trace o; result := Throw e |}
    end.

Definition lift {A} (c : completion A) : program A :=
  fun st => {| final := st; trace := []; result := c |}.

Definition perform (a : action) : program unit :=
  fun st => {| final := st; trace := [a]; result := Normal tt |}.

Definition emit (event : Events) (args : list arg) : program unit :=
  perform (Emit event args).

Definition read : program locals :=
  fun st => {| final := st; trace := []; result := Normal st |}.

Definition write (st' : locals) : program unit :=
  fun _ => {| final := st'; trace := []; result := Normal tt |}.

Notation "'let!' x ':=' h 'in' k" := (seq h (fun x => k))
  (at level 10, x name, h at level 100, k at level 200).
Notation "h ';;' k" := (seq h (fun _ => k))
  (at level 100, k at level 200, right associativity).

(** [a] performed before the actions of [o]. *)
Definition after (a : action) {A} (o : outcome A) : outcome A :=
  {| final := final o; trace := a :: trace o; result := result o |}.

(** Successive invocations of a callback, each starting from the captured
    variables left by the previous one. *)
Fixpoint invocations {A} (h : A -> program unit) (xs : list A) (st : locals)
  : locals * list action :=
  match xs with
  | [] => (st, [])
  | x :: xs' =>
      let o := h x st in
      let r := invocations h xs' (final o) in
      (fst r, trace o ++ snd r)
  end.

(** [qrRetries++] *)
Definition increment (n : option number) : number :=
  match n with
  | None => NaN
  | Some x => number_add x (Num 1)
  end.

(** [x > y] where [x] is the captured counter. *)
Definition counter_gtb (x : option number) (y : number) : bool :=
  match x with
  | None => false
  | Some n => number_gtb n y
  end.

(** *** Event handlers registered by [initialize] *)

Section Handlers.

Variable MessageTypes : MessageTypesT.
Variable WAState : WAStateT.
Variable opts : options.

Definition qrChanged (qr : value) : program unit :=
  emit QR_RECEIVED [ArgValue qr] ;;
  if number_gtb (qrMaxRetries opts) (Num 0) then
    let! st := read in
    write {| qrRetries := Some (increment (qrRetries st));
             last_message := last_message st |} ;;
    let! st := read in
    if counter_gtb (qrRetries st) (qrMaxRetries opts) then
      emit DISCONNECTED [ArgValue (VStr "Max qrcode retries reached")] ;;
      perform Destroy
    else ret tt
  else ret tt.

Definition onAddMessageEvent (msg : value) : program unit :=
  let! ty := lift (prop msg "type") in
  if strict_eq ty (VStr "gp2") then
    let! notification := lift (GroupNotification.new msg) in
    let subtype := get msg "subtype" in
    if existsb (strict_eq subtype)
               [VStr "add"; VStr "invite"; VStr "linked_group_join"] then
      emit GROUP_JOIN [ArgNotification notification]
    else if strict_eq subtype (VStr "remove") || strict_eq subtype (VStr "leave") then
      emit GROUP_LEAVE [ArgNotification notification]
    else if strict_eq subtype (VStr "promote") || strict_eq subtype (VStr "demote") then
      emit GROUP_ADMIN_CHANGED [ArgNotification notification]
    else if strict_eq subtype (VStr "created_membership_requests") then
      emit GROUP_MEMBERSHIP_REQUEST [ArgNotification notification]
    else
      emit GROUP_UPDATE [ArgNotification notification]
  else
    let! message := lift (Message.new MessageTypes msg) in
    emit MESSAGE_CREATE [ArgMessage message] ;;
    let! fromMe := lift (prop (get msg "id") "fromMe") in
    if ToBoolean fromMe then ret tt
    else emit MESSAGE_RECEIVED [ArgMessage message].

Definition onChangeMessageTypeEvent (msg : value) : program unit :=
  let! ty := lift (prop msg "type") in
  if strict_eq ty (VStr "revoked") then
    let! message := lift (Message.new MessageTypes msg) in
    let! st := read in
    let! revoked_msg :=
      (if ToBoolean (last_message st) then
         let! id := lift (prop (get msg "id") "id") in
         let! last_id := lift (prop (get (last_message st) "id") "id") in
         if strict_eq id last_id then
           let! m := lift (Message.new MessageTypes (last_message st)) in
           (* the object held by [last_message] is the one just patched *)
           write {| qrRetries := qrRetries st;
                    last_message := Message._data m |} ;;
           ret (ArgMessage m)
         else ret (ArgValue VUndefined)
       else ret (ArgValue VUndefined)) in
    emit MESSAGE_REVOKED_EVERYONE [ArgMessage message; revoked_msg]
  else ret tt.

Definition onChangeMessageEvent (msg : value) : program unit :=
  let! ty := lift (prop msg "type") in
  (if negb (strict_eq ty (VStr "revoked")) then
     let! st := read in
     write {| qrRetries := qrRetries st; last_message := msg |}
   else ret tt) ;;
  let subtype := get msg "subtype" in
  let isParticipant :=
    strict_eq ty (VStr "gp2") && strict_eq subtype (VStr "modify") in
  let isContact :=
    strict_eq ty (VStr "notification_template")
    && strict_eq subtype (VStr "change_number") in
  if isParticipant || isContact then
    let! message := lift (Message.new MessageTypes msg) in
    (* [msg] is the object now held by [last_message] *)
    let! st := read in
    write {| qrRetries := qrRetries st;
             last_message := Message._data message |} ;;
    let! newId := lift (if isParticipant then index0 (get msg "recipients")
                        else Normal (get msg "to")) in
    let! oldId :=
      lift (if isParticipant then Normal (get msg "author")
            else match get msg "templateParams" with
                 | VArr params =>
                     Normal (find (fun id => negb (strict_eq id newId)) params)
                 | _ => Throw TypeError
                 end) in
    emit CONTACT_CHANGED
         [ArgMessage message; ArgValue oldId; ArgValue newId;
          ArgValue (VBool isContact)]
  else ret tt.

(** [ACCEPTED_STATES.includes(state)] *)
Definition includes (states : list string) (state : value) : bool :=
  existsb (fun s => strict_eq state (VStr s)) states.

Definition onAppStateChangedEvent (state : value) : program unit :=
  emit STATE_CHANGED [ArgValue state] ;;
  let ACCEPTED_STATES :=
    [CONNECTED WAState; OPENING WAState; PAIRING WAState; TIMEOUT WAState] in
  let! ACCEPTED_STATES :=
    (if ToBoolean (takeoverOnConflict opts) then
       (if strict_eq state (VStr (CONFLICT WAState))
        then perform (SetTimeoutTakeover (takeoverTimeoutMs opts))
        else ret tt) ;;
       ret (ACCEPTED_STATES ++ [CONFLICT WAState])
     else ret ACCEPTED_STATES) in
  if negb (includes ACCEPTED_STATES state) then
    emit DISCONNECTED [ArgValue state] ;;
    perform Destroy
  else ret tt.

End Handlers.

(** *** Commands *)

(** The classes tested with [instanceof] by [sendMessage]. *)
Inductive jsclass :=
| MessageMedia
| Location
| Poll
| Contact.

#[global] Instance jsclass_eq_dec : EqDecision jsclass.
Proof. solve_decision. Defined.

(** A value together with the class it is an instance of, if any. *)
Definition instance : Type := option jsclass * value.

(** The [content] argument: one value, or an array whose elements may be
    class instances. *)
Inductive content :=
| One (x : instance)
| Many (xs : list instance).

Definition instanceof (x : instance) (c : jsclass) : bool :=
  match fst x with
  | Some c' => bool_decide (c' = c)
  | None => false
  end.

Definition content_instanceof (x : content) (c : jsclass) : bool :=
  match x with
  | One i => instanceof i c
  | Many _ => false
  end.

(** The value itself, as it is stored in a property or crosses to the
    page. *)
Definition plain (x : content) : value :=
  match x with
  | One i => snd i
  | Many xs => VArr (List.map snd xs)
  end.

(** The typedef [MessageSendOptions] (with the undocumented [extra] and
    [messageId]). *)
Record MessageSendOptions := {
  linkPreview : value;
  sendAudioAsVoice : value;
  sendVideoAsGif : value;
  sendMediaAsSticker : value;
  sendMediaAsDocument : value;
  isViewOnce : value;
  parseVCards : value;
  caption : value;
  quotedMessageId : value;
  mentions : value;
  sendSeen : value;
  stickerAuthor : value;
  stickerName : value;
  stickerCategories : value;
  stickerIsAvatar : value;
  media : content;
  extra : value;
  messageId : value
}.

(** [options = {}] *)
Definition no_options : MessageSendOptions :=
  let u := VUndefined in
  Build_MessageSendOptions u u u u u u u u u u u u u u u (One (None, u)) u u.

(** [x.id._serialized] *)
Definition id_serialized (x : value) : completion value :=
  let* i := prop x "id" in prop i "_serialized".

(** [Array.isArray(options.mentions)
      ? options.mentions.map(v => typeof v === 'object' ? v.id._serialized : v)
      : []] *)
Definition mentionedJidList (mentions : value) : completion value :=
  match mentions with
  | VArr vs =>
      let* ids := mapM (fun v => if String.eqb (typeof v) "object"
                                 then id_serialized v else Normal v) vs in
      Normal (VArr ids)
  | _ => Normal (VArr [])
  end.

(** The chain of [instanceof] tests: the new [content] and the updated
    [internalOptions]. *)
Definition dispatch (content : content) (options : MessageSendOptions)
    (internalOptions : gmap string value)
  : completion (value * gmap string value) :=
  if content_instanceof content MessageMedia then
    Normal (VStr "",
            <["isViewOnce" := isViewOnce options]>
              (<["attachment" := plain content]> internalOptions))
  else if content_instanceof (media options) MessageMedia then
    Normal (VStr "",
            <["isViewOnce" := isViewOnce options]>
              (<["caption" := plain content]>
                 (<["attachment" := plain (media options)]> internalOptions)))
  else if content_instanceof content Location then
    Normal (VStr "", <["location" := plain content]> internalOptions)
  else if content_instanceof content Poll then
    Normal (VStr "", <["poll" := plain content]> internalOptions)
  else if content_instanceof content Contact then
    let* card := id_serialized (plain content) in
    Normal (VStr "", <["contactCard" := card]> internalOptions)
  else
    match content with
    | Many (x :: xs) =>
        if instanceof x Contact then
          let* cards := mapM (fun c => id_serialized (snd c)) (x :: xs) in
          Normal (VStr "", <["contactCardList" := VArr cards]> internalOptions)
        else Normal (plain content, internalOptions)
    | _ => Normal (plain content, internalOptions)
    end.

Section Commands.

Variable MessageTypes : MessageTypesT.

(** What the page answers to each call. *)
Variable respond : call -> completion value.

(** [await f(...)] for a function [f] of the page. *)
Definition request (c : call) : program value :=
  perform (Call c) ;; lift (respond c).

(** [await (await MsgStore.get(result.id)).serialize()] *)
Definition stored_message (result : value) : program value :=
  let! id := lift (prop result "id") in
  let! model := request (MsgStore_get id) in
  match model with
  | VUndefined | VNull => lift (Throw TypeError)
  | _ => request (serialize model)
  end.

(** [`data:${message.mimetype};base64,${message.data}`] *)
Definition data_url (message : value) : value :=
  VStr ("data:" ++ ToString (get message "mimetype")
        ++ ";base64," ++ ToString (get message "data"))%string.

(** The function evaluated in the page by [sendMessage]. *)
Definition send_in_page (chatId message options sendSeen : value) : program value :=
  if strict_eq chatId (VStr "status@broadcast") then
    if String.eqb (typeof message) "string" then
      let! result := request (status_sendTextStatus message options) in
      stored_message result
    else
      let! mimetype := lift (prop message "mimetype") in
      if test "image" mimetype then
        let! result := request (status_sendImageStatus (data_url message) options) in
        stored_message result
      else if test "video" mimetype then
        let! result := request (status_sendVideoStatus (data_url message) options) in
        stored_message result
      else lift (Throw (Error "Invalid type for status broadcast"))
  else
    let! chatWid := request (WidFactory_createWid chatId) in
    let! chat := request (ChatStore_find chatWid) in
    (if ToBoolean sendSeen
     then let! _ := request (functions_sendSeen chat) in ret tt
     else ret tt) ;;
    let! msg := request (WAJS_sendMessage chat message options sendSeen) in
    match msg with
    | VUndefined | VNull => lift (Throw TypeError)
    | _ => request (serialize msg)
    end.

Definition sendMessage (chatId : value) (content : content)
    (options : MessageSendOptions) : program Message.t :=
  let! mentioned := lift (mentionedJidList (mentions options)) in
  let internalOptions : gmap string value :=
    list_to_map
      [("linkPreview", if strict_eq (linkPreview options) (VBool false)
                       then VUndefined else VBool true);
       ("sendAudioAsVoice", sendAudioAsVoice options);
       ("sendVideoAsGif", sendVideoAsGif options);
       ("sendMediaAsSticker", sendMediaAsSticker options);
       ("sendMediaAsDocument", sendMediaAsDocument options);
       ("caption", caption options);
       ("quotedMessageId", quotedMessageId options);
       ("parseVCards", if strict_eq (parseVCards options) (VBool false)
                       then VBool false else VBool true);
       ("mentionedJidList", mentioned);
       ("extraOptions", extra options);
       ("messageId", messageId options)] in
  let sendSeen :=
    if String.eqb (typeof (sendSeen options)) "undefined"
    then VBool true else sendSeen options in
  let! dispatched := lift (dispatch content options internalOptions) in
  let content := fst dispatched in
  let internalOptions := snd dispatched in
  let! internalOptions :=
    (if ToBoolean (and (get (VObj internalOptions) "sendMediaAsSticker")
                       (get (VObj internalOptions) "attachment"))
     then
       let! sticker :=
         request (Util_formatToWebpSticker
                    (get (VObj internalOptions) "attachment")
                    (VObj (list_to_map
                             [("name", stickerName options);
                              ("author", stickerAuthor options);
                              ("categories", stickerCategories options);
                              ("isAvatarSticker", stickerIsAvatar options)]))) in
       ret (<["attachment" := sticker]> internalOptions)
     else ret internalOptions) in
  let! newMessage := send_in_page chatId content (VObj internalOptions) sendSeen in
  lift (Message.new MessageTypes newMessage).

(** [{ requesterIds = null } = options], then one call of the page. *)
Definition approveGroupMembershipRequests (groupId options : value) : program value :=
  let options := match options with VUndefined => VObj ∅ | _ => options end in
  let! requesterIds := lift (let* _ := prop options "requesterIds" in
                             Normal (get_default options "requesterIds" VNull)) in
  request (group_approve groupId requesterIds).

Definition rejectGroupMembershipRequests (groupId options : value) : program value :=
  let options := match options with VUndefined => VObj ∅ | _ => options end in
  let! requesterIds := lift (let* _ := prop options "requesterIds" in
                             Normal (get_default options "requesterIds" VNull)) in
  request (group_reject groupId requesterIds).

End Commands.

End Client.

(** ** [Structures/GroupChat.js] *)

Module GroupChat.

Import Client.

Section AddParticipants.

Variable respond : call -> completion value.

(** [for (let x of xs) body], where [body] says whether the function
    returns ([Some r]) or the loop goes on ([None]); the function returns
    [undefined] when the loop runs out. *)
Fixpoint for_of (body : value -> program (option value)) (xs : list value)
  : program value :=
  match xs with
  | [] => ret VUndefined
  | x :: xs' =>
      let! r := body x in
      match r with
      | Some v => ret v
      | None => for_of body xs'
      end
  end.

(** [rpcResult.message.includes('ParticipantRequestCodeCanBeSent')] *)
Definition message_includes (message : value) (word : string) : completion bool :=
  match message with
  | VStr s => Normal (contains word s)
  | VArr xs => Normal (existsb (fun x => strict_eq x (VStr word)) xs)
  | _ => Throw TypeError
  end.

(** The invitation sent when the participant cannot be added directly:
    the value of [isInviteV4Sent]. *)
Definition send_invite (group groupWid pWid rpcResult comment : value) : program value :=
  let! _ := request respond (ContactStore_gadd pWid) in
  let! message := lift (prop rpcResult "message") in
  let! can_be_sent := lift (message_includes message "ParticipantRequestCodeCanBeSent") in
  if can_be_sent : bool then
    let! userChat := request respond (ChatStore_find pWid) in
    if ToBoolean userChat then
      let! formattedTitle := lift (prop group "formattedTitle") in
      let groupName := or formattedTitle (get group "name") in
      let! group_id := lift (id_serialized group) in
      let! thumb := request respond (WAJS_getProfilePicThumbToBase64 groupWid) in
      let! res := request respond
                    (ChatModel_sendGroupInviteMessage
                       userChat group_id groupName
                       (get rpcResult "invite_code")
                       (get rpcResult "invite_code_exp")
                       comment thumb) in
      let! old := request respond (WAJS_compareWwebVersions "<" "2.2335.6") in
      if ToBoolean old then ret (VBool (strict_eq res (VStr "OK")))
      else
        let! sent := lift (prop res "messageSendResult") in
        ret (VBool (strict_eq sent (VStr "OK")))
    else ret (VBool false)
  else ret (VBool false).

(** The body of the loop, for one participant. *)
Definition add_one (groupId group groupWid autoSendInviteV4 comment : value)
    (participant : value) : program (option value) :=
  let! pWid := request respond (WidFactory_createWid participant) in
  let! result := request respond (group_addParticipants groupId [participant]) in
  let! rpcResult := lift (prop_at result participant) in
  let! rpcResult :=
    (if ToBoolean autoSendInviteV4 then
       let! code := lift (prop rpcResult "code") in
       if strict_eq code (VNum (Num 403)) then
         let! isInviteV4Sent := send_invite group groupWid pWid rpcResult comment in
         ret (set_prop "isInviteV4Sent" isInviteV4Sent rpcResult)
       else ret rpcResult
     else ret rpcResult) in
  (* return rpcResult; *)
  ret (Some rpcResult).

Definition addParticipants (groupId participantIds options : value) : program value :=
  let options := match options with VUndefined => VObj ∅ | _ => options end in
  let! _ := lift (prop options "autoSendInviteV4") in
  let autoSendInviteV4 := get_default options "autoSendInviteV4" (VBool true) in
  let comment := get_default options "comment" (VStr "") in
  let! groupWid := request respond (WidFactory_createWid groupId) in
  let! group := request respond (ChatStore_find groupWid) in
  let! participants := lift (iterate participantIds) in
  for_of (add_one groupId group groupWid autoSendInviteV4 comment) participants.

End AddParticipants.

End GroupChat.

(** * Further code *)

(** ** The other message handlers registered by [Client.initialize] *)

Module Listeners.

Import Client.

Section Listeners.

Variable MessageTypes : MessageTypesT.
Variable WAState : WAStateT.
Variable opts : options.

Definition onRemoveMessageEvent (msg : value) : program unit :=
  let! isNewMsg := lift (prop msg "isNewMsg") in
  if negb (ToBoolean isNewMsg) then ret tt
  else
    let! message := lift (Message.new MessageTypes msg) in
    emit MESSAGE_REVOKED_ME [ArgMessage message].

Definition onMessageAckEvent (msg ack : value) : program unit :=
  let! message := lift (Message.new MessageTypes msg) in
  emit MESSAGE_ACK [ArgMessage message; ArgValue ack].

Definition onMessageMediaUploadedEvent (msg : value) : program unit :=
  let! message := lift (Message.new MessageTypes msg) in
  emit MEDIA_UPLOADED [ArgMessage message].

(** A call, by the page, of one of the eight handlers above.  ([EmitEvent],
    which forwards any event the page names, and the handlers of calls,
    reactions and chats are not among them.) *)
Inductive exposed :=
| QrChanged (qr : value)
| AddMessageEvent (msg : value)
| ChangeMessageTypeEvent (msg : value)
| ChangeMessageEvent (msg : value)
| RemoveMessageEvent (msg : value)
| MessageAckEvent (msg ack : value)
| MessageMediaUploadedEvent (msg : value)
| AppStateChangedEvent (state : value).

Definition deliver (x : exposed) : program unit :=
  match x with
  | QrChanged qr => qrChanged opts qr
  | AddMessageEvent msg => onAddMessageEvent MessageTypes msg
  | ChangeMessageTypeEvent msg => onChangeMessageTypeEvent MessageTypes msg
  | ChangeMessageEvent msg => onChangeMessageEvent MessageTypes msg
  | RemoveMessageEvent msg => onRemoveMessageEvent msg
  | MessageAckEvent msg ack => onMessageAckEvent msg ack
  | MessageMediaUploadedEvent msg => onMessageMediaUploadedEvent msg
  | AppStateChangedEvent state => onAppStateChangedEvent WAState opts state
  end.

End Listeners.

End Listeners.

(** ** [Message.reply] *)

Module MessageMethods.

Import Client.

(** [this.fromMe ? this.to : this.from] *)
Definition _getChatId (m : Message.t) : value :=
  if ToBoolean (Message.fromMe m) then Message.to m else Message.from m.

(** [{ ...options, quotedMessageId: id }] *)
Definition with_quotedMessageId (options : MessageSendOptions) (id : value)
  : MessageSendOptions :=
  {| linkPreview := linkPreview options;
     sendAudioAsVoice := sendAudioAsVoice options;
     sendVideoAsGif := sendVideoAsGif options;
     sendMediaAsSticker := sendMediaAsSticker options;
     sendMediaAsDocument := sendMediaAsDocument options;
     isViewOnce := isViewOnce options;
     parseVCards := parseVCards options;
     caption := caption options;
     quotedMessageId := id;
     mentions := mentions options;
     sendSeen := sendSeen options;
     stickerAuthor := stickerAuthor options;
     stickerName := stickerName options;
     stickerCategories := stickerCategories options;
     stickerIsAvatar := stickerIsAvatar options;
     media := media options;
     extra := extra options;
     messageId := messageId options |}.

Section Reply.

Variable MessageTypes : MessageTypesT.
Variable respond : call -> completion value.

Definition reply (m : Message.t) (content : content) (chatId : value)
    (options : MessageSendOptions) : program Message.t :=
  let chatId := if negb (ToBoolean chatId) then _getChatId m else chatId in
  let! id := lift (prop (Message.id m) "_serialized") in
  sendMessage MessageTypes respond chatId content (with_quotedMessageId options id).

End Reply.

End MessageMethods.

(** ** Methods whose failures are inspected

    The methods below catch what the page throws and look at it, or throw
    values that are not errors.  A run is the list of the page functions
    called, in order, with what the method returns or throws. *)

Module Script.

(** What a [throw] carries. *)
Inductive thrown :=
| Raised (e : error)   (** an error of the engine, or [new Error(message)] *)
| Custom (v : value).  (** any other value, properties own or inherited *)

Inductive answer (A : Type) :=
| Returned (a : A)
| Thrown (x : thrown).
Arguments Returned {A} a.
Arguments Thrown {A} x.

(** Functions of the page, by their path from [window]. *)
Inductive callee :=
| WPP_group_setSubject
| WPP_group_setDescription
| WPP_group_setProperty
| WAJS_setPicture
| WPP_chat_markIsRead
| WPP_status_sendReadStatus
| WPP_whatsapp_MsgStore_get
| WPP_whatsapp_functions_getQuotedMsgObj
| WAJS_getMessageModel
| WPP_chat_downloadMedia
| WPP_util_blobToBase64
| WPP_chat_editMessage
| WPP_contact_queryExists
| WPP_whatsapp_WidFactory_createWid
| WPP_whatsapp_functions_sendCreateGroup
| WPP_chat_sendGroupInviteMessage
| Util_sleep.

#[global] Instance callee_eq_dec : EqDecision callee.
Proof. solve_decision. Defined.

Record invocation := {
  function : callee;
  arguments : list value
}.

Definition script (A : Type) : Type := list invocation * answer A.

Definition ret {A} (a : A) : script A := ([], Returned a).

Definition throw {A} (x : thrown) : script A := ([], Thrown x).

Definition bind {A B} (c : script A) (k : A -> script B) : script B :=
  match snd c with
  | Returned a => (fst c ++ fst (k a), snd (k a))
  | Thrown x => (fst c, Thrown x)
  end.

(** [try { body } catch (err) { handler }] *)
Definition try_catch {A} (body : script A) (handler : thrown -> script A) : script A :=
  match snd body with
  | Returned a => body
  | Thrown x => (fst body ++ fst (handler x), snd (handler x))
  end.

Definition lift {A} (c : completion A) : script A :=
  match c with
  | Normal a => ret a
  | Throw e => throw (Raised e)
  end.

(** [err.name] and [err.status] in a [catch (err)]. *)
Definition name_of (x : thrown) : completion value :=
  match x with
  | Raised TypeError => Normal (VStr "TypeError")
  | Raised (Error _) => Normal (VStr "Error")
  | Custom v => prop v "name"
  end.

Definition status_of (x : thrown) : completion value :=
  match x with
  | Raised _ => Normal VUndefined
  | Custom v => prop v "status"
  end.

(** [await f(...arguments)] for a function [f] of the page; [page] says
    what each call answers. *)
Definition invoke (page : callee -> list value -> answer value)
    (f : callee) (args : list value) : script value :=
  ([{| function := f; arguments := args |}], page f args).

(** [target.k = x] in strict mode: a [TypeError] unless [target] is an
    object.  (A named property stored on an array is not represented.) *)
Definition assign (target : value) (k : string) (x : value) : completion value :=
  match target with
  | VObj o => Normal (VObj (<[k := x]> o))
  | VArr xs => Normal (VArr xs)
  | _ => Throw TypeError
  end.

(** [SameValueZero], as used by [Array.prototype.includes]. *)
Definition same_value_zero (a b : value) : bool :=
  match a, b with
  | VNum NaN, VNum NaN => true
  | _, _ => strict_eq a b
  end.

(** [v.includes(x)]: the method of strings and of arrays. *)
Definition includes_method (v x : value) : completion bool :=
  match v with
  | VStr s => Normal (contains (ToString x) s)
  | VArr xs => Normal (existsb (same_value_zero x) xs)
  | _ => Throw TypeError
  end.

(** [s.endsWith(suffix)] on strings. *)
Definition ends_with (suffix s : string) : bool :=
  (String.length suffix <=? String.length s)%nat
  && String.eqb (substring (String.length s - String.length suffix)
                           (String.length suffix) s) suffix.


End Script.

Notation "'let+' x ':=' c 'in' k" := (Script.bind c (fun x => k))
  (at level 10, x name, c at level 100, k at level 200).

(** *** [GroupChat]: settings ([Structures/GroupChat.js]) *)

Module GroupSettings.

Import Script.

(** The properties of a [GroupChat] that the setters read and write. *)
Record t := {
  id : value;
  name : value;
  groupMetadata : value
}.

Section Settings.

Variable page : callee -> list value -> answer value.

(** The function evaluated in the page by the four setters:
    [try { await f(...); return true; }
     catch (err) { if (err.name === 'ServerStatusCodeError') return false;
                   throw err; }] *)
Definition attempt (f : callee) (args : list value) : script value :=
  try_catch
    (let+ _ := invoke page f args in ret (VBool true))
    (fun err =>
       let+ name := lift (name_of err) in
       if strict_eq name (VStr "ServerStatusCodeError") then ret (VBool false)
       else throw err).

Definition setSubject (this : t) (subject : value) : script (value * t) :=
  let+ chatId := lift (prop (id this) "_serialized") in
  let+ success := attempt WPP_group_setSubject [chatId; subject] in
  if negb (ToBoolean success) then ret (VBool false, this)
  else ret (VBool true,
            {| id := id this; name := subject; groupMetadata := groupMetadata this |}).

Definition setDescription (this : t) (description : value) : script (value * t) :=
  let+ chatId := lift (prop (id this) "_serialized") in
  let+ success := attempt WPP_group_setDescription [chatId; description] in
  if negb (ToBoolean success) then ret (VBool false, this)
  else
    let+ metadata := lift (assign (groupMetadata this) "desc" description) in
    ret (VBool true, {| id := id this; name := name this; groupMetadata := metadata |}).

(** [adminsOnly = true] *)
Definition or_true (adminsOnly : value) : value :=
  match adminsOnly with VUndefined => VBool true | _ => adminsOnly end.

(** [adminsOnly ? 1 : 0] *)
Definition flag (adminsOnly : value) : value :=
  if ToBoolean adminsOnly then VNum (Num 1) else VNum (Num 0).

Definition setMessagesAdminsOnly (this : t) (adminsOnly : value) : script (value * t) :=
  let adminsOnly := or_true adminsOnly in
  let+ chatId := lift (prop (id this) "_serialized") in
  let+ success :=
    attempt WPP_group_setProperty [chatId; VStr "announcement"; flag adminsOnly] in
  if negb (ToBoolean success) then ret (VBool false, this)
  else
    let+ metadata := lift (assign (groupMetadata this) "announce" adminsOnly) in
    ret (VBool true, {| id := id this; name := name this; groupMetadata := metadata |}).

Definition setInfoAdminsOnly (this : t) (adminsOnly : value) : script (value * t) :=
  let adminsOnly := or_true adminsOnly in
  let+ chatId := lift (prop (id this) "_serialized") in
  let+ success :=
    attempt WPP_group_setProperty [chatId; VStr "restrict"; flag adminsOnly] in
  if negb (ToBoolean success) then ret (VBool false, this)
  else
    let+ metadata := lift (assign (groupMetadata this) "restrict" adminsOnly) in
    ret (VBool true, {| id := id this; name := name this; groupMetadata := metadata |}).

(** [evaluate(({ chatid, media }) => window.WAJS.setPicture(chatid, media),
              { chatId: this.id._serialized, media })] *)
Definition setPicture (this : t) (media : value) : script value :=
  let+ chatId := lift (prop (id this) "_serialized") in
  let argument := VObj (list_to_map [("chatId", chatId); ("media", media)]) in
  invoke page WAJS_setPicture [get argument "chatid"; get argument "media"].

End Settings.

End GroupSettings.

(** *** [Client.sendSeen], [Client.getNumberId], [Client.isRegisteredUser] *)

Module ClientQueries.

Import Script.

Section Queries.

Variable page : callee -> list value -> answer value.

Definition sendSeen (chatId msgId : value) : script value :=
  let+ _ :=
    (if ToBoolean msgId then
       let+ status := lift (includes_method msgId (VStr "status@broadcast")) in
       if negb status then throw (Custom (VStr "use the message id from status"))
       else ret tt
     else ret tt) in
  let+ _ :=
    (if ToBoolean msgId then
       let+ matches := lift (includes_method msgId chatId) in
       if negb matches then throw (Custom (VStr "chatId has no match in msgId"))
       else ret tt
     else ret tt) in
  if ToBoolean msgId then invoke page WPP_status_sendReadStatus [chatId; msgId]
  else invoke page WPP_chat_markIsRead [chatId].



End Queries.

End ClientQueries.

(** *** [Message]: methods that ask the page ([Structures/Message.js]) *)

Module MessageActions.

Import Script.

(** Arguments of the call [new MessageMedia(mimetype, data, filename,
    filesize)]; what the class does with them is not modelled. *)
Record MediaArgs := {
  mimetype : value;
  data : value;
  filename : value;
  filesize : value
}.

(** [s.split(sep)] for a separator of one character. *)
Fixpoint split_on (sep : ascii) (s : string) : list string :=
  match s with
  | EmptyString => [""]
  | String c s' =>
      if Ascii.eqb c sep then "" :: split_on sep s'
      else match split_on sep s' with
           | [] => [String c ""]
           | l :: ls => String c l :: ls
           end
  end.

(** [v.split(',')]: a method of strings only. *)
Definition split_method (v : value) (sep : ascii) : completion (list string) :=
  match v with
  | VStr s => Normal (split_on sep s)
  | _ => Throw TypeError
  end.



Section Actions.

Variable MessageTypes : MessageTypesT.
Variable page : callee -> list value -> answer value.



(** [getQuotedMessage()]: [None] is [undefined]. *)
Definition getQuotedMessage (m : Message.t) : script (option Message.t) :=
  if negb (ToBoolean (Message.hasQuotedMsg m)) then ret None
  else
    let+ msgId := lift (prop (Message.id m) "_serialized") in
    let+ quotedMsg :=
      (let+ msg := invoke page WPP_whatsapp_MsgStore_get [msgId] in
       let+ quotedMsg := invoke page WPP_whatsapp_functions_getQuotedMsgObj [msg] in
       invoke page WAJS_getMessageModel [quotedMsg]) in
    let+ quoted := lift (Message.new MessageTypes quotedMsg) in
    ret (Some quoted).

(** [downloadMedia()]: [None] is [undefined]. *)
Definition downloadMedia (m : Message.t) : script (option MediaArgs) :=
  if negb (ToBoolean (Message.hasMedia m)) then ret None
  else
    let+ msgId := lift (prop (Message.id m) "_serialized") in
    let+ result :=
      (let+ msg := invoke page WPP_whatsapp_MsgStore_get [msgId] in
       if negb (ToBoolean msg) then ret VUndefined
       else
         try_catch
           (let+ decryptedMedia := invoke page WPP_chat_downloadMedia [msgId] in
            let+ data := invoke page WPP_util_blobToBase64 [decryptedMedia] in
            let+ parts := lift (split_method data ","%char) in
            ret (VObj (list_to_map
                         [("data", nth_str 1 parts);
                          ("mimetype", get msg "mimetype");
                          ("filename", get msg "filename");
                          ("filesize", get msg "size")])))
           (fun e =>
              let+ status := lift (status_of e) in
              if ToBoolean (and status (VBool (strict_eq status (VNum (Num 404)))))
              then ret VUndefined
              else throw e)) in
    if negb (ToBoolean result) then ret None
    else ret (Some {| mimetype := get result "mimetype";
                      data := get result "data";
                      filename := get result "filename";
                      filesize := get result "filesize" |}).

(** [edit(content, options = {})]: [None] is [null]. *)
Definition edit (m : Message.t) (content options : value) : script (option Message.t) :=
  let options := match options with VUndefined => VObj ∅ | _ => options end in
  let+ mentions := lift (prop options "mentions") in
  let+ mentioned := lift (Client.mentionedJidList mentions) in
  let internalOptions :=
    VObj (list_to_map
            [("linkPreview", if strict_eq (get options "linkPreview") (VBool false)
                             then VUndefined else VBool true);
             ("mentionedJidList", mentioned);
             ("extraOptions", get options "extra")]) in
  if negb (ToBoolean (Message.fromMe m)) then ret None
  else
    let+ msgId := lift (prop (Message.id m) "_serialized") in
    let+ messageEdit :=
      invoke page WPP_chat_editMessage [msgId; content; internalOptions] in
    if ToBoolean messageEdit then
      let+ edited := lift (Message.new MessageTypes messageEdit) in
      ret (Some edited)
    else ret None.

End Actions.

End MessageActions.

(** *** [Client.createGroup] *)

Module GroupCreation.

Import Script.

(** The [participants] argument: left out, one id or [Contact], or an
    array of them. *)
Inductive participants_arg :=
| Omitted
| Single (x : Client.instance)
| Several (xs : list Client.instance).

(** [x?.k] *)
Definition optional_prop (x : value) (k : string) : value :=
  match x with
  | VUndefined | VNull => VUndefined
  | _ => get x k
  end.

(** [a ?? b] *)
Definition coalesce (a b : value) : value :=
  match a with
  | VUndefined | VNull => b
  | _ => a
  end.

(** The table [addParticipantResultCodes]. *)
Definition addParticipantResultCodes : value :=
  VObj (list_to_map
          [("default", VStr "An unknown error occupied while adding a participant");
           ("200", VStr "The participant was added successfully");
           ("403", VStr "The participant can be added by sending private invitation only");
           ("404", VStr "The phone number is not registered on WhatsApp")]).

(** The entry written for each participant that is not registered. *)
Definition not_registered : value :=
  VObj (list_to_map
          [("statusCode", VNum (Num 404));
           ("message", get addParticipantResultCodes "404");
           ("isGroupCreator", VBool false);
           ("isInviteV4Sent", VBool false)]).

Section CreateGroup.

Variable page : callee -> list value -> answer value.

(** The first loop: the wids of the registered participants, and the
    participants that are not registered. *)
Fixpoint lookup (participants participantWids failedParticipants : list value)
  : script (list value * list value) :=
  match participants with
  | [] => ret (participantWids, failedParticipants)
  | participant :: rest =>
      let+ pWid := invoke page WPP_whatsapp_WidFactory_createWid [participant] in
      let+ found := invoke page WPP_contact_queryExists [pWid] in
      if ToBoolean (optional_prop found "wid")
      then lookup rest (participantWids ++ [pWid]) failedParticipants
      else lookup rest participantWids (failedParticipants ++ [participant])
  end.

(** The body of the second loop, for one participant of the result. *)
Definition report (autoSendInviteV4 comment createGroupResult : value)
    (participantData : gmap string value) (participant : value)
  : script (gmap string value) :=
  let+ wid := lift (prop participant "wid") in
  let+ participantId := lift (prop wid "_serialized") in
  let statusCode := coalesce (get participant "error") (VNum (Num 200)) in
  let+ isInviteV4Sent :=
    (if ToBoolean (and autoSendInviteV4
                       (VBool (strict_eq statusCode (VNum (Num 403)))))
     then
       let+ _ := invoke page Util_sleep [VNum (Num 2500)] in
       let+ gid := lift (prop createGroupResult "wid") in
       let+ groupId := lift (prop gid "_serialized") in
       let+ _ :=
         invoke page WPP_chat_sendGroupInviteMessage
           [participantId;
            VObj (list_to_map
                    [("inviteCode", get participant "invite_code");
                     ("inviteCodeExpiration", get participant "invite_code_exp");
                     ("groupId", groupId);
                     ("caption", comment)])] in
       ret true
     else ret false) in
  ret (<[ToString participantId :=
           VObj (list_to_map
                   [("statusCode", statusCode);
                    ("message", or (get addParticipantResultCodes (ToString statusCode))
                                   (get addParticipantResultCodes "default"));
                    ("isGroupCreator",
                     VBool (strict_eq (get participant "type") (VStr "superadmin")));
                    ("isInviteV4Sent", VBool isInviteV4Sent)])]>
         participantData).

Fixpoint reports (autoSendInviteV4 comment createGroupResult : value)
    (participantData : gmap string value) (participants : list value)
  : script (gmap string value) :=
  match participants with
  | [] => ret participantData
  | participant :: rest =>
      let+ participantData :=
        report autoSendInviteV4 comment createGroupResult participantData participant in
      reports autoSendInviteV4 comment createGroupResult participantData rest
  end.

(** The third loop. *)
Definition failures (participantData : gmap string value)
    (failedParticipants : list value) : gmap string value :=
  fold_left (fun data f => <[ToString f := not_registered]> data)
            failedParticipants participantData.

Definition createGroup (title : value) (participants : participants_arg)
    (options : value) : script value :=
  let participants :=
    match participants with
    | Omitted => []
    | Single x => [x]
    | Several xs => xs
    end in
  (* the value of [participants.map(...)] is not used *)
  let+ _ := lift (mapM (fun p => if Client.instanceof p Client.Contact
                                 then Client.id_serialized (snd p)
                                 else Normal (snd p)) participants) in
  let options := match options with VUndefined => VObj ∅ | _ => options end in
  let participants := List.map snd participants in
  let+ _ := lift (prop options "messageTimer") in
  let messageTimer := get_default options "messageTimer" (VNum (Num 0)) in
  let parentGroupId := get options "parentGroupId" in
  let autoSendInviteV4 := get_default options "autoSendInviteV4" (VBool true) in
  let comment := get_default options "comment" (VStr "") in
  let+ looked := lookup participants [] [] in
  let participantWids := fst looked in
  let failedParticipants := snd looked in
  let+ parentGroupWid :=
    (if ToBoolean parentGroupId
     then invoke page WPP_whatsapp_WidFactory_createWid [parentGroupId]
     else ret VUndefined) in
  let+ created :=
    try_catch
      (let+ createGroupResult :=
         invoke page WPP_whatsapp_functions_sendCreateGroup
           [title; VArr participantWids; messageTimer; parentGroupWid] in
       ret (Some createGroupResult))
      (fun err => ret None) in
  match created with
  | None =>
      ret (VStr "CreateGroupError: An unknown error occupied while creating a group")
  | Some createGroupResult =>
      let+ added := lift (prop createGroupResult "participants") in
      let+ added := lift (iterate added) in
      let+ participantData :=
        reports autoSendInviteV4 comment createGroupResult ∅ added in
      ret (VObj (list_to_map
                   [("title", title);
                    ("gid", get createGroupResult "wid");
                    ("participants",
                     VObj (failures participantData failedParticipants))]))
  end.

End CreateGroup.

End GroupCreation.

(** ** [window.WAJS.compareWwebVersions] ([Util/Injected.js]) *)

Module Versions.

Import Script.

(** [new class _ extends Error { constructor(m) { super(m);
      this.name = 'CompareWwebVersionsError'; } }(message)] *)
Definition CompareWwebVersionsError (message : string) : thrown :=
  Custom (VObj (list_to_map [("name", VStr "CompareWwebVersionsError");
                             ("message", VStr message)])).

(** [s.replace(/-beta$/, '')] *)
Definition strip_beta (s : string) : string :=
  if ends_with "-beta" s then substring 0 (String.length s - 5) s else s.

(** [s.replace(/\./g, '')] *)
Fixpoint strip_dots (s : string) : string :=
  match s with
  | EmptyString => EmptyString
  | String c s' =>
      if Ascii.eqb c "."%char then strip_dots s' else String c (strip_dots s')
  end.

(** How far the lengths of the operands are apart: the number of rounds
    left to the padding loop. *)
Definition gap (l r : string) : nat :=
  (String.length l - String.length r) + (String.length r - String.length l).

Definition inspect {A} (a : A) : {b | a = b} := exist _ a eq_refl.

(** [while (l.length !== r.length)
      l.length > r.length ? r = r.concat('0') : l = l.concat('0');] *)
Equations pad (l r : string) : string * string by wf (gap l r) lt :=
  pad l r with inspect (Nat.eqb (String.length l) (String.length r)) := {
    | exist _ true _ => (l, r)
    | exist _ false E with inspect (Nat.ltb (String.length r) (String.length l)) := {
        | exist _ true H => pad l (r ++ "0")
        | exist _ false H => pad (l ++ "0") r } }.
Next Obligation.
  apply Nat.ltb_lt in H. unfold gap.
  assert (Hlen : String.length (r ++ "0") = S (String.length r)).
  { clear. induction r as [|c r IH]; [reflexivity|].
    change (S (String.length (r ++ "0")) = S (S (String.length r))).
    rewrite IH. reflexivity. }
  rewrite Hlen. lia.
Qed.
Next Obligation.
  apply Nat.eqb_neq in E. apply Nat.ltb_ge in H. unfold gap.
  assert (Hlen : String.length (l ++ "0") = S (String.length l)).
  { clear. induction l as [|c l IH]; [reflexivity|].
    change (S (String.length (l ++ "0")) = S (S (String.length l))).
    rewrite IH. reflexivity. }
  rewrite Hlen. lia.
Qed.

(** [a >= b] on numbers. *)
Definition number_geb (a b : number) : bool :=
  match a, b with
  | Num x, Num y => (y <=? x)%Z
  | _, _ => false
  end.

Section Compare.

(** [Number(s)] for a string [s], as the engine computes it. *)
Variable Number : string -> number.

Definition compareWwebVersions (lOperand operator rOperand : value) : answer value :=
  if negb (existsb (same_value_zero operator)
             [VStr ">"; VStr ">="; VStr "<"; VStr "<="; VStr "="])
  then Thrown (CompareWwebVersionsError "Invalid comparison operator is provided")
  else
    match lOperand, rOperand with
    | VStr l, VStr r =>
        let l := strip_beta l in
        let r := strip_beta r in
        let padded := pad l r in
        let l := Number (strip_dots (fst padded)) in
        let r := Number (strip_dots (snd padded)) in
        Returned
          (VBool
             (if strict_eq operator (VStr ">") then number_gtb l r
              else if strict_eq operator (VStr ">=") then number_geb l r
              else if strict_eq operator (VStr "<") then number_gtb r l
              else if strict_eq operator (VStr "<=") then number_geb r l
              else if strict_eq operator (VStr "=") then number_eqb l r
              else false))
    | _, _ =>
        Thrown (CompareWwebVersionsError "A non-string WWeb version type is provided")
    end.

End Compare.

End Versions.

(** * Vocabulary of the properties *)

Import Client GroupChat.

(** ** Predicates on snapshots, states and traces *)

(** The poll branch of [_patch] is taken exactly for this type. *)
Definition is_poll (MT : MessageTypesT) (data : value) : bool :=
  strict_eq (get data "type") (VStr (POLL_CREATION MT)).

(** A snapshot field is present when it holds a truthy value: an absent
    field ([undefined]), [null] and the empty string are not present. *)
Definition present (v : value) : Prop := ToBoolean v = true.

(** The explicit status flag is a boolean, or is missing. *)
Definition boolean_or_missing (v : value) : Prop :=
  v = VUndefined \/ v = VNull \/ exists b, v = VBool b.

(** The snapshot fields removed by the poll branch of [_patch]. *)
Definition poll_fields : list string :=
  ["pollName"; "pollOptions"; "pollSelectableOptionsCount";
   "pollInvalidated"; "isSentCagPollCreation"].

Definition revoked_event (m : Message.t) (previous : arg) : action :=
  Emit MESSAGE_REVOKED_EVERYONE [ArgMessage m; previous].

(** The two tests of [onChangeMessageEvent]. *)
Definition isParticipant (msg : value) : bool :=
  strict_eq (get msg "type") (VStr "gp2")
  && strict_eq (get msg "subtype") (VStr "modify").

Definition isContact (msg : value) : bool :=
  strict_eq (get msg "type") (VStr "notification_template")
  && strict_eq (get msg "subtype") (VStr "change_number").

(** The captured variables after the first statement of
    [onChangeMessageEvent]. *)
Definition remember (msg : value) (st : locals) : locals :=
  if negb (strict_eq (get msg "type") (VStr "revoked"))
  then {| qrRetries := qrRetries st; last_message := msg |}
  else st.

Definition contact_changed (m : Message.t) (oldId newId : value) (c : bool) : action :=
  Emit CONTACT_CHANGED [ArgMessage m; ArgValue oldId; ArgValue newId; ArgValue (VBool c)].

(** [oldId] is the first element of [params] that is not [newId], or
    [undefined] when there is none. *)
Definition first_other (params : list value) (newId oldId : value) : Prop :=
  (exists pre post,
      params = pre ++ oldId :: post
      /\ strict_eq oldId newId = false
      /\ Forall (fun id => strict_eq id newId = true) pre)
  \/ (oldId = VUndefined /\ Forall (fun id => strict_eq id newId = true) params).

(** The states that do not end the session. *)
Definition allow_list (W : WAStateT) (opts : options) : list string :=
  [CONNECTED W; OPENING W; PAIRING W; TIMEOUT W]
  ++ (if ToBoolean (takeoverOnConflict opts) then [CONFLICT W] else []).

Definition allowed (W : WAStateT) (opts : options) (state : value) : Prop :=
  exists s : string, In s (allow_list W opts) /\ state = VStr s.

Definition is_disconnected (a : action) : bool :=
  match a with
  | Emit DISCONNECTED _ => true
  | _ => false
  end.

Definition qr_event (qr : value) : action := Emit QR_RECEIVED [ArgValue qr].

(** Every action of a program satisfies [P], whatever the page answers. *)
Definition always (P : action -> Prop) {A} (h : program A) : Prop :=
  forall st, Forall P (trace (h st)).

Definition is_media_status (a : action) : bool :=
  match a with
  | Call (status_sendImageStatus _ _) | Call (status_sendVideoStatus _ _) => true
  | _ => false
  end.

(** The only add attempt [a] can be is the one for [p] alone. *)
Definition adds_only (groupId p : value) (a : action) : Prop :=
  forall g ps, a = Call (group_addParticipants g ps) -> g = groupId /\ ps = [p].

Definition no_sleep (a : action) : Prop := forall ms, a <> Sleep ms.

(** ** Concrete inputs

    Instances of the constant tables and a few snapshots, used to run the
    embedding. *)

Definition sample_types : MessageTypesT :=
  {| LOCATION := "location"; CONTACT_CARD := "vcard";
     CONTACT_CARD_MULTI := "multi_vcard"; GROUP_INVITE := "groups_v4_invite";
     POLL_CREATION := "poll_creation" |}.

Definition sample_states : WAStateT :=
  {| CONFLICT := "CONFLICT"; CONNECTED := "CONNECTED"; OPENING := "OPENING";
     PAIRING := "PAIRING"; TIMEOUT := "TIMEOUT" |}.

Definition sample_options : options :=
  {| qrMaxRetries := Num 3;
     takeoverOnConflict := VBool false;
     takeoverTimeoutMs := VNum (Num 0) |}.

(** An object literal. *)
Definition obj (l : list (string * value)) : value := VObj (list_to_map l).

Definition message_id (id : string) (fromMe : bool) (remote : string) : value :=
  obj [("id", VStr id); ("fromMe", VBool fromMe); ("remote", VStr remote)].

Definition image_snapshot : value :=
  obj [("id", message_id "3A01" false "status@broadcast");
       ("type", VStr "image"); ("mediaKey", VStr "k");
       ("directPath", VStr "/v/p")].

Definition poll_snapshot : value :=
  obj [("id", message_id "3A02" true "1@c.us");
       ("type", VStr "poll_creation"); ("pollName", VStr "Lunch?");
       ("pollOptions", VArr [VStr "yes"; VStr "no"])].

Definition chat_snapshot : value :=
  obj [("id", message_id "3A03" false "1@c.us");
       ("type", VStr "chat"); ("body", VStr "hello")].

Definition revoked_snapshot : value :=
  obj [("id", message_id "3A03" false "1@c.us"); ("type", VStr "revoked")].

Definition other_revoked_snapshot : value :=
  obj [("id", message_id "3A04" false "1@c.us"); ("type", VStr "revoked")].

Definition participant_payload : value :=
  obj [("id", message_id "3A05" false "5@g.us");
       ("type", VStr "gp2"); ("subtype", VStr "modify");
       ("author", VStr "old@c.us"); ("recipients", VArr [VStr "new@c.us"])].

Definition template_payload : value :=
  obj [("id", message_id "3A06" false "old@c.us");
       ("type", VStr "notification_template"); ("subtype", VStr "change_number");
       ("to", VStr "new@c.us");
       ("templateParams", VArr [VStr "new@c.us"; VStr "old@c.us"])].

(** A page on which every request succeeds: adding [p] answers
    [{ [p]: { code: 200, message: 'OK' } }], a status post answers the id of
    the stored message, [serialize] answers a text snapshot. *)
Definition sample_page (c : call) : completion value :=
  match c with
  | group_addParticipants _ [p] =>
      Normal (obj [(ToString p, obj [("code", VNum (Num 200));
                                     ("message", VStr "OK")])])
  | status_sendTextStatus _ _
  | status_sendImageStatus _ _
  | status_sendVideoStatus _ _ => Normal (obj [("id", VStr "3A07")])
  | serialize _ =>
      Normal (obj [("id", message_id "3A07" true "status@broadcast");
                   ("type", VStr "chat")])
  | _ => Normal (VObj ∅)
  end.

Definition image_media : value :=
  obj [("mimetype", VStr "image/png"); ("data", VStr "iVBORw0KGgo=")].

(** * Further vocabulary *)

(** Neither [undefined] nor [null]: a value whose properties can be read. *)
Definition defined (v : value) : Prop := v <> VUndefined /\ v <> VNull.

(** An object or an array: a right operand accepted by [in]. *)
Definition is_object (v : value) : Prop :=
  (exists o, v = VObj o) \/ (exists xs, v = VArr xs).

(** The snapshots from which [new Message] can be built. *)
Definition constructible (MT : MessageTypesT) (data : value) : Prop :=
  defined (get data "id")
  /\ (get data "type" = VStr (CONTACT_CARD_MULTI MT) ->
      exists cs, get data "vcardList" = VArr cs /\ Forall defined cs)
  /\ (get data "type" = VStr (GROUP_INVITE MT) ->
      is_object (get data "from") /\ is_object (get data "to"))
  /\ (ToBoolean (get data "listResponse") = true ->
      defined (get (get data "listResponse") "singleSelectReply")).

(** The snapshots from which [new GroupNotification] can be built. *)
Definition notifiable (data : value) : Prop :=
  defined (get data "id")
  /\ get (get data "id") "remote" <> VNull
  /\ get data "author" <> VNull.

Definition is_boolean (v : value) : Prop := exists b, v = VBool b.
Definition is_array (v : value) : Prop := exists xs, v = VArr xs.

Import Listeners.

(** The states, among those reported in [xs], that end the session. *)
Fixpoint rejected_states (W : WAStateT) (opts : options) (xs : list exposed)
  : list value :=
  match xs with
  | [] => []
  | AppStateChangedEvent state :: xs' =>
      if includes (allow_list W opts) state then rejected_states W opts xs'
      else state :: rejected_states W opts xs'
  | _ :: xs' => rejected_states W opts xs'
  end.

Definition is_destroy (a : action) : bool :=
  match a with
  | Destroy => true
  | _ => false
  end.

(** The five events a group notification can be emitted as. *)
Definition group_events : list Events :=
  [GROUP_JOIN; GROUP_LEAVE; GROUP_ADMIN_CHANGED; GROUP_MEMBERSHIP_REQUEST;
   GROUP_UPDATE].

(** A program that leaves the captured variables as they are. *)
Definition frame {A} (h : program A) : Prop := forall st, final (h st) = st.

Import MessageMethods.

(** The properties that [sendMessage] may add to its internal options when
    it looks at the content. *)
Definition buckets : list string :=
  ["attachment"; "location"; "poll"; "contactCard"; "contactCardList"].

Definition dispatch_keys : list string :=
  ["attachment"; "isViewOnce"; "caption"; "location"; "poll"; "contactCard";
   "contactCardList"].

(** The options carried by a call that submits something to the page. *)
Definition submitted_options (c : call) : option value :=
  match c with
  | WAJS_sendMessage _ _ options _
  | status_sendTextStatus _ options
  | status_sendImageStatus _ options
  | status_sendVideoStatus _ options => Some options
  | _ => None
  end.

Definition is_submission (a : action) : bool :=
  match a with
  | Call c => bool_decide (is_Some (submitted_options c))
  | _ => false
  end.

Definition is_invite (a : action) : bool :=
  match a with
  | Call (ChatModel_sendGroupInviteMessage _ _ _ _ _ _ _) => true
  | _ => false
  end.

Definition is_add (a : action) : bool :=
  match a with
  | Call (group_addParticipants _ _) => true
  | _ => false
  end.

(** Every submission made by [a] carries options that satisfy [Q]. *)
Definition submits (Q : value -> Prop) (a : action) : Prop :=
  forall c o, a = Call c -> submitted_options c = Some o -> Q o.

(** The kinds of payload present in the options of a submission. *)
Definition kinds (options : value) : list string :=
  match options with
  | VObj o => List.filter (fun k => bool_decide (is_Some (o !! k))) buckets
  | _ => []
  end.

(** [typeof options.sendSeen === 'undefined' ? true : options.sendSeen] *)
Definition effective_sendSeen (options : MessageSendOptions) : value :=
  if String.eqb (typeof (sendSeen options)) "undefined"
  then VBool true else sendSeen options.

Definition is_sendSeen (a : action) : bool :=
  match a with
  | Call (functions_sendSeen _) => true
  | _ => false
  end.

Definition is_sticker_conversion (a : action) : bool :=
  match a with
  | Call (Util_formatToWebpSticker _ _) => true
  | _ => false
  end.

Definition is_gadd (a : action) : bool :=
  match a with
  | Call (ContactStore_gadd _) => true
  | _ => false
  end.

(** [undefined] stands for the default [{}] of the [options] parameter. *)
Definition options_or_default (options : value) : value :=
  match options with VUndefined => VObj ∅ | _ => options end.

(** The captured variables never hold a revoked snapshot. *)
Definition slot_not_revoked (st : locals) : Prop :=
  get (last_message st) "type" <> VStr "revoked".

(** The counter of QR codes as [initialize] leaves it, or after [++] on
    that. *)
Definition counter_unset (st : locals) : Prop :=
  qrRetries st = None \/ qrRetries st = Some NaN.

Definition quiet (a : action) : Prop := is_disconnected a = false /\ is_destroy a = false.

(** The object literal that opens [sendMessage]. *)
Definition internal_options (options : MessageSendOptions) (mentioned : value)
  : gmap string value :=
  list_to_map
    [("linkPreview", if strict_eq (linkPreview options) (VBool false)
                     then VUndefined else VBool true);
     ("sendAudioAsVoice", sendAudioAsVoice options);
     ("sendVideoAsGif", sendVideoAsGif options);
     ("sendMediaAsSticker", sendMediaAsSticker options);
     ("sendMediaAsDocument", sendMediaAsDocument options);
     ("caption", caption options);
     ("quotedMessageId", quotedMessageId options);
     ("parseVCards", if strict_eq (parseVCards options) (VBool false)
                     then VBool false else VBool true);
     ("mentionedJidList", mentioned);
     ("extraOptions", extra options);
     ("messageId", messageId options)].

(** Every chat id resolved by [a] is [chatId]. *)
Definition targets (chatId : value) (a : action) : Prop :=
  forall x, a = Call (WidFactory_createWid x) -> x = chatId.

(** ** Further concrete inputs *)

Definition join_payload : value :=
  obj [("id", message_id "3A08" false "5@g.us");
       ("type", VStr "gp2"); ("subtype", VStr "add");
       ("author", VStr "admin@c.us"); ("recipients", VArr [VStr "new@c.us"])].

(** ** Vocabulary for the methods whose failures are inspected *)

(** The failure that the setters of a group turn into [false]. *)
Definition refused (x : Script.thrown) : Prop :=
  Script.name_of x = Normal (VStr "ServerStatusCodeError").

(** The four setters of [GroupChat] that answer a boolean. *)
Definition setters (page : Script.callee -> list value -> Script.answer value)
  : list (GroupSettings.t -> value -> Script.script (value * GroupSettings.t)) :=
  [GroupSettings.setSubject page; GroupSettings.setDescription page;
   GroupSettings.setMessagesAdminsOnly page; GroupSettings.setInfoAdminsOnly page].

Definition sample_group : GroupSettings.t :=
  {| GroupSettings.id := obj [("_serialized", VStr "5@g.us")];
     GroupSettings.name := VStr "Lunch";
     GroupSettings.groupMetadata := obj [("desc", VStr "where to eat")] |}.

(** A page that refuses every change for lack of permission. *)
Definition refusing_page (f : Script.callee) (args : list value)
  : Script.answer value :=
  Script.Thrown (Script.Custom (obj [("name", VStr "ServerStatusCodeError");
                                     ("status", VNum (Num 403))])).

(** A page that accepts everything. *)
Definition accepting_page (f : Script.callee) (args : list value)
  : Script.answer value :=
  Script.Returned VUndefined.


(** The operators accepted by [compareWwebVersions]. *)
Definition operators : list value :=
  [VStr ">"; VStr ">="; VStr "<"; VStr "<="; VStr "="].

(** [n] characters ['0']. *)
Fixpoint zeros (n : nat) : string :=
  match n with
  | 0 => ""
  | S n' => String "0" (zeros n')
  end.

Definition is_NaN (n : number) : bool :=
  match n with
  | NaN => true
  | Num _ => false
  end.

(** A page that answers every call with a text snapshot. *)
Definition echo_page (f : Script.callee) (args : list value) : Script.answer value :=
  Script.Returned chat_snapshot.


(** [Number] on a string of decimal digits; [NaN] on any other string of
    this instance. *)
Fixpoint decimal_from (acc : Z) (s : string) : number :=
  match s with
  | EmptyString => Num acc
  | String c s' =>
      let d := (Z.of_N (N_of_ascii c) - 48)%Z in
      if ((0 <=? d) && (d <=? 9))%Z then decimal_from (10 * acc + d) s' else NaN
  end.

Definition decimal : string -> number := decimal_from 0.

(** The page knows [w] as a registered user. *)
Definition registered (page : Script.callee -> list value -> Script.answer value)
    (w : value) : Prop :=
  exists found,
    page Script.WPP_contact_queryExists [w] = Script.Returned found
    /\ ToBoolean (GroupCreation.optional_prop found "wid") = true.

(** The participants as the page receives them. *)
Definition given (participants : GroupCreation.participants_arg) : list value :=
  match participants with
  | GroupCreation.Omitted => []
  | GroupCreation.Single x => [snd x]
  | GroupCreation.Several xs => List.map snd xs
  end.

Definition creation_error : value :=
  VStr "CreateGroupError: An unknown error occupied while creating a group".

(** A page that knows one user, and on which no group can be created. *)
Definition creating_page (f : Script.callee) (args : list value) : Script.answer value :=
  match f, args with
  | Script.WPP_whatsapp_WidFactory_createWid, [a] => Script.Returned a
  | Script.WPP_contact_queryExists, [VStr "1@c.us"] =>
      Script.Returned (obj [("wid", VStr "1@c.us")])
  | Script.WPP_contact_queryExists, _ => Script.Returned VNull
  | Script.WPP_whatsapp_functions_sendCreateGroup, _ =>
      Script.Thrown (Script.Raised (Error "timeout"))
  | _, _ => Script.Returned VUndefined
  end.

Definition is_takeover (a : action) : bool :=
  match a with
  | SetTimeoutTakeover _ => true
  | _ => false
  end.

(** A snapshot without [id]. *)
Definition anonymous_snapshot : value := obj [("type", VStr "chat")].

(** A notification whose author is [null]. *)
Definition orphan_payload : value :=
  obj [("id", message_id "3A09" false "5@g.us");
       ("type", VStr "gp2"); ("subtype", VStr "leave"); ("author", VNull)].

(** A message that this account removed for itself. *)
Definition removed_snapshot : value :=
  obj [("id", message_id "3A0A" true "1@c.us");
       ("type", VStr "chat"); ("isNewMsg", VBool true)].

(** The sticker converter fails; every request of the page succeeds. *)
Definition failing_converter (c : call) : completion value :=
  match c with
  | Util_formatToWebpSticker _ _ => Throw (Error "conversion failed")
  | _ => sample_page c
  end.

(** [{ sendMediaAsSticker: true }] *)
Definition sticker_options : MessageSendOptions :=
  let u := VUndefined in
  Build_MessageSendOptions u u u (VBool true) u u u u u u u u u u u (One (None, u)) u u.

(** [{ takeoverOnConflict: true, takeoverTimeoutMs: 5000 }] *)
Definition takeover_options : options :=
  {| qrMaxRetries := Num 0;
     takeoverOnConflict := VBool true;
     takeoverTimeoutMs := VNum (Num 5000) |}.

(** * Properties *)

(** ** Generic facts about values and completions *)

Lemma strict_eq_VStr (v : value) (s : string) :
  strict_eq v (VStr s) = true <-> v = VStr s.
Proof.
  destruct v; simpl; try (split; [discriminate | intros H; discriminate H]).
  rewrite String.eqb_eq. split; [intros ->; reflexivity | intros H; injection H; auto].
Qed.

Lemma bind_Normal {A B} (c : completion A) (k : A -> completion B) (b : B) :
  JS.bind c k = Normal b -> exists a, c = Normal a /\ k a = Normal b.
Proof. destruct c as [a|e]; simpl; [eauto | discriminate]. Qed.

Lemma prop_Normal (v : value) (k : string) (r : value) :
  prop v k = Normal r -> r = get v k /\ v <> VUndefined /\ v <> VNull.
Proof. destruct v; simpl; intros H; inversion H; repeat split; discriminate. Qed.

Lemma prop_defined (v : value) (k : string) :
  v <> VUndefined -> v <> VNull -> prop v k = Normal (get v k).
Proof. destruct v; simpl; congruence. Qed.

(** ** What [_patch] computes *)

Section MessageFacts.

Variable MT : MessageTypesT.

Lemma patch_fields_inv (data : value) (m : Message.t) :
  Message.patch_fields MT data = Normal m ->
  Message.hasMedia m
    = VBool (ToBoolean (get data "mediaKey") && ToBoolean (get data "directPath"))
  /\ Message.isStatus m
     = or (get data "isStatusV3")
          (VBool (strict_eq (get (get data "id") "remote") (VStr "status@broadcast")))
  /\ Message._data m
     = (if is_poll MT data then Message.delete_poll_fields data else data)
  /\ Message.id m = get data "id"
  /\ Message.fromMe m = get (get data "id") "fromMe"
  /\ get data "id" <> VUndefined /\ get data "id" <> VNull.
Proof.
  unfold Message.patch_fields. intros H.
  apply bind_Normal in H as (i & Hi & H).
  apply bind_Normal in H as (vc & _ & H).
  apply bind_Normal in H as (inv & _ & H).
  apply bind_Normal in H as (row & _ & H).
  apply prop_Normal in Hi as (_ & Hu & Hn).
  inversion H; subst m; clear H; simpl.
  repeat split; auto.
  unfold JS.and. destruct (ToBoolean (get data "mediaKey")) eqn:E; simpl; auto.
  rewrite E. reflexivity.
Qed.

Lemma new_truthy_inv (data : value) (m : Message.t) :
  Message.new MT data = Normal m -> ToBoolean data = true ->
  Message.patch_fields MT data = Normal m.
Proof.
  unfold Message.new, Message._patch. intros H Ht. rewrite Ht in H.
  destruct data; try exact H; discriminate.
Qed.

Lemma new_falsy (data : value) :
  ToBoolean data = false -> Message.new MT data = Normal Message.unpatched.
Proof. unfold Message.new. intros ->. reflexivity. Qed.

Lemma get_falsy (data : value) (k : string) :
  ToBoolean data = false -> get data k = VUndefined.
Proof. destruct data; simpl; try reflexivity; discriminate. Qed.

(** Construction succeeds on an ordinary snapshot: an object with an [id]
    that is neither a multi-contact card nor a group invitation and that
    carries no list response. *)
Lemma new_succeeds (o : gmap string value) :
  get (VObj o) "id" <> VUndefined ->
  get (VObj o) "id" <> VNull ->
  get (VObj o) "type" <> VStr (CONTACT_CARD_MULTI MT) ->
  get (VObj o) "type" <> VStr (GROUP_INVITE MT) ->
  ToBoolean (get (VObj o) "listResponse") = false ->
  exists m, Message.new MT (VObj o) = Normal m.
Proof.
  intros Hu Hn Hmulti Hinvite Hlist.
  assert (Hne : forall v s, v <> VStr s -> strict_eq v (VStr s) = false).
  { intros v s H. destruct (strict_eq v (VStr s)) eqn:E; [|reflexivity].
    apply strict_eq_VStr in E. contradiction. }
  unfold Message.new, Message._patch, Message.patch_fields.
  cbn [ToBoolean].
  rewrite (prop_defined _ "id" Hu Hn). cbn [JS.bind].
  unfold Message.vCards_of. rewrite (Hne _ _ Hmulti).
  unfold Message.inviteV4_of. rewrite (Hne _ _ Hinvite).
  unfold Message.selectedRowId_of. rewrite Hlist.
  destruct (strict_eq (get (VObj o) "type") (VStr (CONTACT_CARD MT)));
    cbn [JS.bind]; eexists; reflexivity.
Qed.

End MessageFacts.

(** ** Derived flags of a message *)

(** What "present" means for the three kinds of field contents. *)
Lemma present_cases :
  ~ present VUndefined /\ ~ present VNull
  /\ forall s, present (VStr s) <-> s <> "".
Proof.
  unfold present. simpl. split; [discriminate|]. split; [discriminate|].
  intros s. rewrite negb_true_iff. apply String.eqb_neq.
Qed.

(** C7.  For every raw snapshot from which a message is constructed:
    [hasMedia] is [true] exactly when both [mediaKey] and [directPath] are
    present, whatever the combination of present, absent and null;
    [isStatus] is truthy exactly when the [isStatusV3] flag is set or
    [id.remote] is the status broadcast channel ['status@broadcast'], and,
    the flag being a boolean or missing, [isStatus] is then the boolean
    [true]. *)
Theorem C7_hasMedia_isStatus (MT : MessageTypesT) (data : value) (m : Message.t) :
  Message.new MT data = Normal m ->
  (Message.hasMedia m = VBool true
   <-> present (get data "mediaKey") /\ present (get data "directPath"))
  /\ (ToBoolean (Message.isStatus m) = true
      <-> present (get data "isStatusV3")
          \/ get (get data "id") "remote" = VStr "status@broadcast")
  /\ (boolean_or_missing (get data "isStatusV3") ->
      (Message.isStatus m = VBool true
       <-> get data "isStatusV3" = VBool true
           \/ get (get data "id") "remote" = VStr "status@broadcast")).
Proof.
  intros Hnew. unfold present.
  destruct (ToBoolean data) eqn:Ht.
  - apply new_truthy_inv in Hnew; auto.
    apply patch_fields_inv in Hnew as (Hm & Hs & _).
    rewrite Hm, Hs. clear Hm Hs.
    set (flag := get data "isStatusV3").
    set (remote := get (get data "id") "remote").
    pose proof (strict_eq_VStr remote "status@broadcast") as Hr.
    split; [|split].
    + split.
      * intros H. injection H as H. apply andb_true_iff in H. exact H.
      * intros [-> ->]. reflexivity.
    + unfold JS.or. destruct (ToBoolean flag) eqn:Ef.
      * rewrite Ef. split; auto.
      * simpl. rewrite <- Hr. split; [auto | intros [H|H]; [discriminate | exact H]].
    + intros [Hf | [Hf | [b Hf]]]; rewrite Hf; unfold JS.or; simpl.
      * rewrite <- Hr. split.
        -- intros H; injection H; auto.
        -- intros [H|H]; [discriminate | rewrite H; reflexivity].
      * rewrite <- Hr. split.
        -- intros H; injection H; auto.
        -- intros [H|H]; [discriminate | rewrite H; reflexivity].
      * destruct b; simpl.
        -- split; auto.
        -- rewrite <- Hr. split.
           ++ intros H; injection H; auto.
           ++ intros [H|H]; [discriminate | rewrite H; reflexivity].
  - rewrite new_falsy in Hnew by exact Ht.
    injection Hnew as <-. simpl.
    rewrite !(get_falsy data) by exact Ht. simpl.
    split; [|split].
    + split; [discriminate | intros [H _]; discriminate].
    + split; [discriminate | intros [H|H]; discriminate].
    + intros _. split; [discriminate | intros [H|H]; discriminate].
Qed.

(** ** Raw data of a message *)

Lemma C7_hasMedia_isStatus_witness :
  exists m, Message.new sample_types image_snapshot = Normal m
            /\ Message.hasMedia m = VBool true
            /\ Message.isStatus m = VBool true.
Proof.
  eexists. split; [vm_compute; reflexivity|].
  pose proof (C7_hasMedia_isStatus sample_types image_snapshot _
                ltac:(vm_compute; reflexivity)) as (Hm & _ & Hs).
  split.
  - apply Hm. split; vm_compute; reflexivity.
  - apply Hs; [left | right]; vm_compute; reflexivity.
Defined.

(** C8, as stated, fails: the message built from a poll-creation snapshot
    has lost [pollName] in its raw data. *)
Lemma C8_rawData_counterexample :
  exists m, Message.new sample_types poll_snapshot = Normal m
            /\ get poll_snapshot "pollName" = VStr "Lunch?"
            /\ get (Message.rawData m) "pollName" = VUndefined
            /\ Message.rawData m <> poll_snapshot.
Proof.
  eexists. split; [vm_compute; reflexivity|].
  split; [reflexivity|]. split; [reflexivity|].
  intros H. apply (f_equal (fun v => get v "pollName")) in H.
  vm_compute in H. discriminate H.
Qed.

(** C8 (amended).  For every snapshot object from which a message is
    constructed, the raw data is again an object; when the type is not the
    poll-creation type it is the original snapshot, unchanged; when it is,
    the raw data is the snapshot without the five poll fields, every other
    field being unchanged. *)
Theorem C8_rawData (MT : MessageTypesT) (o : gmap string value) (m : Message.t) :
  Message.new MT (VObj o) = Normal m ->
  exists o' : gmap string value,
    Message.rawData m = VObj o'
    /\ (is_poll MT (VObj o) = false -> o' = o)
    /\ (is_poll MT (VObj o) = true ->
        forall k : string,
          o' !! k = if bool_decide (k ∈ poll_fields) then None else o !! k).
Proof.
  intros Hnew. apply new_truthy_inv in Hnew; [|reflexivity].
  apply patch_fields_inv in Hnew as (_ & _ & Hd & _).
  unfold Message.rawData. rewrite Hd. clear Hd.
  destruct (is_poll MT (VObj o)).
  - eexists. split; [reflexivity|]. split; [discriminate|].
    intros _ k. rewrite !lookup_delete. unfold poll_fields.
    repeat (destruct (decide (_ = k)) as [<-|?]; [reflexivity|]).
    rewrite bool_decide_eq_false_2; [reflexivity|].
    rewrite !elem_of_cons, elem_of_nil. intuition congruence.
  - exists o. split; [reflexivity|]. split; [reflexivity | discriminate].
Qed.

Lemma C8_rawData_witness :
  exists m, Message.new sample_types image_snapshot = Normal m
            /\ Message.rawData m = image_snapshot.
Proof.
  assert (exists m, Message.new sample_types image_snapshot = Normal m)
    as [m Hm] by (eexists; vm_compute; reflexivity).
  exists m. split; [exact Hm|].
  destruct (C8_rawData sample_types _ m Hm) as (o' & Hr & Hsame & _).
  rewrite Hr, Hsame; [reflexivity | vm_compute; reflexivity].
Defined.

(** ** Equations of the program monad *)

Lemma outcome_eta {A} (o : outcome A) :
  {| final := final o; trace := trace o; result := result o |} = o.
Proof. destruct o; reflexivity. Qed.

Lemma seq_lift_Normal {A B} (c : completion A) (a : A) (k : A -> program B) st :
  c = Normal a -> seq (lift c) k st = k a st.
Proof. intros ->. unfold seq, lift. simpl. apply outcome_eta. Qed.

Lemma seq_lift_Throw {A B} (c : completion A) e (k : A -> program B) st :
  c = Throw e ->
  seq (lift c) k st = {| final := st; trace := []; result := Throw e |}.
Proof. intros ->. reflexivity. Qed.

Lemma seq_perform {B} (a : action) (k : unit -> program B) st :
  seq (perform a) k st = after a (k tt st).
Proof. reflexivity. Qed.

Lemma seq_emit {B} (e : Events) (args : list arg) (k : unit -> program B) st :
  seq (emit e args) k st = after (Emit e args) (k tt st).
Proof. reflexivity. Qed.

Lemma seq_read {B} (k : locals -> program B) st :
  seq read k st = k st st.
Proof. unfold seq, read. simpl. apply outcome_eta. Qed.

Lemma seq_write {B} (st' : locals) (k : unit -> program B) st :
  seq (write st') k st = k tt st'.
Proof. unfold seq, write. simpl. apply outcome_eta. Qed.

Lemma seq_ret {A B} (a : A) (k : A -> program B) st :
  seq (ret a) k st = k a st.
Proof. unfold seq, ret. simpl. apply outcome_eta. Qed.

Lemma seq_assoc {A B C} (h : program A) (k : A -> program B) (k' : B -> program C) st :
  seq (seq h k) k' st = seq h (fun a => seq (k a) k') st.
Proof.
  unfold seq. destruct (h st) as [f t [a|e]]; simpl; [|reflexivity].
  destruct (k a f) as [f' t' [b|e']]; simpl; [|reflexivity].
  rewrite app_assoc. reflexivity.
Qed.

#[local] Arguments seq : simpl never.


#[local] Arguments get : simpl never.

Lemma strict_eq_VStr_false (v : value) (s : string) :
  v <> VStr s -> strict_eq v (VStr s) = false.
Proof.
  intros H. destruct (strict_eq v (VStr s)) eqn:E; [|reflexivity].
  apply strict_eq_VStr in E. contradiction.
Qed.

Lemma onAddMessageEvent_message (MT : MessageTypesT) (msg : value) (m : Message.t) st :
  ToBoolean msg = true ->
  get msg "type" <> VStr "gp2" ->
  Message.new MT msg = Normal m ->
  onAddMessageEvent MT msg st
  = {| final := st;
       trace := Emit MESSAGE_CREATE [ArgMessage m]
                :: (if ToBoolean (get (get msg "id") "fromMe") then []
                    else [Emit MESSAGE_RECEIVED [ArgMessage m]]);
       result := Normal tt |}.
Proof.
  intros Ht Hty Hnew.
  pose proof (new_truthy_inv MT _ _ Hnew Ht) as Hp.
  apply patch_fields_inv in Hp as (_ & _ & _ & _ & _ & Hu & Hn).
  unfold onAddMessageEvent.
  assert (Hm : msg <> VUndefined /\ msg <> VNull).
  { split; intros ->; discriminate Ht. }
  rewrite (seq_lift_Normal _ _ _ _ (prop_defined msg "type" (proj1 Hm) (proj2 Hm))).
  rewrite (strict_eq_VStr_false _ _ Hty).
  rewrite (seq_lift_Normal _ m) by exact Hnew.
  rewrite seq_emit.
  rewrite (seq_lift_Normal _ _ _ _ (prop_defined _ "fromMe" Hu Hn)).
  destruct (ToBoolean (get (get msg "id") "fromMe")); reflexivity.
Qed.

Theorem C5_create_then_received
    (MT : MessageTypesT) (o : gmap string value) (m : Message.t) (st : locals) :
  get (VObj o) "type" <> VStr "gp2" ->
  Message.new MT (VObj o) = Normal m ->
  let msg := VObj o in
  let out := onAddMessageEvent MT msg st in
  let created := Emit MESSAGE_CREATE [ArgMessage m] in
  let received := Emit MESSAGE_RECEIVED [ArgMessage m] in
  result out = Normal tt
  /\ trace out
     = created :: (if ToBoolean (get (get msg "id") "fromMe") then [] else [received])
  /\ In created (trace out)
  /\ (In received (trace out) <-> ToBoolean (get (get msg "id") "fromMe") = false)
  /\ (forall pre post, trace out = pre ++ received :: post -> In created pre).
Proof.
  intros Hty Hnew msg out created received.
  subst out. rewrite (onAddMessageEvent_message MT msg m st eq_refl Hty Hnew).
  cbn [result trace].
  split; [reflexivity|]. split; [reflexivity|]. split; [left; reflexivity|].
  destruct (ToBoolean (get (get msg "id") "fromMe")); split.
  - split; [|discriminate]. intros [H|[]]. discriminate H.
  - intros [|a pre] post H; simpl in H; [discriminate H|].
    injection H as _ H. destruct pre; discriminate H.
  - split; [reflexivity|]. intros _. right. left. reflexivity.
  - intros [|a pre] post H; simpl in H; [discriminate H|].
    injection H as <- _. left. reflexivity.
Qed.

(** ** Revocation correlation *)

Lemma truthy_defined (v : value) :
  ToBoolean v = true -> v <> VUndefined /\ v <> VNull.
Proof. intros H. split; intros ->; discriminate H. Qed.

Lemma get_VStr_truthy (v : value) (k s : string) :
  get v k = VStr s -> ToBoolean v = true.
Proof. destruct v; simpl; try discriminate; reflexivity. Qed.

Lemma new_id_defined (MT : MessageTypesT) (v : value) (m : Message.t) :
  ToBoolean v = true -> Message.new MT v = Normal m ->
  get v "id" <> VUndefined /\ get v "id" <> VNull.
Proof.
  intros Ht Hnew. apply new_truthy_inv in Hnew; [|exact Ht].
  apply patch_fields_inv in Hnew as (_ & _ & _ & _ & _ & Hu & Hn). auto.
Qed.

Section Revocation.

Variable MT : MessageTypesT.

Lemma onChangeMessageTypeEvent_same_id (msg : value) (m rm : Message.t) st :
  get msg "type" = VStr "revoked" ->
  Message.new MT msg = Normal m ->
  ToBoolean (last_message st) = true ->
  strict_eq (get (get msg "id") "id") (get (get (last_message st) "id") "id") = true ->
  Message.new MT (last_message st) = Normal rm ->
  onChangeMessageTypeEvent MT msg st
  = {| final := {| qrRetries := qrRetries st; last_message := Message._data rm |};
       trace := [revoked_event m (ArgMessage rm)];
       result := Normal tt |}.
Proof.
  intros Hty Hnew Hslot Hid Hrm.
  pose proof (get_VStr_truthy _ _ _ Hty) as Ht.
  destruct (truthy_defined _ Ht) as [Hu Hn].
  destruct (new_id_defined MT _ _ Ht Hnew) as [Hiu Hin].
  destruct (new_id_defined MT _ _ Hslot Hrm) as [Hlu Hln].
  unfold onChangeMessageTypeEvent.
  rewrite (seq_lift_Normal _ _ _ _ (prop_defined msg "type" Hu Hn)).
  rewrite Hty. change (strict_eq (VStr "revoked") (VStr "revoked")) with true. cbv iota.
  rewrite (seq_lift_Normal _ m) by exact Hnew.
  rewrite seq_read. rewrite Hslot. cbv iota.
  rewrite !seq_assoc.
  rewrite (seq_lift_Normal _ _ _ _ (prop_defined _ "id" Hiu Hin)).
  rewrite seq_assoc.
  rewrite (seq_lift_Normal _ _ _ _ (prop_defined _ "id" Hlu Hln)).
  rewrite Hid. cbv iota.
  rewrite seq_assoc.
  rewrite (seq_lift_Normal _ rm) by exact Hrm.
  rewrite !seq_assoc. rewrite seq_write. rewrite seq_ret.
  reflexivity.
Qed.

Lemma onChangeMessageTypeEvent_empty_slot (msg : value) (m : Message.t) st :
  get msg "type" = VStr "revoked" ->
  Message.new MT msg = Normal m ->
  ToBoolean (last_message st) = false ->
  onChangeMessageTypeEvent MT msg st
  = {| final := st;
       trace := [revoked_event m (ArgValue VUndefined)];
       result := Normal tt |}.
Proof.
  intros Hty Hnew Hslot.
  pose proof (get_VStr_truthy _ _ _ Hty) as Ht.
  destruct (truthy_defined _ Ht) as [Hu Hn].
  unfold onChangeMessageTypeEvent.
  rewrite (seq_lift_Normal _ _ _ _ (prop_defined msg "type" Hu Hn)).
  rewrite Hty. change (strict_eq (VStr "revoked") (VStr "revoked")) with true. cbv iota.
  rewrite (seq_lift_Normal _ m) by exact Hnew.
  rewrite seq_read. rewrite Hslot. cbv iota.
  rewrite seq_ret. reflexivity.
Qed.

Lemma onChangeMessageTypeEvent_other_id (msg : value) (m : Message.t) st :
  get msg "type" = VStr "revoked" ->
  Message.new MT msg = Normal m ->
  ToBoolean (last_message st) = true ->
  get (last_message st) "id" <> VUndefined ->
  get (last_message st) "id" <> VNull ->
  strict_eq (get (get msg "id") "id") (get (get (last_message st) "id") "id") = false ->
  onChangeMessageTypeEvent MT msg st
  = {| final := st;
       trace := [revoked_event m (ArgValue VUndefined)];
       result := Normal tt |}.
Proof.
  intros Hty Hnew Hslot Hlu Hln Hid.
  pose proof (get_VStr_truthy _ _ _ Hty) as Ht.
  destruct (truthy_defined _ Ht) as [Hu Hn].
  destruct (new_id_defined MT _ _ Ht Hnew) as [Hiu Hin].
  unfold onChangeMessageTypeEvent.
  rewrite (seq_lift_Normal _ _ _ _ (prop_defined msg "type" Hu Hn)).
  rewrite Hty. change (strict_eq (VStr "revoked") (VStr "revoked")) with true. cbv iota.
  rewrite (seq_lift_Normal _ m) by exact Hnew.
  rewrite seq_read. rewrite Hslot. cbv iota.
  rewrite !seq_assoc.
  rewrite (seq_lift_Normal _ _ _ _ (prop_defined _ "id" Hiu Hin)).
  rewrite seq_assoc.
  rewrite (seq_lift_Normal _ _ _ _ (prop_defined _ "id" Hlu Hln)).
  rewrite Hid. cbv iota. rewrite seq_ret. reflexivity.
Qed.

End Revocation.

(** ** Message changes: the last-message slot and renumbering *)

Section Change.

Variable MT : MessageTypesT.

Lemma find_first_other (params : list value) (newId : value) :
  first_other params newId (JS.find (fun id => negb (strict_eq id newId)) params).
Proof.
  induction params as [|x xs IH]; simpl.
  - right. split; [reflexivity | constructor].
  - destruct (strict_eq x newId) eqn:E; simpl.
    + destruct IH as [(pre & post & Hxs & Hne & Hall) | [Hu Hall]].
      * left. exists (x :: pre), post.
        split; [simpl; f_equal; exact Hxs|].
        split; [exact Hne|]. constructor; assumption.
      * right. split; [exact Hu|]. constructor; assumption.
    + left. exists [], xs. repeat split; auto.
Qed.

Lemma onChangeMessageEvent_start (msg : value) st :
  msg <> VUndefined -> msg <> VNull ->
  onChangeMessageEvent MT msg st
  = (if isParticipant msg || isContact msg then
       let! message := lift (Message.new MT msg) in
       let! st := read in
       write {| qrRetries := qrRetries st;
                last_message := Message._data message |} ;;
       let! newId := lift (if isParticipant msg then index0 (get msg "recipients")
                           else Normal (get msg "to")) in
       let! oldId :=
         lift (if isParticipant msg then Normal (get msg "author")
               else match get msg "templateParams" with
                    | VArr params =>
                        Normal (JS.find (fun id => negb (strict_eq id newId)) params)
                    | _ => Throw TypeError
                    end) in
       emit CONTACT_CHANGED
            [ArgMessage message; ArgValue oldId; ArgValue newId;
             ArgValue (VBool (isContact msg))]
     else ret tt) (remember msg st).
Proof.
  intros Hu Hn. unfold onChangeMessageEvent.
  rewrite (seq_lift_Normal _ _ _ _ (prop_defined msg "type" Hu Hn)).
  unfold remember, isParticipant, isContact.
  destruct (negb (strict_eq (get msg "type") (VStr "revoked"))).
  - rewrite seq_assoc, seq_read, seq_write. reflexivity.
  - rewrite seq_ret. reflexivity.
Qed.

Lemma onChangeMessageEvent_other (msg : value) st :
  msg <> VUndefined -> msg <> VNull ->
  isParticipant msg || isContact msg = false ->
  onChangeMessageEvent MT msg st
  = {| final := remember msg st; trace := []; result := Normal tt |}.
Proof.
  intros Hu Hn Hno. rewrite onChangeMessageEvent_start by assumption.
  rewrite Hno. reflexivity.
Qed.

Lemma onChangeMessageEvent_participant (msg : value) (m : Message.t) (newId : value) st :
  get msg "type" = VStr "gp2" ->
  get msg "subtype" = VStr "modify" ->
  Message.new MT msg = Normal m ->
  index0 (get msg "recipients") = Normal newId ->
  onChangeMessageEvent MT msg st
  = {| final := {| qrRetries := qrRetries st; last_message := Message._data m |};
       trace := [contact_changed m (get msg "author") newId false];
       result := Normal tt |}.
Proof.
  intros Hty Hsub Hnew Hrec.
  destruct (truthy_defined _ (get_VStr_truthy _ _ _ Hty)) as [Hu Hn].
  rewrite onChangeMessageEvent_start by assumption.
  assert (HP : isParticipant msg = true).
  { unfold isParticipant. rewrite Hty, Hsub. reflexivity. }
  assert (HC : isContact msg = false).
  { unfold isContact. rewrite Hty. reflexivity. }
  rewrite HP, HC. simpl (_ || _). cbv iota.
  rewrite (seq_lift_Normal _ m) by exact Hnew.
  rewrite seq_read, seq_write.
  rewrite (seq_lift_Normal _ newId) by exact Hrec.
  rewrite (seq_lift_Normal _ (get msg "author")) by reflexivity.
  unfold remember. rewrite Hty. reflexivity.
Qed.

Lemma onChangeMessageEvent_contact (msg : value) (m : Message.t) (params : list value) st :
  get msg "type" = VStr "notification_template" ->
  get msg "subtype" = VStr "change_number" ->
  Message.new MT msg = Normal m ->
  get msg "templateParams" = VArr params ->
  onChangeMessageEvent MT msg st
  = {| final := {| qrRetries := qrRetries st; last_message := Message._data m |};
       trace := [contact_changed m
                   (JS.find (fun id => negb (strict_eq id (get msg "to"))) params)
                   (get msg "to") true];
       result := Normal tt |}.
Proof.
  intros Hty Hsub Hnew Hpar.
  destruct (truthy_defined _ (get_VStr_truthy _ _ _ Hty)) as [Hu Hn].
  rewrite onChangeMessageEvent_start by assumption.
  assert (HP : isParticipant msg = false).
  { unfold isParticipant. rewrite Hty. reflexivity. }
  assert (HC : isContact msg = true).
  { unfold isContact. rewrite Hty, Hsub. reflexivity. }
  rewrite HP, HC. simpl (_ || _). cbv iota.
  rewrite (seq_lift_Normal _ m) by exact Hnew.
  rewrite seq_read, seq_write.
  rewrite (seq_lift_Normal _ (get msg "to")) by reflexivity.
  rewrite Hpar.
  rewrite (seq_lift_Normal _ _ _ _ eq_refl).
  unfold remember. rewrite Hty. reflexivity.
Qed.

End Change.

Section Slot.

Variable MT : MessageTypesT.

Lemma isParticipant_true (msg : value) :
  isParticipant msg = true
  <-> get msg "type" = VStr "gp2" /\ get msg "subtype" = VStr "modify".
Proof.
  unfold isParticipant. rewrite andb_true_iff, !strict_eq_VStr. reflexivity.
Qed.

Lemma isContact_true (msg : value) :
  isContact msg = true
  <-> get msg "type" = VStr "notification_template"
      /\ get msg "subtype" = VStr "change_number".
Proof.
  unfold isContact. rewrite andb_true_iff, !strict_eq_VStr. reflexivity.
Qed.

Lemma final_seq_lift {A B} (c : completion A) (k : A -> program B) st (P : locals -> Prop) :
  P st -> (forall a, c = Normal a -> P (final (k a st))) ->
  P (final (seq (lift c) k st)).
Proof.
  intros Hst Hk. destruct c as [a|e].
  - rewrite (seq_lift_Normal _ a) by reflexivity. auto.
  - rewrite (seq_lift_Throw _ e) by reflexivity. exact Hst.
Qed.

Lemma onChangeMessageEvent_slot (msg : value) st :
  msg <> VUndefined -> msg <> VNull ->
  get msg "type" <> VStr "revoked" ->
  POLL_CREATION MT <> "gp2" ->
  POLL_CREATION MT <> "notification_template" ->
  last_message (final (onChangeMessageEvent MT msg st)) = msg.
Proof.
  intros Hu Hn Hty Hgp Hnt.
  rewrite onChangeMessageEvent_start by assumption.
  assert (Hrem : remember msg st = {| qrRetries := qrRetries st; last_message := msg |}).
  { unfold remember. rewrite (strict_eq_VStr_false _ _ Hty). reflexivity. }
  rewrite Hrem. clear Hrem.
  destruct (isParticipant msg || isContact msg) eqn:Hb; [|reflexivity].
  apply final_seq_lift; [reflexivity|]. intros m Hnew.
  rewrite seq_read, seq_write.
  assert (Hd : Message._data m = msg).
  { assert (Hkind : get msg "type" = VStr "gp2"
                    \/ get msg "type" = VStr "notification_template").
    { apply orb_true_iff in Hb as [H|H].
      - apply isParticipant_true in H. tauto.
      - apply isContact_true in H. tauto. }
    assert (Ht : ToBoolean msg = true).
    { destruct Hkind as [H|H]; exact (get_VStr_truthy _ _ _ H). }
    apply new_truthy_inv in Hnew; [|exact Ht].
    apply patch_fields_inv in Hnew as (_ & _ & Hdata & _).
    rewrite Hdata. unfold is_poll.
    rewrite strict_eq_VStr_false; [reflexivity|].
    destruct Hkind as [H|H]; rewrite H; congruence. }
  rewrite Hd.
  apply final_seq_lift; [reflexivity|]. intros newId _.
  apply final_seq_lift; [reflexivity|]. intros oldId _.
  reflexivity.
Qed.

Lemma onChangeMessageEvent_revoked (msg : value) st :
  get msg "type" = VStr "revoked" ->
  onChangeMessageEvent MT msg st = {| final := st; trace := []; result := Normal tt |}.
Proof.
  intros Hty.
  destruct (truthy_defined _ (get_VStr_truthy _ _ _ Hty)) as [Hu Hn].
  rewrite onChangeMessageEvent_other; auto.
  - unfold remember. rewrite Hty. reflexivity.
  - unfold isParticipant, isContact. rewrite Hty. reflexivity.
Qed.

End Slot.

(** C2.  For a mutation [msg] whose type is ['revoked'] and from which the
    message [m] is built:
    - when the last-message slot holds a snapshot with the same [id.id],
      the [message_revoke_everyone] event carries [m] and, as second
      argument, the message built from the snapshot in the slot;
    - when the slot holds a snapshot with another [id.id], or is empty, the
      second argument is [undefined];
    and [onChangeMessageEvent] stores every mutation whose type is not
    ['revoked'] in the slot, and leaves the slot alone for a revoked one. *)
Theorem C2_revocation_correlation (MT : MessageTypesT) :
  (forall (msg : value) (m rm : Message.t) (st : locals),
      get msg "type" = VStr "revoked" ->
      Message.new MT msg = Normal m ->
      ToBoolean (last_message st) = true ->
      strict_eq (get (get msg "id") "id")
                (get (get (last_message st) "id") "id") = true ->
      Message.new MT (last_message st) = Normal rm ->
      let out := onChangeMessageTypeEvent MT msg st in
      result out = Normal tt
      /\ trace out = [Emit MESSAGE_REVOKED_EVERYONE [ArgMessage m; ArgMessage rm]])
  /\ (forall (msg : value) (m : Message.t) (st : locals),
      get msg "type" = VStr "revoked" ->
      Message.new MT msg = Normal m ->
      ToBoolean (last_message st) = true ->
      get (last_message st) "id" <> VUndefined ->
      get (last_message st) "id" <> VNull ->
      strict_eq (get (get msg "id") "id")
                (get (get (last_message st) "id") "id") = false ->
      let out := onChangeMessageTypeEvent MT msg st in
      result out = Normal tt
      /\ trace out
         = [Emit MESSAGE_REVOKED_EVERYONE [ArgMessage m; ArgValue VUndefined]])
  /\ (forall (msg : value) (m : Message.t) (st : locals),
      get msg "type" = VStr "revoked" ->
      Message.new MT msg = Normal m ->
      ToBoolean (last_message st) = false ->
      let out := onChangeMessageTypeEvent MT msg st in
      result out = Normal tt
      /\ trace out
         = [Emit MESSAGE_REVOKED_EVERYONE [ArgMessage m; ArgValue VUndefined]])
  /\ (POLL_CREATION MT <> "gp2" ->
      POLL_CREATION MT <> "notification_template" ->
      forall (o : gmap string value) (st : locals),
        get (VObj o) "type" <> VStr "revoked" ->
        last_message (final (onChangeMessageEvent MT (VObj o) st)) = VObj o)
  /\ (forall (msg : value) (st : locals),
      get msg "type" = VStr "revoked" ->
      final (onChangeMessageEvent MT msg st) = st).
Proof.
  split; [|split; [|split; [|split]]].
  - intros msg m rm st Hty Hnew Hslot Hid Hrm out. subst out.
    rewrite (onChangeMessageTypeEvent_same_id MT msg m rm st) by assumption.
    split; reflexivity.
  - intros msg m st Hty Hnew Hslot Hu Hn Hid out. subst out.
    rewrite (onChangeMessageTypeEvent_other_id MT msg m st) by assumption.
    split; reflexivity.
  - intros msg m st Hty Hnew Hslot out. subst out.
    rewrite (onChangeMessageTypeEvent_empty_slot MT msg m st) by assumption.
    split; reflexivity.
  - intros Hgp Hnt o st Hty.
    apply onChangeMessageEvent_slot; auto; discriminate.
  - intros msg st Hty. rewrite onChangeMessageEvent_revoked by assumption.
    reflexivity.
Qed.

(** C3.  For every message-change payload [msg]:
    - type ['gp2'] with subtype ['modify']: [contact_changed] is emitted
      with the message, [oldId = msg.author], [newId = msg.recipients[0]]
      and [isContact = false];
    - type ['notification_template'] with subtype ['change_number']: it is
      emitted with [newId = msg.to], [oldId] the first template parameter
      that is not [newId], and [isContact = true];
    - any other payload: nothing is emitted. *)
Theorem C3_contact_changed (MT : MessageTypesT) (o : gmap string value) (st : locals) :
  let msg := VObj o in
  let out := onChangeMessageEvent MT msg st in
  (get msg "type" = VStr "gp2" -> get msg "subtype" = VStr "modify" ->
   forall (m : Message.t) (newId : value),
     Message.new MT msg = Normal m ->
     index0 (get msg "recipients") = Normal newId ->
     result out = Normal tt
     /\ trace out
        = [Emit CONTACT_CHANGED
             [ArgMessage m; ArgValue (get msg "author"); ArgValue newId;
              ArgValue (VBool false)]])
  /\ (get msg "type" = VStr "notification_template" ->
      get msg "subtype" = VStr "change_number" ->
      forall (m : Message.t) (params : list value),
        Message.new MT msg = Normal m ->
        get msg "templateParams" = VArr params ->
        exists oldId : value,
          first_other params (get msg "to") oldId
          /\ result out = Normal tt
          /\ trace out
             = [Emit CONTACT_CHANGED
                  [ArgMessage m; ArgValue oldId; ArgValue (get msg "to");
                   ArgValue (VBool true)]])
  /\ (~ (get msg "type" = VStr "gp2" /\ get msg "subtype" = VStr "modify") ->
      ~ (get msg "type" = VStr "notification_template"
         /\ get msg "subtype" = VStr "change_number") ->
      result out = Normal tt /\ trace out = []).
Proof.
  intros msg out. subst out. split; [|split].
  - intros Hty Hsub m newId Hnew Hrec.
    rewrite (onChangeMessageEvent_participant MT msg m newId st) by assumption.
    split; reflexivity.
  - intros Hty Hsub m params Hnew Hpar.
    rewrite (onChangeMessageEvent_contact MT msg m params st) by assumption.
    eexists. split; [apply find_first_other|]. split; reflexivity.
  - intros HnP HnC.
    rewrite onChangeMessageEvent_other; [split; reflexivity | discriminate | discriminate |].
    apply orb_false_iff. split.
    + destruct (isParticipant msg) eqn:E; [|reflexivity].
      apply isParticipant_true in E. contradiction.
    + destruct (isContact msg) eqn:E; [|reflexivity].
      apply isContact_true in E. contradiction.
Qed.

(** ** Connection state *)

Section ConnectionState.

Variable W : WAStateT.
Variable opts : options.

Lemma includes_true (l : list string) (state : value) :
  includes l state = true <-> exists s, In s l /\ state = VStr s.
Proof.
  unfold includes. rewrite existsb_exists.
  split; intros (s & Hin & H); exists s; (split; [exact Hin|]);
    apply strict_eq_VStr; exact H.
Qed.

Lemma onAppStateChangedEvent_trace (state : value) st :
  onAppStateChangedEvent W opts state st
  = {| final := st;
       trace := Emit STATE_CHANGED [ArgValue state]
                :: (if ToBoolean (takeoverOnConflict opts)
                       && strict_eq state (VStr (CONFLICT W))
                    then [SetTimeoutTakeover (takeoverTimeoutMs opts)] else [])
                ++ (if includes (allow_list W opts) state then []
                    else [Emit DISCONNECTED [ArgValue state]; Destroy]);
       result := Normal tt |}.
Proof.
  unfold onAppStateChangedEvent, allow_list.
  rewrite seq_emit.
  destruct (ToBoolean (takeoverOnConflict opts)).
  - rewrite seq_assoc.
    destruct (strict_eq state (VStr (CONFLICT W))).
    + rewrite seq_perform, seq_ret.
      destruct (includes _ state); reflexivity.
    + rewrite !seq_ret.
      destruct (includes _ state); reflexivity.
  - rewrite seq_ret. rewrite app_nil_r.
    destruct (includes _ state); reflexivity.
Qed.

End ConnectionState.

(** C4.  For every connection state passed to [onAppStateChangedEvent]:
    [change_state] is emitted first; for a state of the allow-list
    ([CONNECTED], [OPENING], [PAIRING], [TIMEOUT], and [CONFLICT] when
    [takeoverOnConflict] is set) [destroy] is not called and no
    [disconnected] is emitted; for any other state exactly one
    [disconnected] event is emitted, immediately followed by the one call
    of [destroy], which ends the handler. *)
Theorem C4_state_change_teardown
    (W : WAStateT) (opts : options) (state : value) (st : locals) :
  let out := onAppStateChangedEvent W opts state st in
  result out = Normal tt
  /\ (exists rest, trace out = Emit STATE_CHANGED [ArgValue state] :: rest)
  /\ (allowed W opts state ->
      ~ In Destroy (trace out) /\ List.filter is_disconnected (trace out) = [])
  /\ (~ allowed W opts state ->
      List.filter is_disconnected (trace out) = [Emit DISCONNECTED [ArgValue state]]
      /\ exists pre,
          trace out = pre ++ [Emit DISCONNECTED [ArgValue state]; Destroy]
          /\ ~ In Destroy pre
          /\ List.filter is_disconnected pre = []).
Proof.
  intros out. subst out. rewrite onAppStateChangedEvent_trace.
  cbn [result trace].
  split; [reflexivity|]. split; [eexists; reflexivity|].
  pose proof (includes_true (allow_list W opts) state) as Hinc.
  fold (allowed W opts state) in Hinc.
  set (timer := if ToBoolean (takeoverOnConflict opts)
                   && strict_eq state (VStr (CONFLICT W))
                then [SetTimeoutTakeover (takeoverTimeoutMs opts)] else []).
  assert (Htimer : ~ In Destroy timer /\ List.filter is_disconnected timer = []).
  { subst timer. destruct (_ && _); simpl; split; auto.
    intros [H|[]]. discriminate H. }
  destruct Htimer as [Hnd Hnf].
  destruct (includes (allow_list W opts) state) eqn:E; split.
  - intros _. rewrite app_nil_r. split.
    + intros [H|H]; [discriminate H | contradiction].
    + simpl. exact Hnf.
  - intros Hna. exfalso. apply Hna, Hinc. reflexivity.
  - intros Ha. apply Hinc in Ha. discriminate Ha.
  - intros _. split.
    + simpl. rewrite List.filter_app, Hnf. reflexivity.
    + exists (Emit STATE_CHANGED [ArgValue state] :: timer).
      split; [reflexivity|]. split.
      * intros [H|H]; [discriminate H | contradiction].
      * simpl. exact Hnf.
Qed.

(** ** QR retries *)

Lemma qrChanged_step (opts : options) (qr : value) st :
  qrRetries st = None \/ qrRetries st = Some NaN ->
  qrChanged opts qr st
  = {| final := if number_gtb (qrMaxRetries opts) (Num 0)
                then {| qrRetries := Some NaN; last_message := last_message st |}
                else st;
       trace := [qr_event qr];
       result := Normal tt |}.
Proof.
  intros Hq. unfold qrChanged. rewrite seq_emit.
  destruct (number_gtb (qrMaxRetries opts) (Num 0)); [|reflexivity].
  rewrite seq_read, seq_write, seq_read.
  cbn [qrRetries last_message].
  assert (Hinc : increment (qrRetries st) = NaN).
  { destruct Hq as [-> | ->]; reflexivity. }
  rewrite Hinc. reflexivity.
Qed.

Lemma qrChanged_invocations (opts : options) (qrs : list value) st :
  qrRetries st = None \/ qrRetries st = Some NaN ->
  snd (invocations (qrChanged opts) qrs st) = map qr_event qrs
  /\ (qrRetries (fst (invocations (qrChanged opts) qrs st)) = None
      \/ qrRetries (fst (invocations (qrChanged opts) qrs st)) = Some NaN)
  /\ (number_gtb (qrMaxRetries opts) (Num 0) = true -> qrs <> [] ->
      qrRetries (fst (invocations (qrChanged opts) qrs st)) = Some NaN).
Proof.
  revert st. induction qrs as [|qr qrs IH]; intros st Hq.
  - simpl. split; [reflexivity|]. split; [exact Hq|]. intros _ H. contradiction.
  - cbn [invocations]. rewrite (qrChanged_step opts qr st Hq).
    cbn [final trace fst snd].
    set (st' := if number_gtb (qrMaxRetries opts) (Num 0)
                then {| qrRetries := Some NaN; last_message := last_message st |}
                else st).
    assert (Hq' : qrRetries st' = None \/ qrRetries st' = Some NaN).
    { subst st'. destruct (number_gtb _ _); [right; reflexivity | exact Hq]. }
    destruct (IH st' Hq') as (Htr & Hinv & Hnan).
    split; [simpl; f_equal; exact Htr|]. split; [exact Hinv|].
    intros Hmax _. destruct qrs as [|qr' qrs'].
    + simpl. subst st'. rewrite Hmax. reflexivity.
    + apply Hnan; [exact Hmax | discriminate].
Qed.

(** C10.  The retry counter starts [undefined]; for every sequence of
    [qrChanged] invocations each invocation emits exactly one [qr] event and
    nothing else: no [disconnected] event is emitted and [destroy] is never
    called, however many codes are received; with [qrMaxRetries > 0] the
    counter is [NaN] after the first invocation, and the comparison
    [qrRetries > qrMaxRetries] is false. *)
Theorem C10_qr_retries_never_exhausted
    (opts : options) (slot : value) (qrs : list value) :
  let st0 := {| qrRetries := None; last_message := slot |} in
  let run := invocations (qrChanged opts) qrs st0 in
  snd run = map (fun qr => Emit QR_RECEIVED [ArgValue qr]) qrs
  /\ ~ In Destroy (snd run)
  /\ (forall args, ~ In (Emit DISCONNECTED args) (snd run))
  /\ (number_gtb (qrMaxRetries opts) (Num 0) = true -> qrs <> [] ->
      qrRetries (fst run) = Some NaN
      /\ counter_gtb (qrRetries (fst run)) (qrMaxRetries opts) = false).
Proof.
  intros st0 run.
  destruct (qrChanged_invocations opts qrs st0 (or_introl eq_refl))
    as (Htr & _ & Hnan).
  fold run in Htr, Hnan. rewrite Htr.
  split; [reflexivity|]. split; [|split].
  - intros H. apply in_map_iff in H as (qr & Hqr & _). discriminate Hqr.
  - intros args H. apply in_map_iff in H as (qr & Hqr & _). discriminate Hqr.
  - intros Hmax Hne. rewrite (Hnan Hmax Hne). split; reflexivity.
Qed.

(** ** Commands: calls made on the page *)

Section CallFacts.

Variable respond : call -> completion value.

Lemma seq_request {B} (c : call) (k : value -> program B) st :
  seq (request respond c) k st
  = after (Call c)
      (match respond c with
       | Normal v => k v st
       | Throw e => {| final := st; trace := []; result := Throw e |}
       end).
Proof.
  unfold request. rewrite seq_assoc, seq_perform.
  destruct (respond c) as [v|e] eqn:E.
  - rewrite (seq_lift_Normal _ v) by reflexivity. reflexivity.
  - rewrite (seq_lift_Throw _ e) by reflexivity. reflexivity.
Qed.

Lemma request_run (c : call) st :
  request respond c st = {| final := st; trace := [Call c]; result := respond c |}.
Proof. reflexivity. Qed.

Lemma always_ret P {A} (a : A) : always P (ret a).
Proof. intros st. constructor. Qed.

Lemma always_lift P {A} (c : completion A) : always P (lift c).
Proof. intros st. constructor. Qed.

Lemma always_request P (c : call) : P (Call c) -> always P (request respond c).
Proof. intros H st. rewrite request_run. simpl. constructor; [exact H | constructor]. Qed.

Lemma always_seq P {A B} (h : program A) (k : A -> program B) :
  always P h -> (forall a, always P (k a)) -> always P (seq h k).
Proof.
  intros Hh Hk st. unfold seq. specialize (Hh st).
  destruct (h st) as [f t [a|e]]; simpl in *; [|exact Hh].
  apply Forall_app. split; [exact Hh | apply Hk].
Qed.

End CallFacts.

Ltac always_step :=
  first
    [ apply always_ret
    | apply always_lift
    | apply always_request
    | apply always_seq; [|intros ?]
    | match goal with
      | |- always _ (if ?b then _ else _) => destruct b
      | |- always _ (match ?x with _ => _ end) => destruct x
      end ].

(** ** Sending to the status broadcast *)

Section SendStatus.

Variable MT : MessageTypesT.
Variable respond : call -> completion value.

Lemma stored_message_calls (result : value) :
  always (fun a => is_media_status a = false) (stored_message respond result).
Proof. unfold stored_message. repeat always_step; reflexivity. Qed.

Lemma sendMessage_instance_status (c : jsclass) (fields : value) st :
  c <> Contact ->
  exists io : gmap string value,
    (c = MessageMedia -> io !! "attachment" = Some fields)
    /\ sendMessage MT respond (VStr "status@broadcast")
         (One (Some c, fields)) no_options st
       = (let! newMessage :=
            (let! result := request respond
                              (status_sendTextStatus (VStr "") (VObj io)) in
             stored_message respond result) in
          lift (Message.new MT newMessage)) st.
Proof.
  intros Hc.
  destruct c; [| | |contradiction];
    (eexists; split; cycle 1;
     [ unfold sendMessage;
       rewrite (seq_lift_Normal _ (VArr [])) by reflexivity;
       (erewrite seq_lift_Normal; [|reflexivity]);
       cbn [fst snd];
       match goal with
       | |- context [ToBoolean ?b] =>
           replace (ToBoolean b) with false by (vm_compute; reflexivity)
       end;
       rewrite seq_ret; reflexivity
     | intros Hm; first [discriminate Hm | vm_compute; reflexivity] ]).
Qed.

End SendStatus.

(** C9 (what the code does).  A [MessageMedia] sent to
    ['status@broadcast'] reaches the page as the empty string, with the
    media in [options.attachment]: the first call made is
    [sendTextStatus('', options)], and neither [sendImageStatus] nor
    [sendVideoStatus] is ever called, whatever the mimetype.  A [Location]
    or a [Poll] sent there is posted as the empty text status too. *)
Theorem C9_status_media_sent_as_text
    (MT : MessageTypesT) (respond : call -> completion value)
    (fields : value) (st : locals) :
  let send c := sendMessage MT respond (VStr "status@broadcast")
                  (One (Some c, fields)) no_options st in
  (exists (io : gmap string value) (rest : list action),
      io !! "attachment" = Some fields
      /\ trace (send MessageMedia)
         = Call (status_sendTextStatus (VStr "") (VObj io)) :: rest)
  /\ Forall (fun a => is_media_status a = false) (trace (send MessageMedia))
  /\ (forall c, c = Location \/ c = Poll ->
      exists (io : gmap string value) (rest : list action),
        trace (send c) = Call (status_sendTextStatus (VStr "") (VObj io)) :: rest).
Proof.
  intros send. subst send. cbv beta.
  assert (Hfirst : forall io,
             exists rest,
               trace ((let! newMessage :=
                         (let! result := request respond
                                           (status_sendTextStatus (VStr "") (VObj io)) in
                          stored_message respond result) in
                       lift (Message.new MT newMessage)) st)
               = Call (status_sendTextStatus (VStr "") (VObj io)) :: rest).
  { intros io. rewrite seq_assoc, seq_request. cbn [after trace].
    eexists. reflexivity. }
  split; [|split].
  - destruct (sendMessage_instance_status MT respond MessageMedia fields st)
      as (io & Hio & ->); [discriminate|].
    destruct (Hfirst io) as [rest Hrest].
    exists io, rest. split; [apply Hio; reflexivity | exact Hrest].
  - destruct (sendMessage_instance_status MT respond MessageMedia fields st)
      as (io & _ & ->); [discriminate|].
    apply always_seq.
    + apply always_seq.
      * apply always_request. reflexivity.
      * intros r. apply stored_message_calls.
    + intros a. apply always_lift.
  - intros c Hc.
    destruct (sendMessage_instance_status MT respond c fields st)
      as (io & _ & ->); [destruct Hc as [-> | ->]; discriminate|].
    destruct (Hfirst io) as [rest Hrest].
    exists io, rest. exact Hrest.
Qed.

(** ** Adding participants *)

Lemma result_seq {A B} (h : program A) (k : A -> program B) st (b : B) :
  result (seq h k st) = Normal b ->
  exists a, result (h st) = Normal a /\ result (k a (final (h st))) = Normal b.
Proof.
  unfold seq. destruct (h st) as [f t [a|e]]; simpl; [eauto | discriminate].
Qed.

Lemma seq_ext {A B} (h : program A) (k k' : A -> program B) st :
  (forall a, result (h st) = Normal a -> k a (final (h st)) = k' a (final (h st))) ->
  seq h k st = seq h k' st.
Proof.
  intros H. unfold seq. destruct (h st) as [f t [a|e]]; simpl in *; [|reflexivity].
  rewrite (H a eq_refl). reflexivity.
Qed.

Section AddParticipantsFacts.

Variable respond : call -> completion value.

Lemma add_one_returns (groupId group groupWid auto comment participant : value)
    st (r : option value) :
  result (add_one respond groupId group groupWid auto comment participant st) = Normal r ->
  exists v, r = Some v.
Proof.
  unfold add_one. intros H.
  apply result_seq in H as (pWid & _ & H).
  apply result_seq in H as (res & _ & H).
  apply result_seq in H as (rpc & _ & H).
  apply result_seq in H as (rpc' & _ & H).
  inversion H. eauto.
Qed.

(** The participants after the first do not matter. *)
Lemma for_of_add_one_first (groupId group groupWid auto comment p : value)
    (rest : list value) st :
  for_of (add_one respond groupId group groupWid auto comment) (p :: rest) st
  = for_of (add_one respond groupId group groupWid auto comment) [p] st.
Proof.
  cbn [for_of]. apply seq_ext. intros r Hr.
  apply add_one_returns in Hr as [v ->]. reflexivity.
Qed.

Lemma send_invite_always P (group groupWid pWid rpcResult comment : value) :
  (forall c, (forall g ps, c <> group_addParticipants g ps) -> P (Call c)) ->
  always P (send_invite respond group groupWid pWid rpcResult comment).
Proof.
  intros HP. unfold send_invite.
  repeat always_step; apply HP; discriminate.
Qed.

Lemma add_one_always P (groupId group groupWid auto comment p : value) :
  (forall c, (forall g ps, c <> group_addParticipants g ps) -> P (Call c)) ->
  P (Call (group_addParticipants groupId [p])) ->
  always P (add_one respond groupId group groupWid auto comment p).
Proof.
  intros HP Hadd. unfold add_one.
  always_step; [apply always_request, HP; discriminate|].
  always_step; [apply always_request, Hadd|].
  always_step; [apply always_lift|].
  always_step; [|apply always_ret].
  destruct (ToBoolean auto); [|apply always_ret].
  always_step; [apply always_lift|].
  destruct (strict_eq _ _); [|apply always_ret].
  always_step; [apply send_invite_always, HP | apply always_ret].
Qed.

Lemma for_of_always P (body : value -> program (option value)) (xs : list value) :
  (forall x, In x xs -> always P (body x)) -> always P (for_of body xs).
Proof.
  induction xs as [|x xs IH]; intros Hb; cbn [for_of].
  - apply always_ret.
  - apply always_seq; [apply Hb; left; reflexivity|].
    intros [v|]; [apply always_ret|].
    apply IH. intros y Hy. apply Hb. right. exact Hy.
Qed.

Lemma addParticipants_always P (groupId participantIds options : value) :
  (forall c, (forall g ps, c <> group_addParticipants g ps) -> P (Call c)) ->
  (forall ps, iterate participantIds = Normal ps ->
              forall p, In p ps -> P (Call (group_addParticipants groupId [p]))) ->
  always P (addParticipants respond groupId participantIds options).
Proof.
  intros HP Hadd. unfold addParticipants.
  always_step; [apply always_lift|].
  always_step; [apply always_request, HP; discriminate|].
  always_step; [apply always_request, HP; discriminate|].
  intros st. destruct (iterate participantIds) as [ps|e] eqn:E.
  - rewrite (seq_lift_Normal _ ps) by reflexivity.
    apply for_of_always. intros p Hp. apply add_one_always; [exact HP|].
    apply (Hadd ps eq_refl p Hp).
  - rewrite (seq_lift_Throw _ e) by reflexivity. constructor.
Qed.

End AddParticipantsFacts.

(** C1 (what the code does).  [addParticipants] returns from inside the
    first iteration of its loop: given the ids [p :: rest] it behaves as it
    does given [p] alone, the only add attempt it can make is the one for
    [p], and its value is the result for [p]. *)
Theorem C1_addParticipants_stops_after_first
    (respond : call -> completion value)
    (groupId p : value) (rest : list value) (options : value) (st : locals) :
  let out := addParticipants respond groupId (VArr (p :: rest)) options st in
  out = addParticipants respond groupId (VArr [p]) options st
  /\ Forall (adds_only groupId p) (trace out).
Proof.
  intros out.
  assert (Heq : out = addParticipants respond groupId (VArr [p]) options st).
  { subst out. unfold addParticipants.
    apply seq_ext. intros _ _. apply seq_ext. intros groupWid _.
    apply seq_ext. intros group _.
    cbn [iterate]. rewrite !(seq_lift_Normal _ _ _ _ eq_refl).
    apply for_of_add_one_first. }
  split; [exact Heq|]. rewrite Heq.
  apply addParticipants_always.
  - intros c Hc g ps Heqc. injection Heqc as ->. exfalso. apply (Hc g ps). reflexivity.
  - intros ps Hps q Hq. injection Hps as <-. destruct Hq as [<-|[]].
    intros g ps' Hc. injection Hc as <- <-. split; reflexivity.
Qed.

(** ** The [sleep] option of the batch commands *)

Lemma get_without_sleep (o : gmap string value) (sleep : value) (k : string) :
  k <> "sleep" ->
  get (VObj (<["sleep" := sleep]> o)) k = get (VObj (delete "sleep" o)) k.
Proof.
  intros Hk. unfold get.
  rewrite lookup_insert_ne, lookup_delete_ne by congruence. reflexivity.
Qed.

Lemma approve_run (respond : call -> completion value) (groupId : value)
    (o : gmap string value) st :
  approveGroupMembershipRequests respond groupId (VObj o) st
  = {| final := st;
       trace := [Call (group_approve groupId (get_default (VObj o) "requesterIds" VNull))];
       result := respond (group_approve groupId
                            (get_default (VObj o) "requesterIds" VNull)) |}.
Proof.
  unfold approveGroupMembershipRequests.
  erewrite seq_lift_Normal; reflexivity.
Qed.

Lemma reject_run (respond : call -> completion value) (groupId : value)
    (o : gmap string value) st :
  rejectGroupMembershipRequests respond groupId (VObj o) st
  = {| final := st;
       trace := [Call (group_reject groupId (get_default (VObj o) "requesterIds" VNull))];
       result := respond (group_reject groupId
                           (get_default (VObj o) "requesterIds" VNull)) |}.
Proof.
  unfold rejectGroupMembershipRequests.
  erewrite seq_lift_Normal; reflexivity.
Qed.

(** C6 (what the code does).  The [sleep] option is never read: with any
    value of [sleep] the batch commands behave as they do without it;
    approving or rejecting is one call of the page for all requesters, and
    no command ever calls [Util.sleep]. *)
Theorem C6_sleep_option_ignored
    (respond : call -> completion value) (groupId participantIds : value)
    (o : gmap string value) (sleep : value) (st : locals) :
  let options := VObj (<["sleep" := sleep]> o) in
  let without := VObj (delete "sleep" o) in
  approveGroupMembershipRequests respond groupId options st
  = approveGroupMembershipRequests respond groupId without st
  /\ rejectGroupMembershipRequests respond groupId options st
     = rejectGroupMembershipRequests respond groupId without st
  /\ GroupChat.addParticipants respond groupId participantIds options st
     = GroupChat.addParticipants respond groupId participantIds without st
  /\ (exists ids,
        trace (approveGroupMembershipRequests respond groupId options st)
        = [Call (group_approve groupId ids)])
  /\ (exists ids,
        trace (rejectGroupMembershipRequests respond groupId options st)
        = [Call (group_reject groupId ids)])
  /\ Forall no_sleep
       (trace (GroupChat.addParticipants respond groupId participantIds options st)).
Proof.
  intros options without.
  assert (Hget : forall k, k <> "sleep" -> get options k = get without k).
  { intros k Hk. apply get_without_sleep. exact Hk. }
  assert (Hdef : forall k d, k <> "sleep" ->
                             get_default options k d = get_default without k d).
  { intros k d Hk. unfold get_default. rewrite (Hget k Hk). reflexivity. }
  split; [|split; [|split; [|split; [|split]]]].
  - unfold options, without. rewrite !approve_run.
    fold options without. rewrite (Hdef "requesterIds") by discriminate.
    reflexivity.
  - unfold options, without. rewrite !reject_run.
    fold options without. rewrite (Hdef "requesterIds") by discriminate.
    reflexivity.
  - unfold GroupChat.addParticipants.
    rewrite (seq_lift_Normal (prop options "autoSendInviteV4") _ _ _ eq_refl).
    rewrite (seq_lift_Normal (prop without "autoSendInviteV4") _ _ _ eq_refl).
    rewrite !(Hdef "autoSendInviteV4"), !(Hdef "comment") by discriminate.
    reflexivity.
  - subst options. rewrite approve_run. eexists. reflexivity.
  - subst options. rewrite reject_run. eexists. reflexivity.
  - apply addParticipants_always; intros; intros ms; discriminate.
Qed.

(** * Concrete runs *)

Lemma C5_create_then_received_witness :
  exists m,
    Message.new sample_types chat_snapshot = Normal m
    /\ trace (onAddMessageEvent sample_types chat_snapshot initial)
       = [Emit MESSAGE_CREATE [ArgMessage m]; Emit MESSAGE_RECEIVED [ArgMessage m]].
Proof.
  assert (exists m, Message.new sample_types chat_snapshot = Normal m)
    as [m Hm] by (eexists; vm_compute; reflexivity).
  exists m. split; [exact Hm|].
  pose proof (fun Hty => C5_create_then_received sample_types _ m initial Hty Hm)
    as HC5.
  destruct HC5 as (_ & Htr & _).
  - intros H. vm_compute in H. discriminate H.
  - exact Htr.
Defined.

Lemma C2_revocation_correlation_witness :
  exists m rm,
    Message.new sample_types revoked_snapshot = Normal m
    /\ Message.body rm = VStr "hello"
    /\ trace (onChangeMessageTypeEvent sample_types revoked_snapshot
                (final (onChangeMessageEvent sample_types chat_snapshot initial)))
       = [Emit MESSAGE_REVOKED_EVERYONE [ArgMessage m; ArgMessage rm]].
Proof.
  destruct (C2_revocation_correlation sample_types)
    as (Hsame & _ & _ & Hslot & _).
  assert (exists m, Message.new sample_types revoked_snapshot = Normal m)
    as [m Hm] by (eexists; vm_compute; reflexivity).
  assert (exists rm, Message.new sample_types chat_snapshot = Normal rm
                     /\ Message.body rm = VStr "hello")
    as (rm & Hrm & Hbody) by (eexists; split; vm_compute; reflexivity).
  exists m, rm. split; [exact Hm|]. split; [exact Hbody|].
  set (st := final (onChangeMessageEvent sample_types chat_snapshot initial)).
  assert (Hst : last_message st = chat_snapshot).
  { apply Hslot; [discriminate | discriminate |].
    intros H; vm_compute in H; discriminate H. }
  apply Hsame.
  - vm_compute; reflexivity.
  - exact Hm.
  - rewrite Hst. reflexivity.
  - rewrite Hst. vm_compute; reflexivity.
  - rewrite Hst. exact Hrm.
Defined.

Lemma C3_contact_changed_witness :
  exists m m' oldId,
    trace (onChangeMessageEvent sample_types participant_payload initial)
    = [Emit CONTACT_CHANGED
         [ArgMessage m; ArgValue (VStr "old@c.us"); ArgValue (VStr "new@c.us");
          ArgValue (VBool false)]]
    /\ trace (onChangeMessageEvent sample_types template_payload initial)
       = [Emit CONTACT_CHANGED
            [ArgMessage m'; ArgValue oldId; ArgValue (VStr "new@c.us");
             ArgValue (VBool true)]]
    /\ first_other [VStr "new@c.us"; VStr "old@c.us"] (VStr "new@c.us") oldId
    /\ trace (onChangeMessageEvent sample_types chat_snapshot initial) = [].
Proof.
  assert (exists m, Message.new sample_types participant_payload = Normal m)
    as [m Hm] by (eexists; vm_compute; reflexivity).
  assert (exists m, Message.new sample_types template_payload = Normal m)
    as [m' Hm'] by (eexists; vm_compute; reflexivity).
  pose proof (C3_contact_changed sample_types _ initial
              : let msg := participant_payload in _) as (HP & _ & _).
  pose proof (C3_contact_changed sample_types _ initial
              : let msg := template_payload in _) as (_ & HC & _).
  pose proof (C3_contact_changed sample_types _ initial
              : let msg := chat_snapshot in _) as (_ & _ & HO).
  destruct (HP ltac:(vm_compute; reflexivity) ltac:(vm_compute; reflexivity)
               m (VStr "new@c.us") Hm ltac:(vm_compute; reflexivity))
    as [_ HtrP].
  destruct (HC ltac:(vm_compute; reflexivity) ltac:(vm_compute; reflexivity)
               m' [VStr "new@c.us"; VStr "old@c.us"] Hm'
               ltac:(vm_compute; reflexivity))
    as (oldId & Hfirst & _ & HtrC).
  destruct HO as [_ HtrO].
  { intros [H _]. vm_compute in H. discriminate H. }
  { intros [H _]. vm_compute in H. discriminate H. }
  exists m, m', oldId. split; [exact HtrP|]. split; [exact HtrC|].
  split; [exact Hfirst | exact HtrO].
Defined.

Lemma C4_state_change_teardown_witness :
  trace (onAppStateChangedEvent sample_states sample_options (VStr "CONNECTED") initial)
  = [Emit STATE_CHANGED [ArgValue (VStr "CONNECTED")]]
  /\ exists pre,
      trace (onAppStateChangedEvent sample_states sample_options
               (VStr "UNPAIRED") initial)
      = pre ++ [Emit DISCONNECTED [ArgValue (VStr "UNPAIRED")]; Destroy]
      /\ ~ In Destroy pre.
Proof.
  split; [vm_compute; reflexivity|].
  destruct (C4_state_change_teardown sample_states sample_options
              (VStr "UNPAIRED") initial) as (_ & _ & _ & Hout).
  destruct Hout as (_ & pre & Hpre & Hnd & _).
  - intros (s & Hin & Hs). injection Hs as <-.
    vm_compute in Hin. intuition discriminate.
  - exists pre. split; [exact Hpre | exact Hnd].
Defined.

Lemma C10_qr_retries_never_exhausted_witness :
  let run := invocations (qrChanged sample_options)
               [VStr "a,1"; VStr "b,1"; VStr "c,1"; VStr "d,1"; VStr "e,1"]
               initial in
  snd run = [Emit QR_RECEIVED [ArgValue (VStr "a,1")];
             Emit QR_RECEIVED [ArgValue (VStr "b,1")];
             Emit QR_RECEIVED [ArgValue (VStr "c,1")];
             Emit QR_RECEIVED [ArgValue (VStr "d,1")];
             Emit QR_RECEIVED [ArgValue (VStr "e,1")]]
  /\ qrRetries (fst run) = Some NaN.
Proof.
  intros run.
  destruct (C10_qr_retries_never_exhausted sample_options VUndefined
              [VStr "a,1"; VStr "b,1"; VStr "c,1"; VStr "d,1"; VStr "e,1"])
    as (Htr & _ & _ & Hnan).
  split; [exact Htr|].
  apply Hnan; [reflexivity | discriminate].
Defined.

(** The failing input of C1: two ids, one add attempt. *)
Example addParticipants_two_ids :
  addParticipants sample_page (VStr "5@g.us")
    (VArr [VStr "1@c.us"; VStr "2@c.us"]) VUndefined initial
  = {| final := initial;
       trace := [Call (WidFactory_createWid (VStr "5@g.us"));
                 Call (ChatStore_find (VObj ∅));
                 Call (WidFactory_createWid (VStr "1@c.us"));
                 Call (group_addParticipants (VStr "5@g.us") [VStr "1@c.us"])];
       result := Normal (obj [("code", VNum (Num 200)); ("message", VStr "OK")]) |}.
Proof. vm_compute. reflexivity. Qed.

(** The failing input of C9: an image posted to the status broadcast. *)
Example sendMessage_image_status :
  exists io,
    trace (sendMessage sample_types sample_page (VStr "status@broadcast")
             (One (Some MessageMedia, image_media)) no_options initial)
    = [Call (status_sendTextStatus (VStr "") (VObj io));
       Call (MsgStore_get (VStr "3A07"));
       Call (serialize (VObj ∅))]
    /\ io !! "attachment" = Some image_media.
Proof. eexists. split; vm_compute; reflexivity. Qed.

(** The failing input of C6: a sleep interval that is narrower than 100. *)
Example approve_with_sleep :
  approveGroupMembershipRequests sample_page (VStr "5@g.us")
    (obj [("requesterIds", VArr [VStr "1@c.us"; VStr "2@c.us"]);
          ("sleep", VArr [VNum (Num 250); VNum (Num 300)])]) initial
  = {| final := initial;
       trace := [Call (group_approve (VStr "5@g.us")
                         (VArr [VStr "1@c.us"; VStr "2@c.us"]))];
       result := Normal (VObj ∅) |}.
Proof. vm_compute. reflexivity. Qed.

(** * Further properties *)

(** ** Construction of messages and notifications *)

Lemma defined_dec (v : value) : {defined v} + {v = VUndefined \/ v = VNull}.
Proof.
  destruct v; try (left; split; discriminate); right; auto.
Qed.

Lemma prop_Normal_iff (v : value) (k : string) :
  (exists r, prop v k = Normal r) <-> defined v.
Proof.
  split.
  - intros [r H]. apply prop_Normal in H as (_ & Hu & Hn). split; assumption.
  - intros [Hu Hn]. eexists. apply prop_defined; assumption.
Qed.

Lemma prop_Normal_defined (v : value) (k : string) (r : value) :
  prop v k = Normal r -> defined v.
Proof. intros H. apply (prop_Normal_iff v k). eauto. Qed.

Lemma prop_Throw (v : value) (k : string) (e : error) :
  prop v k = Throw e -> e = TypeError /\ ~ defined v.
Proof.
  destruct v; simpl; intros H; inversion H; split; auto; intros [Hu Hn]; congruence.
Qed.

Lemma mapM_prop (k : string) (cs : list value) :
  Forall defined cs ->
  mapM (fun c => prop c k) cs = Normal (List.map (fun c => get c k) cs).
Proof.
  induction 1 as [|c cs [Hu Hn] _ IH]; simpl; [reflexivity|].
  rewrite (prop_defined c k Hu Hn). simpl. rewrite IH. reflexivity.
Qed.

Lemma mapM_prop_inv (k : string) (cs : list value) (ys : list value) :
  mapM (fun c => prop c k) cs = Normal ys -> Forall defined cs.
Proof.
  revert ys. induction cs as [|c cs IH]; intros ys H; [constructor|].
  simpl in H. apply bind_Normal in H as (y & Hy & H).
  apply bind_Normal in H as (ys' & Hys & _).
  constructor; [|eapply IH; eassumption].
  eapply prop_Normal_defined; eassumption.
Qed.

Lemma mapM_prop_Throw (k : string) (cs : list value) (e : error) :
  mapM (fun c => prop c k) cs = Throw e -> e = TypeError.
Proof.
  induction cs as [|c cs IH]; simpl; [discriminate|].
  destruct (prop c k) eqn:Ec; simpl.
  - destruct (mapM _ cs); simpl; [discriminate|].
    intros H. inversion H. subst. apply IH. reflexivity.
  - apply prop_Throw in Ec as [-> _]. intros H. inversion H. reflexivity.
Qed.

Lemma has_property_Normal_iff (k : string) (v : value) :
  (exists b, has_property k v = Normal b) <-> is_object v.
Proof.
  split.
  - intros [b H]. destruct v; simpl in H; try discriminate; [right|left]; eauto.
  - intros [[o ->]|[xs ->]]; simpl; eauto.
Qed.

Section Construction.

Variable MT : MessageTypesT.

Lemma strict_eq_VStr_dec (v : value) (s : string) :
  (strict_eq v (VStr s) = true /\ v = VStr s)
  \/ (strict_eq v (VStr s) = false /\ v <> VStr s).
Proof.
  destruct (strict_eq v (VStr s)) eqn:E.
  - left. split; [reflexivity | apply strict_eq_VStr; exact E].
  - right. split; [reflexivity|]. intros H. apply strict_eq_VStr in H. congruence.
Qed.

Lemma vCards_of_Normal_iff (data : value) :
  (exists v, Message.vCards_of MT data = Normal v)
  <-> (get data "type" = VStr (CONTACT_CARD_MULTI MT) ->
       exists cs, get data "vcardList" = VArr cs /\ Forall defined cs).
Proof.
  unfold Message.vCards_of.
  destruct (strict_eq_VStr_dec (get data "type") (CONTACT_CARD_MULTI MT))
    as [[-> Heq]|[-> Hne]].
  - split.
    + intros [v H] _. destruct (get data "vcardList") eqn:E; try discriminate.
      apply bind_Normal in H as (vs & Hvs & _).
      eexists. split; [reflexivity|]. eapply mapM_prop_inv; eassumption.
    + intros H. destruct (H Heq) as (cs & -> & Hall).
      rewrite (mapM_prop "vcard" cs Hall). simpl. eauto.
  - split; [intros _ H; contradiction|]. intros _.
    destruct (strict_eq _ _); eauto.
Qed.

Lemma inviteV4_of_Normal_iff (data : value) :
  (exists v, Message.inviteV4_of MT data = Normal v)
  <-> (get data "type" = VStr (GROUP_INVITE MT) ->
       is_object (get data "from") /\ is_object (get data "to")).
Proof.
  unfold Message.inviteV4_of.
  destruct (strict_eq_VStr_dec (get data "type") (GROUP_INVITE MT))
    as [[-> Heq]|[-> Hne]].
  - split.
    + intros [v H] _.
      apply bind_Normal in H as (b1 & H1 & H).
      apply bind_Normal in H as (b2 & H2 & _).
      split; apply (has_property_Normal_iff "_serialized"); eauto.
    + intros H. destruct (H Heq) as [Hf Ht].
      apply (has_property_Normal_iff "_serialized") in Hf as [b1 ->].
      apply (has_property_Normal_iff "_serialized") in Ht as [b2 ->].
      simpl. eauto.
  - split; [intros _ H; contradiction | eauto].
Qed.

Lemma selectedRowId_of_Normal_iff (data : value) :
  (exists v, Message.selectedRowId_of data = Normal v)
  <-> (ToBoolean (get data "listResponse") = true ->
       defined (get (get data "listResponse") "singleSelectReply")).
Proof.
  unfold Message.selectedRowId_of.
  destruct (ToBoolean (get data "listResponse")) eqn:E.
  - destruct (truthy_defined _ E) as [Hu Hn].
    rewrite (prop_defined _ "singleSelectReply" Hu Hn). cbn [JS.bind].
    split.
    + intros [v H] _. apply bind_Normal in H as (row & Hrow & _).
      eapply prop_Normal_defined; eassumption.
    + intros H. destruct (H eq_refl) as [Hu' Hn'].
      rewrite (prop_defined _ "selectedRowId" Hu' Hn'). simpl. eauto.
  - split; [intros _ H; discriminate | intros _; simpl; eauto].
Qed.

Lemma patch_fields_Normal_iff (data : value) :
  (exists m, Message.patch_fields MT data = Normal m) <-> constructible MT data.
Proof.
  unfold constructible.
  rewrite <- vCards_of_Normal_iff, <- inviteV4_of_Normal_iff,
    <- selectedRowId_of_Normal_iff, <- (prop_Normal_iff (get data "id") "id").
  unfold Message.patch_fields. split.
  - intros [m H].
    apply bind_Normal in H as (i & Hi & H).
    apply bind_Normal in H as (vc & Hvc & H).
    apply bind_Normal in H as (iv & Hiv & H).
    apply bind_Normal in H as (row & Hrow & _).
    eauto 10.
  - intros ([i ->] & [vc ->] & [iv ->] & [row ->]). simpl. eauto.
Qed.

Lemma vCards_of_Throw (data : value) (e : error) :
  Message.vCards_of MT data = Throw e -> e = TypeError.
Proof.
  unfold Message.vCards_of.
  destruct (strict_eq (get data "type") (VStr (CONTACT_CARD_MULTI MT))).
  - destruct (get data "vcardList") as [| | | | |cs|];
      try (intros H; inversion H; reflexivity).
    destruct (mapM (fun c => prop c "vcard") cs) eqn:Em; simpl; [discriminate|].
    intros H. inversion H. subst. eapply mapM_prop_Throw; eassumption.
  - destruct (strict_eq _ _); discriminate.
Qed.

Lemma has_property_Throw (k : string) (v : value) (e : error) :
  has_property k v = Throw e -> e = TypeError.
Proof. destruct v; simpl; intros H; inversion H; reflexivity. Qed.

Lemma inviteV4_of_Throw (data : value) (e : error) :
  Message.inviteV4_of MT data = Throw e -> e = TypeError.
Proof.
  unfold Message.inviteV4_of.
  destruct (strict_eq _ _); [|discriminate].
  destruct (has_property "_serialized" (get data "from")) eqn:Ef; simpl;
    [|intros H; inversion H; subst; eapply has_property_Throw; eassumption].
  destruct (has_property "_serialized" (get data "to")) eqn:Et; simpl;
    [discriminate|intros H; inversion H; subst; eapply has_property_Throw; eassumption].
Qed.

Lemma selectedRowId_of_Throw (data : value) (e : error) :
  Message.selectedRowId_of data = Throw e -> e = TypeError.
Proof.
  unfold Message.selectedRowId_of.
  destruct (ToBoolean (get data "listResponse")); [|discriminate].
  destruct (prop (get data "listResponse") "singleSelectReply") as [r|e1] eqn:Es;
    simpl.
  - destruct (prop r "selectedRowId") eqn:Er; simpl; [discriminate|].
    apply prop_Throw in Er as [-> _]. intros H. inversion H; reflexivity.
  - apply prop_Throw in Es as [-> _]. intros H. inversion H; reflexivity.
Qed.

Lemma patch_fields_Throw (data : value) (e : error) :
  Message.patch_fields MT data = Throw e -> e = TypeError.
Proof.
  unfold Message.patch_fields.
  destruct (prop (get data "id") "id") eqn:E1; simpl;
    [|apply prop_Throw in E1 as [-> _]; intros H; inversion H; reflexivity].
  destruct (Message.vCards_of MT data) eqn:E2; simpl;
    [|intros H; inversion H; subst; eapply vCards_of_Throw; eassumption].
  destruct (Message.inviteV4_of MT data) eqn:E3; simpl;
    [|intros H; inversion H; subst; eapply inviteV4_of_Throw; eassumption].
  destruct (Message.selectedRowId_of data) eqn:E4; simpl;
    [discriminate|intros H; inversion H; subst; eapply selectedRowId_of_Throw; eassumption].
Qed.

Lemma new_Throw (data : value) (e : error) :
  Message.new MT data = Throw e -> e = TypeError.
Proof.
  unfold Message.new, Message._patch.
  destruct (ToBoolean data); [|discriminate].
  destruct data; try apply patch_fields_Throw; intros H; inversion H; reflexivity.
Qed.

End Construction.

(** X1.  [new Message(client, data)] on a snapshot object returns exactly
    when the snapshot has an [id], its [vcardList] is an array without
    holes if it is a multi-contact card, its [from] and [to] are objects if
    it is a group invitation, and its list response, if any, has a
    [singleSelectReply]; otherwise it throws a [TypeError]. *)
Theorem Message_new_returns_iff (MT : MessageTypesT) (o : gmap string value) :
  ((exists m, Message.new MT (VObj o) = Normal m) <-> constructible MT (VObj o))
  /\ (forall e, Message.new MT (VObj o) = Throw e -> e = TypeError).
Proof.
  split; [apply patch_fields_Normal_iff | apply new_Throw].
Qed.

(** ** Shape of a constructed message *)

Section Shape.

Variable MT : MessageTypesT.

Lemma patch_fields_shape (data : value) (m : Message.t) :
  Message.patch_fields MT data = Normal m ->
  (exists i, prop (get data "id") "id" = Normal i
             /\ Message.deviceType m = Message.device_type i)
  /\ Message.vCards_of MT data = Normal (Message.vCards m)
  /\ Message.body m
     = (if ToBoolean (and (get data "mediaKey") (get data "directPath"))
        then or (get data "caption") (VStr "")
        else or (or (get data "body") (get data "pollName")) (VStr ""))
  /\ Message.forwardingScore m = or (get data "forwardingScore") (VNum (Num 0))
  /\ Message.hasQuotedMsg m = VBool (ToBoolean (get data "quotedMsg"))
  /\ Message.hasReaction m = VBool (ToBoolean (get data "hasReaction"))
  /\ Message.isGif m = VBool (ToBoolean (get data "isGif"))
  /\ Message.location m = Message.location_of MT data
  /\ Message.mentionedIds m
     = (if ToBoolean (get data "mentionedJidList")
        then get data "mentionedJidList" else VArr [])
  /\ Message.author m = Message.serialized_or_self (get data "author")
  /\ Message.pollName m = (if is_poll MT data then get data "pollName" else VUndefined)
  /\ Message.pollOptions m
     = (if is_poll MT data then get data "pollOptions" else VUndefined)
  /\ Message.allowMultipleAnswers m
     = (if is_poll MT data
        then VBool (negb (ToBoolean (get data "pollSelectableOptionsCount")))
        else VUndefined).
Proof.
  unfold Message.patch_fields. intros H.
  apply bind_Normal in H as (i & Hi & H).
  apply bind_Normal in H as (vc & Hvc & H).
  apply bind_Normal in H as (iv & _ & H).
  apply bind_Normal in H as (row & _ & H).
  inversion H; subst m; clear H; cbn.
  split; [eauto|]. split; [exact Hvc|]. repeat split; reflexivity.
Qed.

Lemma vCards_of_array (data v : value) :
  Message.vCards_of MT data = Normal v -> is_array v.
Proof.
  unfold Message.vCards_of, is_array.
  destruct (strict_eq _ _).
  - destruct (get data "vcardList") as [| | | | |cs|]; try discriminate.
    intros H. apply bind_Normal in H as (vs & _ & H). inversion H. eauto.
  - destruct (strict_eq _ _); intros H; inversion H; eauto.
Qed.

Lemma device_type_cases (i : value) :
  Message.device_type i = VStr "android"
  \/ Message.device_type i = VStr "ios"
  \/ Message.device_type i = VStr "web".
Proof.
  unfold Message.device_type. destruct i; auto.
  destruct (_ <? _)%nat; auto. destruct (String.eqb _ _); auto.
Qed.

Lemma or_default (v d : value) : ToBoolean (or v d) = true \/ or v d = d.
Proof. unfold JS.or. destruct (ToBoolean v) eqn:E; auto. Qed.

Lemma location_of_Some (data : value) :
  Message.location_of MT data <> None <-> get data "type" = VStr (LOCATION MT).
Proof.
  unfold Message.location_of.
  destruct (strict_eq_VStr_dec (get data "type") (LOCATION MT)) as [[-> H]|[-> H]];
    simpl; split; auto; try discriminate; intros; congruence.
Qed.

End Shape.

(** X2.  Whatever the snapshot holds, a constructed message has fields of
    stable kinds: [hasMedia], [hasQuotedMsg], [hasReaction] and [isGif] are
    booleans, [vCards] is an array, [deviceType] is ['android'], ['ios'] or
    ['web'], [body] is a truthy value or [''], [forwardingScore] is a truthy
    value or [0], [mentionedIds] is never missing, and [location] is set
    exactly for the location type. *)
Theorem Message_fields_shape (MT : MessageTypesT) (o : gmap string value) (m : Message.t) :
  Message.new MT (VObj o) = Normal m ->
  is_boolean (Message.hasMedia m)
  /\ is_boolean (Message.hasQuotedMsg m)
  /\ is_boolean (Message.hasReaction m)
  /\ is_boolean (Message.isGif m)
  /\ is_array (Message.vCards m)
  /\ (Message.deviceType m = VStr "android"
      \/ Message.deviceType m = VStr "ios"
      \/ Message.deviceType m = VStr "web")
  /\ (ToBoolean (Message.body m) = true \/ Message.body m = VStr "")
  /\ (ToBoolean (Message.forwardingScore m) = true
      \/ Message.forwardingScore m = VNum (Num 0))
  /\ ToBoolean (Message.mentionedIds m) = true
  /\ (Message.location m <> None <-> get (VObj o) "type" = VStr (LOCATION MT)).
Proof.
  intros Hnew. apply new_truthy_inv in Hnew; [|reflexivity].
  pose proof (patch_fields_inv MT _ _ Hnew) as (Hmedia & _).
  apply patch_fields_shape in Hnew
    as ((i & _ & Hdev) & Hvc & Hbody & Hfwd & Hq & Hr & Hg & Hloc & Hment & _).
  unfold is_boolean.
  rewrite Hmedia, Hq, Hr, Hg, Hdev, Hbody, Hfwd, Hloc, Hment.
  split; [eauto|]. split; [eauto|]. split; [eauto|]. split; [eauto|].
  split; [eapply vCards_of_array; eassumption|].
  split; [apply device_type_cases|].
  split; [destruct (ToBoolean (and _ _)); apply or_default|].
  split; [apply or_default|].
  split; [destruct (ToBoolean (get (VObj o) "mentionedJidList")) eqn:E; [exact E|reflexivity]|].
  apply location_of_Some.
Qed.

(** ** Rebuilding a message from its raw data *)

Lemma get_delete_poll_fields (v : value) (k : string) :
  get (Message.delete_poll_fields v) k
  = if bool_decide (k ∈ poll_fields) then VUndefined else get v k.
Proof.
  destruct v; try (destruct (bool_decide _); reflexivity).
  unfold Message.delete_poll_fields, delete_prop, get, poll_fields.
  rewrite !lookup_delete.
  repeat (destruct (decide (_ = k)) as [<-|?]; [reflexivity|]).
  rewrite bool_decide_eq_false_2; [reflexivity|].
  rewrite !elem_of_cons, elem_of_nil. intuition congruence.
Qed.

Lemma get_delete_poll_fields_other (v : value) (k : string) :
  bool_decide (k ∈ poll_fields) = false ->
  get (Message.delete_poll_fields v) k = get v k.
Proof. intros H. rewrite get_delete_poll_fields, H. reflexivity. Qed.

Lemma constructible_delete_poll_fields (MT : MessageTypesT) (data : value) :
  constructible MT data -> constructible MT (Message.delete_poll_fields data).
Proof.
  unfold constructible.
  rewrite !get_delete_poll_fields_other by reflexivity. tauto.
Qed.

(** X3.  A message rebuilt from the raw data of a message is the same
    message, unless it is a poll creation: the poll fields were deleted from
    the raw data, so the rebuilt message is constructed but has no
    [pollName] and no [pollOptions], and allows multiple answers. *)
Theorem Message_rebuilt_from_rawData
    (MT : MessageTypesT) (o : gmap string value) (m : Message.t) :
  Message.new MT (VObj o) = Normal m ->
  (is_poll MT (VObj o) = false -> Message.new MT (Message.rawData m) = Normal m)
  /\ (is_poll MT (VObj o) = true ->
      Message.pollName m = get (VObj o) "pollName"
      /\ Message.pollOptions m = get (VObj o) "pollOptions"
      /\ exists m',
          Message.new MT (Message.rawData m) = Normal m'
          /\ Message.pollName m' = VUndefined
          /\ Message.pollOptions m' = VUndefined
          /\ Message.allowMultipleAnswers m' = VBool true).
Proof.
  intros Hnew. pose proof Hnew as Hp.
  apply new_truthy_inv in Hp; [|reflexivity].
  pose proof (patch_fields_inv MT _ _ Hp) as (_ & _ & Hdata & _).
  unfold Message.rawData. rewrite Hdata. split.
  - intros ->. exact Hnew.
  - intros Hpoll. rewrite Hpoll.
    pose proof (patch_fields_shape MT _ _ Hp)
      as (_ & _ & _ & _ & _ & _ & _ & _ & _ & _ & Hn & Ho & _).
    rewrite Hpoll in Hn, Ho. split; [exact Hn|]. split; [exact Ho|].
    assert (Hc : constructible MT (Message.delete_poll_fields (VObj o))).
    { apply constructible_delete_poll_fields.
      apply patch_fields_Normal_iff. eauto. }
    apply patch_fields_Normal_iff in Hc as [m' Hm'].
    exists m'. split; [exact Hm'|].
    apply patch_fields_shape in Hm'
      as (_ & _ & _ & _ & _ & _ & _ & _ & _ & _ & Hn' & Ho' & Ha').
    assert (Hpoll' : is_poll MT (Message.delete_poll_fields (VObj o)) = true).
    { unfold is_poll in *. rewrite get_delete_poll_fields_other by reflexivity.
      exact Hpoll. }
    rewrite Hpoll' in Hn', Ho', Ha'.
    rewrite get_delete_poll_fields in Hn', Ho', Ha'.
    split; [exact Hn'|]. split; [exact Ho'|]. exact Ha'.
Qed.

(** ** Construction of group notifications *)

Lemma serialized_of_object_Normal_iff (x : value) :
  (exists v, GroupNotification.serialized_of_object x = Normal v) <-> x <> VNull.
Proof.
  unfold GroupNotification.serialized_of_object.
  destruct x; simpl; split; eauto; try discriminate.
  - intros [v H]. discriminate H.
  - intros H. contradiction.
Qed.

Lemma serialized_of_object_Throw (x : value) (e : error) :
  GroupNotification.serialized_of_object x = Throw e -> e = TypeError /\ x = VNull.
Proof.
  unfold GroupNotification.serialized_of_object.
  destruct x; simpl; intros H; inversion H; auto.
Qed.

(** X4.  [new GroupNotification(client, data)] on a snapshot object returns
    exactly when the snapshot has an [id] whose [remote] is not [null] and
    its [author] is not [null]; it throws a [TypeError] otherwise.  In
    particular a [null] author makes it throw, while a message built from
    the same snapshot keeps [null] as its author. *)
Theorem GroupNotification_new_returns_iff (o : gmap string value) :
  ((exists n, GroupNotification.new (VObj o) = Normal n) <-> notifiable (VObj o))
  /\ (forall e, GroupNotification.new (VObj o) = Throw e -> e = TypeError)
  /\ (get (VObj o) "author" = VNull ->
      GroupNotification.new (VObj o) = Throw TypeError
      /\ forall MT m, Message.new MT (VObj o) = Normal m -> Message.author m = VNull).
Proof.
  assert (Hiff : (exists n, GroupNotification.new (VObj o) = Normal n)
                 <-> notifiable (VObj o)).
  { unfold notifiable.
    change (GroupNotification.new (VObj o)) with (GroupNotification._patch (VObj o)).
    unfold GroupNotification._patch. split.
    - intros [n H].
      apply bind_Normal in H as (remote & Hr & H).
      apply bind_Normal in H as (chat & Hc & H).
      apply bind_Normal in H as (author & Ha & _).
      pose proof (prop_Normal_defined _ _ _ Hr) as Hid.
      apply prop_Normal in Hr as (-> & _).
      split; [exact Hid|]. split; apply serialized_of_object_Normal_iff; eauto.
    - intros ([Hu Hn] & Hr & Ha).
      rewrite (prop_defined _ "remote" Hu Hn). cbn [JS.bind].
      apply serialized_of_object_Normal_iff in Hr as [chat ->].
      apply serialized_of_object_Normal_iff in Ha as [author ->].
      simpl. eauto. }
  assert (Hthrow : forall e, GroupNotification.new (VObj o) = Throw e -> e = TypeError).
  { change (GroupNotification.new (VObj o)) with (GroupNotification._patch (VObj o)).
    unfold GroupNotification._patch. intros e.
    destruct (prop (get (VObj o) "id") "remote") as [remote|e1] eqn:Er; simpl;
      [|apply prop_Throw in Er as [-> _]; intros H; inversion H; reflexivity].
    destruct (GroupNotification.serialized_of_object remote) eqn:Ec; simpl;
      [|apply serialized_of_object_Throw in Ec as [-> _];
        intros H; inversion H; reflexivity].
    destruct (GroupNotification.serialized_of_object (get (VObj o) "author")) eqn:Ea;
      simpl; [discriminate|].
    apply serialized_of_object_Throw in Ea as [-> _].
    intros H; inversion H; reflexivity. }
  split; [exact Hiff|]. split; [exact Hthrow|].
  intros Hnull. split.
  - destruct (GroupNotification.new (VObj o)) as [n|e] eqn:E.
    + assert (Hn : notifiable (VObj o)) by (apply Hiff; eauto).
      destruct Hn as (_ & _ & Ha). contradiction.
    + rewrite (Hthrow e eq_refl). reflexivity.
  - intros MT m Hnew. apply new_truthy_inv in Hnew; [|reflexivity].
    apply patch_fields_shape in Hnew
      as (_ & _ & _ & _ & _ & _ & _ & _ & _ & Hauthor & _).
    rewrite Hauthor, Hnull. reflexivity.
Qed.

(** ** More equations of the program monad *)

Lemma final_seq {A B} (h : program A) (k : A -> program B) st (P : locals -> Prop) :
  P (final (h st)) ->
  (forall a, result (h st) = Normal a -> P (final (k a (final (h st))))) ->
  P (final (seq h k st)).
Proof.
  intros Hh Hk. unfold seq. destruct (h st) as [f t [a|e]]; simpl in *; auto.
Qed.

Lemma frame_ret {A} (a : A) : frame (ret a).
Proof. intros st. reflexivity. Qed.

Lemma frame_lift {A} (c : completion A) : frame (lift c).
Proof. intros st. reflexivity. Qed.

Lemma frame_perform (a : action) : frame (perform a).
Proof. intros st. reflexivity. Qed.

Lemma frame_emit (e : Events) (args : list arg) : frame (emit e args).
Proof. intros st. reflexivity. Qed.

Lemma frame_request (respond : call -> completion value) (c : call) :
  frame (request respond c).
Proof. intros st. reflexivity. Qed.

Lemma frame_seq {A B} (h : program A) (k : A -> program B) :
  frame h -> (forall a, frame (k a)) -> frame (seq h k).
Proof.
  intros Hh Hk st. apply final_seq; [apply Hh|].
  intros a _. rewrite Hh. apply Hk.
Qed.

Ltac frame_step :=
  first
    [ apply frame_ret
    | apply frame_lift
    | apply frame_emit
    | apply frame_perform
    | apply frame_request
    | apply frame_seq; [|intros ?]
    | match goal with
      | |- frame (if ?b then _ else _) => destruct b
      | |- frame (match ?x with _ => _ end) => destruct x
      end ].

Lemma always_perform P (a : action) : P a -> always P (perform a).
Proof. intros H st. simpl. constructor; [exact H | constructor]. Qed.

Lemma always_emit P (e : Events) (args : list arg) :
  P (Emit e args) -> always P (emit e args).
Proof. apply always_perform. Qed.

Lemma always_read P : always P read.
Proof. intros st. constructor. Qed.

Lemma always_write P (st' : locals) : always P (write st').
Proof. intros st. constructor. Qed.

Ltac always_emit_step :=
  first
    [ apply always_ret
    | apply always_lift
    | apply always_read
    | apply always_write
    | apply always_emit
    | apply always_perform
    | apply always_seq; [|intros ?]
    | match goal with
      | |- always _ (if ?b then _ else _) => destruct b
      | |- always _ (match ?x with _ => _ end) => destruct x
      end ].

(** ** The handlers as a whole *)

Section Session.

Variable MT : MessageTypesT.
Variable W : WAStateT.
Variable opts : options.

Lemma onAddMessageEvent_frame (msg : value) : frame (onAddMessageEvent MT msg).
Proof. unfold onAddMessageEvent. repeat frame_step. Qed.

Lemma onRemoveMessageEvent_frame (msg : value) : frame (onRemoveMessageEvent MT msg).
Proof. unfold onRemoveMessageEvent. repeat frame_step. Qed.

Lemma onMessageAckEvent_frame (msg ack : value) : frame (onMessageAckEvent MT msg ack).
Proof. unfold onMessageAckEvent. repeat frame_step. Qed.

Lemma onMessageMediaUploadedEvent_frame (msg : value) :
  frame (onMessageMediaUploadedEvent MT msg).
Proof. unfold onMessageMediaUploadedEvent. repeat frame_step. Qed.

Lemma onAppStateChangedEvent_frame (state : value) :
  frame (onAppStateChangedEvent W opts state).
Proof. intros st. rewrite onAppStateChangedEvent_trace. reflexivity. Qed.

Lemma qrChanged_final (qr : value) st :
  last_message (final (qrChanged opts qr st)) = last_message st.
Proof.
  unfold qrChanged. rewrite seq_emit. cbn [after final].
  destruct (number_gtb _ _); [|reflexivity].
  rewrite seq_read, seq_write, seq_read. cbn [qrRetries].
  destruct (counter_gtb _ _); reflexivity.
Qed.

(** The slot after [onChangeMessageTypeEvent]: untouched, or the snapshot
    it held as [_patch] left it. *)
Lemma onChangeMessageTypeEvent_final (msg : value) st :
  let st' := final (onChangeMessageTypeEvent MT msg st) in
  qrRetries st' = qrRetries st
  /\ (last_message st' = last_message st
      \/ last_message st' = Message.delete_poll_fields (last_message st)).
Proof.
  unfold onChangeMessageTypeEvent.
  apply final_seq_lift; [auto|]. intros ty _.
  destruct (strict_eq ty (VStr "revoked")); [|cbn; auto].
  apply final_seq_lift; [auto|]. intros m _.
  rewrite seq_read.
  destruct (ToBoolean (last_message st)) eqn:Hslot.
  - rewrite !seq_assoc.
    apply final_seq_lift; [auto|]. intros i _.
    rewrite seq_assoc.
    apply final_seq_lift; [auto|]. intros j _.
    destruct (strict_eq i j).
    + rewrite seq_assoc.
      apply final_seq_lift; [auto|]. intros rm Hrm.
      rewrite !seq_assoc, seq_write, seq_ret. cbn.
      split; [reflexivity|].
      apply new_truthy_inv in Hrm; [|exact Hslot].
      apply patch_fields_inv in Hrm as (_ & _ & -> & _).
      destruct (is_poll MT (last_message st)); auto.
    + rewrite seq_ret. cbn. auto.
  - rewrite seq_ret. cbn. auto.
Qed.

(** The slot after [onChangeMessageEvent]: untouched, or the observed
    snapshot, possibly as [_patch] left it; the latter only for a snapshot
    that is not revoked. *)
Lemma onChangeMessageEvent_final (msg : value) st :
  let st' := final (onChangeMessageEvent MT msg st) in
  qrRetries st' = qrRetries st
  /\ (last_message st' = last_message st
      \/ (get msg "type" <> VStr "revoked"
          /\ (last_message st' = msg
              \/ last_message st' = Message.delete_poll_fields msg))).
Proof.
  destruct (defined_dec msg) as [[Hu Hn]|Hnot].
  - rewrite onChangeMessageEvent_start by assumption.
    assert (Hrem : qrRetries (remember msg st) = qrRetries st
                   /\ (last_message (remember msg st) = last_message st
                       \/ (get msg "type" <> VStr "revoked"
                           /\ last_message (remember msg st) = msg))).
    { unfold remember.
      destruct (strict_eq_VStr_dec (get msg "type") "revoked") as [[-> _]|[-> H]];
        cbn; auto. }
    destruct Hrem as [Hq Hslot].
    set (st1 := remember msg st) in *.
    destruct (isParticipant msg || isContact msg) eqn:Hb.
    + assert (Hty : get msg "type" <> VStr "revoked").
      { apply orb_true_iff in Hb as [H|H].
        - apply isParticipant_true in H as [-> _]. discriminate.
        - apply isContact_true in H as [-> _]. discriminate. }
      assert (Ht : ToBoolean msg = true).
      { apply orb_true_iff in Hb as [H|H].
        - apply isParticipant_true in H as [H _]. exact (get_VStr_truthy _ _ _ H).
        - apply isContact_true in H as [H _]. exact (get_VStr_truthy _ _ _ H). }
      apply final_seq_lift.
      { split; [exact Hq|]. destruct Hslot as [H|[_ H]]; auto. }
      intros m Hm. rewrite seq_read, seq_write.
      apply new_truthy_inv in Hm; [|exact Ht].
      apply patch_fields_inv in Hm as (_ & _ & Hd & _).
      assert (Hgoal : qrRetries st1 = qrRetries st
                      /\ (Message._data m = last_message st
                          \/ get msg "type" <> VStr "revoked"
                             /\ (Message._data m = msg
                                 \/ Message._data m = Message.delete_poll_fields msg))).
      { split; [exact Hq|]. right. split; [exact Hty|].
        rewrite Hd. destruct (is_poll MT msg); auto. }
      apply final_seq_lift; [exact Hgoal|]. intros newId _.
      apply final_seq_lift; [exact Hgoal|]. intros oldId _.
      exact Hgoal.
    + cbn. split; [exact Hq|]. destruct Hslot as [H|[H1 H2]]; auto.
  - unfold onChangeMessageEvent.
    rewrite (seq_lift_Throw _ TypeError); [cbn; auto|].
    destruct Hnot as [-> | ->]; reflexivity.
Qed.

End Session.

Section SessionInvariants.

Variable MT : MessageTypesT.
Variable W : WAStateT.
Variable opts : options.

Lemma deliver_slot (x : exposed) st :
  slot_not_revoked st -> slot_not_revoked (final (deliver MT W opts x st)).
Proof.
  unfold slot_not_revoked. intros Hst. destruct x; cbn [deliver].
  - rewrite qrChanged_final. exact Hst.
  - rewrite onAddMessageEvent_frame. exact Hst.
  - destruct (onChangeMessageTypeEvent_final MT msg st) as [_ [-> | ->]];
      [exact Hst|].
    rewrite get_delete_poll_fields_other by reflexivity. exact Hst.
  - destruct (onChangeMessageEvent_final MT msg st) as [_ [-> | [Hty [-> | ->]]]];
      [exact Hst | exact Hty |].
    rewrite get_delete_poll_fields_other by reflexivity. exact Hty.
  - rewrite onRemoveMessageEvent_frame. exact Hst.
  - rewrite onMessageAckEvent_frame. exact Hst.
  - rewrite onMessageMediaUploadedEvent_frame. exact Hst.
  - rewrite onAppStateChangedEvent_frame. exact Hst.
Qed.

Lemma deliver_counter (x : exposed) st :
  counter_unset st -> counter_unset (final (deliver MT W opts x st)).
Proof.
  unfold counter_unset. intros Hst. destruct x; cbn [deliver].
  - rewrite (qrChanged_step opts qr st Hst). cbn [final].
    destruct (number_gtb _ _); [right; reflexivity | exact Hst].
  - rewrite onAddMessageEvent_frame. exact Hst.
  - destruct (onChangeMessageTypeEvent_final MT msg st) as [-> _]. exact Hst.
  - destruct (onChangeMessageEvent_final MT msg st) as [-> _]. exact Hst.
  - rewrite onRemoveMessageEvent_frame. exact Hst.
  - rewrite onMessageAckEvent_frame. exact Hst.
  - rewrite onMessageMediaUploadedEvent_frame. exact Hst.
  - rewrite onAppStateChangedEvent_frame. exact Hst.
Qed.

Lemma filter_quiet (f : action -> bool) (l : list action) :
  Forall (fun a => f a = false) l -> List.filter f l = [].
Proof.
  induction 1 as [|a l Ha _ IH]; simpl; [reflexivity|]. rewrite Ha. exact IH.
Qed.

Lemma quiet_handlers (x : exposed) :
  (forall s, x <> AppStateChangedEvent s) -> (forall q, x <> QrChanged q) ->
  always quiet (deliver MT W opts x).
Proof.
  intros Hs Hq. destruct x; cbn [deliver];
    try (exfalso; eapply Hs; reflexivity); try (exfalso; eapply Hq; reflexivity).
  - unfold onAddMessageEvent. repeat always_emit_step; split; reflexivity.
  - unfold onChangeMessageTypeEvent. repeat always_emit_step; split; reflexivity.
  - unfold onChangeMessageEvent. repeat always_emit_step; split; reflexivity.
  - unfold onRemoveMessageEvent. repeat always_emit_step; split; reflexivity.
  - unfold onMessageAckEvent. repeat always_emit_step; split; reflexivity.
  - unfold onMessageMediaUploadedEvent. repeat always_emit_step; split; reflexivity.
Qed.

Lemma deliver_disconnects (x : exposed) st :
  counter_unset st ->
  List.filter is_disconnected (trace (deliver MT W opts x st))
  = List.map (fun s => Emit DISCONNECTED [ArgValue s]) (rejected_states W opts [x])
  /\ length (List.filter is_destroy (trace (deliver MT W opts x st)))
     = length (rejected_states W opts [x]).
Proof.
  intros Hst.
  assert (Hquiet : (forall s, x <> AppStateChangedEvent s) ->
                   (forall q, x <> QrChanged q) ->
                   List.filter is_disconnected (trace (deliver MT W opts x st)) = []
                   /\ List.filter is_destroy (trace (deliver MT W opts x st)) = []).
  { intros Hs Hq. pose proof (quiet_handlers x Hs Hq st) as Hall.
    split; apply filter_quiet; eapply Forall_impl; try exact Hall;
      intros a [H1 H2]; assumption. }
  destruct x; try (destruct Hquiet as [-> ->]; [discriminate | discriminate |];
                   split; reflexivity).
  - cbn [deliver]. rewrite (qrChanged_step opts qr st Hst). split; reflexivity.
  - cbn [deliver rejected_states]. rewrite onAppStateChangedEvent_trace.
    cbn [trace].
    set (timer := if ToBoolean (takeoverOnConflict opts)
                     && strict_eq state (VStr (CONFLICT W))
                  then [SetTimeoutTakeover (takeoverTimeoutMs opts)] else []).
    assert (Ht : List.filter is_disconnected timer = []
                 /\ List.filter is_destroy timer = []).
    { subst timer. destruct (_ && _); split; reflexivity. }
    destruct Ht as [Ht1 Ht2].
    cbn [List.filter is_disconnected is_destroy].
    rewrite !List.filter_app, Ht1, Ht2.
    destruct (includes (allow_list W opts) state); split; reflexivity.
Qed.

Lemma rejected_states_cons (x : exposed) (xs : list exposed) :
  rejected_states W opts (x :: xs)
  = rejected_states W opts [x] ++ rejected_states W opts xs.
Proof.
  destruct x; try reflexivity. cbn [rejected_states].
  destruct (includes _ _); reflexivity.
Qed.

Lemma invocations_invariants (xs : list exposed) st :
  slot_not_revoked st -> counter_unset st ->
  let run := invocations (deliver MT W opts) xs st in
  slot_not_revoked (fst run)
  /\ counter_unset (fst run)
  /\ List.filter is_disconnected (snd run)
     = List.map (fun s => Emit DISCONNECTED [ArgValue s]) (rejected_states W opts xs)
  /\ length (List.filter is_destroy (snd run)) = length (rejected_states W opts xs).
Proof.
  revert st. induction xs as [|x xs IH]; intros st Hslot Hcnt.
  - cbn. auto.
  - cbn [invocations fst snd].
    destruct (IH _ (deliver_slot x st Hslot) (deliver_counter x st Hcnt))
      as (H1 & H2 & H3 & H4).
    destruct (deliver_disconnects x st Hcnt) as [H5 H6].
    split; [exact H1|]. split; [exact H2|].
    rewrite rejected_states_cons, !List.filter_app, List.map_app,
      !List.length_app, H3, H4, H5, H6.
    split; reflexivity.
Qed.

End SessionInvariants.

(** X5.  Whichever of the handlers the page calls, in whatever order, the
    last-message slot never holds a revoked message: the test
    [type === 'revoked'] fails on the snapshot it holds. *)
Theorem slot_never_revoked
    (MT : MessageTypesT) (W : WAStateT) (opts : options) (xs : list exposed) :
  strict_eq (get (last_message (fst (invocations (deliver MT W opts) xs initial))) "type")
            (VStr "revoked")
  = false.
Proof.
  apply strict_eq_VStr_false.
  apply (invocations_invariants MT W opts xs initial); [discriminate | left; reflexivity].
Qed.

(** X6.  Over a whole session the [disconnected] events emitted by the
    handlers are exactly those of the connection states outside the
    allow-list, in order, and [destroy] is called once for each of them:
    no number of [qrChanged] calls, interleaved with anything, ends the
    session. *)
Theorem session_ends_only_on_state
    (MT : MessageTypesT) (W : WAStateT) (opts : options) (xs : list exposed) :
  let run := invocations (deliver MT W opts) xs initial in
  List.filter is_disconnected (snd run)
  = List.map (fun s => Emit DISCONNECTED [ArgValue s]) (rejected_states W opts xs)
  /\ length (List.filter is_destroy (snd run)) = length (rejected_states W opts xs).
Proof.
  apply (invocations_invariants MT W opts xs initial); [discriminate | left; reflexivity].
Qed.

(** ** Handlers that throw *)

Section Atomicity.

Variable MT : MessageTypesT.

Lemma lift_then_emit_atomic {A} (c : completion A) (k : A -> program unit) st :
  (forall a, c = Normal a -> forall e, result (k a st) = Throw e -> trace (k a st) = []) ->
  forall e, result (seq (lift c) k st) = Throw e -> trace (seq (lift c) k st) = [].
Proof.
  intros Hk e. destruct c as [a|e'].
  - rewrite (seq_lift_Normal _ a) by reflexivity. apply Hk. reflexivity.
  - rewrite (seq_lift_Throw _ e') by reflexivity. reflexivity.
Qed.

Lemma onAddMessageEvent_atomic (o : gmap string value) st (e : error) :
  result (onAddMessageEvent MT (VObj o) st) = Throw e ->
  trace (onAddMessageEvent MT (VObj o) st) = [].
Proof.
  destruct (strict_eq_VStr_dec (get (VObj o) "type") "gp2") as [[Hgp _]|[_ Hne]].
  - unfold onAddMessageEvent.
    rewrite (seq_lift_Normal _ (get (VObj o) "type")) by reflexivity.
    rewrite Hgp. revert e. apply lift_then_emit_atomic. intros n _ e.
    repeat match goal with
           | |- context [if ?b then _ else _] => destruct b
           end; discriminate.
  - destruct (Message.new MT (VObj o)) as [m|e'] eqn:Hnew.
    + rewrite (onAddMessageEvent_message MT (VObj o) m st eq_refl Hne Hnew).
      discriminate.
    + intros _. unfold onAddMessageEvent.
      rewrite (seq_lift_Normal _ (get (VObj o) "type")) by reflexivity.
      rewrite (strict_eq_VStr_false _ _ Hne).
      rewrite (seq_lift_Throw _ e') by exact Hnew. reflexivity.
Qed.

Lemma onChangeMessageTypeEvent_atomic (msg : value) st (e : error) :
  result (onChangeMessageTypeEvent MT msg st) = Throw e ->
  trace (onChangeMessageTypeEvent MT msg st) = [].
Proof.
  unfold onChangeMessageTypeEvent. revert e.
  apply lift_then_emit_atomic. intros ty _ e.
  destruct (strict_eq ty (VStr "revoked")); [|discriminate].
  revert e. apply lift_then_emit_atomic. intros m _ e.
  rewrite seq_read.
  destruct (ToBoolean (last_message st)).
  - rewrite !seq_assoc. revert e.
    apply lift_then_emit_atomic. intros i _ e.
    rewrite seq_assoc. revert e.
    apply lift_then_emit_atomic. intros j _ e.
    destruct (strict_eq i j).
    + rewrite seq_assoc. revert e.
      apply lift_then_emit_atomic. intros rm _ e.
      rewrite !seq_assoc, seq_write, seq_ret. discriminate.
    + rewrite seq_ret. discriminate.
  - rewrite seq_ret. discriminate.
Qed.

Lemma onChangeMessageEvent_atomic (msg : value) st (e : error) :
  result (onChangeMessageEvent MT msg st) = Throw e ->
  trace (onChangeMessageEvent MT msg st) = [].
Proof.
  destruct (defined_dec msg) as [[Hu Hn]|Hnot].
  - rewrite onChangeMessageEvent_start by assumption.
    destruct (isParticipant msg || isContact msg); [|discriminate].
    revert e. apply lift_then_emit_atomic. intros m _ e.
    rewrite seq_read, seq_write. revert e.
    apply lift_then_emit_atomic. intros newId _.
    apply lift_then_emit_atomic. intros oldId _ e. discriminate.
  - intros _. unfold onChangeMessageEvent.
    rewrite (seq_lift_Throw _ TypeError); [reflexivity|].
    destruct Hnot as [-> | ->]; reflexivity.
Qed.

Lemma onRemoveMessageEvent_atomic (msg : value) st (e : error) :
  result (onRemoveMessageEvent MT msg st) = Throw e ->
  trace (onRemoveMessageEvent MT msg st) = [].
Proof.
  unfold onRemoveMessageEvent. revert e.
  apply lift_then_emit_atomic. intros isNew _ e.
  destruct (negb (ToBoolean isNew)); [discriminate|].
  revert e. apply lift_then_emit_atomic. intros m _ e. discriminate.
Qed.

End Atomicity.

(** X7.  A message handler that throws has emitted nothing: for a snapshot
    object, [onAddMessageEvent], [onChangeMessageTypeEvent],
    [onChangeMessageEvent], [onRemoveMessageEvent], [onMessageAckEvent] and
    [onMessageMediaUploadedEvent] either return, or throw with an empty
    trace; no subscriber sees [message_create] without the handler then
    completing. *)
Theorem handlers_throw_before_emitting
    (MT : MessageTypesT) (o : gmap string value) (ack : value) (st : locals) (e : error) :
  let msg := VObj o in
  (result (onAddMessageEvent MT msg st) = Throw e ->
   trace (onAddMessageEvent MT msg st) = [])
  /\ (result (onChangeMessageTypeEvent MT msg st) = Throw e ->
      trace (onChangeMessageTypeEvent MT msg st) = [])
  /\ (result (onChangeMessageEvent MT msg st) = Throw e ->
      trace (onChangeMessageEvent MT msg st) = [])
  /\ (result (onRemoveMessageEvent MT msg st) = Throw e ->
      trace (onRemoveMessageEvent MT msg st) = [])
  /\ (result (onMessageAckEvent MT msg ack st) = Throw e ->
      trace (onMessageAckEvent MT msg ack st) = [])
  /\ (result (onMessageMediaUploadedEvent MT msg st) = Throw e ->
      trace (onMessageMediaUploadedEvent MT msg st) = []).
Proof.
  intros msg. repeat split.
  - apply onAddMessageEvent_atomic.
  - apply onChangeMessageTypeEvent_atomic.
  - apply onChangeMessageEvent_atomic.
  - apply onRemoveMessageEvent_atomic.
  - unfold onMessageAckEvent. revert e.
    apply lift_then_emit_atomic. intros m _ e. discriminate.
  - unfold onMessageMediaUploadedEvent. revert e.
    apply lift_then_emit_atomic. intros m _ e. discriminate.
Qed.

(** ** Group notifications and local removals *)

(** X8.  A new message of type ['gp2'] from which a notification [n] is
    built is emitted as exactly one event, one of the five group events,
    carrying [n]: never as [message_create] or [message].  The subtype
    decides which, and a subtype that is not listed is a [group_update]. *)
Theorem group_notification_event
    (MT : MessageTypesT) (o : gmap string value) (n : GroupNotification.t) (st : locals) :
  get (VObj o) "type" = VStr "gp2" ->
  GroupNotification.new (VObj o) = Normal n ->
  let subtype := get (VObj o) "subtype" in
  exists event,
    onAddMessageEvent MT (VObj o) st
    = {| final := st; trace := [Emit event [ArgNotification n]]; result := Normal tt |}
    /\ In event group_events
    /\ (event = GROUP_JOIN
        <-> subtype = VStr "add" \/ subtype = VStr "invite"
            \/ subtype = VStr "linked_group_join")
    /\ (event = GROUP_LEAVE <-> subtype = VStr "remove" \/ subtype = VStr "leave")
    /\ (event = GROUP_ADMIN_CHANGED
        <-> subtype = VStr "promote" \/ subtype = VStr "demote")
    /\ (event = GROUP_MEMBERSHIP_REQUEST
        <-> subtype = VStr "created_membership_requests").
Proof.
  intros Hty Hn subtype.
  assert (Hrun : forall event,
             (if existsb (strict_eq subtype)
                   [VStr "add"; VStr "invite"; VStr "linked_group_join"]
              then GROUP_JOIN
              else if strict_eq subtype (VStr "remove") || strict_eq subtype (VStr "leave")
              then GROUP_LEAVE
              else if strict_eq subtype (VStr "promote")
                      || strict_eq subtype (VStr "demote")
              then GROUP_ADMIN_CHANGED
              else if strict_eq subtype (VStr "created_membership_requests")
              then GROUP_MEMBERSHIP_REQUEST
              else GROUP_UPDATE) = event ->
             onAddMessageEvent MT (VObj o) st
             = {| final := st; trace := [Emit event [ArgNotification n]];
                  result := Normal tt |}).
  { intros event <-. unfold onAddMessageEvent.
    rewrite (seq_lift_Normal _ (get (VObj o) "type")) by reflexivity.
    rewrite Hty. change (strict_eq (VStr "gp2") (VStr "gp2")) with true. cbv iota.
    rewrite (seq_lift_Normal _ n) by exact Hn.
    fold subtype.
    destruct (existsb _ _); [reflexivity|].
    destruct (_ || _); [reflexivity|].
    destruct (_ || _); [reflexivity|].
    destruct (strict_eq _ _); reflexivity. }
  cbn [existsb] in Hrun.
  pose proof (strict_eq_VStr subtype "add") as Ha.
  pose proof (strict_eq_VStr subtype "invite") as Hi.
  pose proof (strict_eq_VStr subtype "linked_group_join") as Hl.
  pose proof (strict_eq_VStr subtype "remove") as Hr.
  pose proof (strict_eq_VStr subtype "leave") as Hv.
  pose proof (strict_eq_VStr subtype "promote") as Hp.
  pose proof (strict_eq_VStr subtype "demote") as Hd.
  pose proof (strict_eq_VStr subtype "created_membership_requests") as Hm.
  unfold group_events.
  destruct (strict_eq subtype (VStr "add")) eqn:E1;
    [exists GROUP_JOIN; split; [apply Hrun; reflexivity|];
     apply proj1 in Ha; specialize (Ha eq_refl); rewrite Ha;
     repeat split; simpl; auto; intros; intuition discriminate|].
  destruct (strict_eq subtype (VStr "invite")) eqn:E2;
    [exists GROUP_JOIN; split; [apply Hrun; reflexivity|];
     apply proj1 in Hi; specialize (Hi eq_refl); rewrite Hi;
     repeat split; simpl; auto; intros; intuition discriminate|].
  destruct (strict_eq subtype (VStr "linked_group_join")) eqn:E3;
    [exists GROUP_JOIN; split; [apply Hrun; reflexivity|];
     apply proj1 in Hl; specialize (Hl eq_refl); rewrite Hl;
     repeat split; simpl; auto; intros; intuition discriminate|].
  destruct (strict_eq subtype (VStr "remove")) eqn:E4;
    [exists GROUP_LEAVE; split; [apply Hrun; reflexivity|];
     apply proj1 in Hr; specialize (Hr eq_refl); rewrite Hr;
     repeat split; simpl; auto; intros; intuition discriminate|].
  destruct (strict_eq subtype (VStr "leave")) eqn:E5;
    [exists GROUP_LEAVE; split; [apply Hrun; reflexivity|];
     apply proj1 in Hv; specialize (Hv eq_refl); rewrite Hv;
     repeat split; simpl; auto; intros; intuition discriminate|].
  destruct (strict_eq subtype (VStr "promote")) eqn:E6;
    [exists GROUP_ADMIN_CHANGED; split; [apply Hrun; reflexivity|];
     apply proj1 in Hp; specialize (Hp eq_refl); rewrite Hp;
     repeat split; simpl; auto; intros; intuition discriminate|].
  destruct (strict_eq subtype (VStr "demote")) eqn:E7;
    [exists GROUP_ADMIN_CHANGED; split; [apply Hrun; reflexivity|];
     apply proj1 in Hd; specialize (Hd eq_refl); rewrite Hd;
     repeat split; simpl; auto; intros; intuition discriminate|].
  destruct (strict_eq subtype (VStr "created_membership_requests")) eqn:E8;
    [exists GROUP_MEMBERSHIP_REQUEST; split; [apply Hrun; reflexivity|];
     apply proj1 in Hm; specialize (Hm eq_refl); rewrite Hm;
     repeat split; simpl; auto; intros; intuition discriminate|].
  exists GROUP_UPDATE. split; [apply Hrun; reflexivity|].
  split; [simpl; auto 10|].
  repeat split; intros H; try discriminate H; exfalso;
    intuition (try discriminate).
Qed.

(** ** The function evaluated in the page by [sendMessage] *)

Section SendInPage.

Variable respond : call -> completion value.

Lemma request_first {B} (c : call) (k : value -> program B) st :
  exists rest, trace (seq (request respond c) k st) = Call c :: rest.
Proof. rewrite seq_request. cbn [after trace]. eauto. Qed.

(** X9.  In the page, a post to ['status@broadcast'] of a string starts
    with [sendTextStatus]; of another value whose [mimetype] contains
    ['image'] with [sendImageStatus] on its data URL (also when it contains
    ['video'] too); of one whose [mimetype] contains ['video'] only with
    [sendVideoStatus]; anything else is rejected with ['Invalid type for
    status broadcast'], and [undefined] or [null] with a [TypeError], in
    both cases before any call is made. *)
Theorem status_dispatch_in_page (message options sendSeen : value) (st : locals) :
  let out := send_in_page respond (VStr "status@broadcast") message options sendSeen st in
  (forall s, message = VStr s ->
             exists rest, trace out = Call (status_sendTextStatus message options) :: rest)
  /\ (typeof message <> "string" -> defined message ->
      (test "image" (get message "mimetype") = true ->
       exists rest,
         trace out = Call (status_sendImageStatus (data_url message) options) :: rest)
      /\ (test "image" (get message "mimetype") = false ->
          test "video" (get message "mimetype") = true ->
          exists rest,
            trace out = Call (status_sendVideoStatus (data_url message) options) :: rest)
      /\ (test "image" (get message "mimetype") = false ->
          test "video" (get message "mimetype") = false ->
          trace out = []
          /\ result out = Throw (Error "Invalid type for status broadcast")))
  /\ (~ defined message -> trace out = [] /\ result out = Throw TypeError).
Proof.
  intros out. subst out. unfold send_in_page.
  change (strict_eq (VStr "status@broadcast") (VStr "status@broadcast")) with true.
  cbv iota. split; [|split].
  - intros s ->. cbn [typeof]. change ("string" =? "string")%string with true.
    cbv iota. apply request_first.
  - intros Hty [Hu Hn].
    assert (Hs : (typeof message =? "string")%string = false)
      by (apply String.eqb_neq; exact Hty).
    rewrite Hs. rewrite (seq_lift_Normal _ _ _ _ (prop_defined _ "mimetype" Hu Hn)).
    split; [|split].
    + intros ->. apply request_first.
    + intros -> ->. apply request_first.
    + intros -> ->. split; reflexivity.
  - intros Hnot.
    assert (Hm : message = VUndefined \/ message = VNull).
    { destruct (defined_dec message); [contradiction | assumption]. }
    destruct Hm as [-> | ->]; split; reflexivity.
Qed.

(** X10.  In the page, a message for an ordinary chat resolves the chat
    from its id, marks it seen if and only if [sendSeen] is truthy, submits
    the message and serializes the stored result, in that order; when the
    chat cannot be found nothing is marked or submitted. *)
Theorem ordinary_chat_in_page
    (chatId message options sendSeen wid : value) (st : locals) :
  strict_eq chatId (VStr "status@broadcast") = false ->
  respond (WidFactory_createWid chatId) = Normal wid ->
  let out := send_in_page respond chatId message options sendSeen st in
  (forall e, respond (ChatStore_find wid) = Throw e ->
             trace out = [Call (WidFactory_createWid chatId); Call (ChatStore_find wid)]
             /\ result out = Throw e)
  /\ (forall chat seen msg snapshot,
         respond (ChatStore_find wid) = Normal chat ->
         respond (functions_sendSeen chat) = Normal seen ->
         respond (WAJS_sendMessage chat message options sendSeen) = Normal msg ->
         defined msg ->
         respond (serialize msg) = Normal snapshot ->
         result out = Normal snapshot
         /\ trace out
            = [Call (WidFactory_createWid chatId); Call (ChatStore_find wid)]
              ++ (if ToBoolean sendSeen then [Call (functions_sendSeen chat)] else [])
              ++ [Call (WAJS_sendMessage chat message options sendSeen);
                  Call (serialize msg)]).
Proof.
  intros Hchat Hwid out. subst out. unfold send_in_page. rewrite Hchat.
  rewrite seq_request, Hwid, seq_request. split.
  - intros e ->. split; reflexivity.
  - intros chat seen msg snapshot -> Hseen Hsend [Hu Hn] Hser.
    destruct (ToBoolean sendSeen).
    + rewrite seq_assoc, seq_request, Hseen, seq_ret, seq_request, Hsend.
      destruct msg; try congruence; rewrite request_run, Hser; split; reflexivity.
    + rewrite seq_ret, seq_request, Hsend.
      destruct msg; try congruence; rewrite request_run, Hser; split; reflexivity.
Qed.

End SendInPage.

(** ** What [sendMessage] submits *)

Section Submissions.

Variable MT : MessageTypesT.
Variable respond : call -> completion value.

Lemma dispatch_inv (content : content) (options : MessageSendOptions)
    (io io' : gmap string value) (c' : value) :
  dispatch content options io = Normal (c', io') ->
  (c' = VStr ""
   /\ (io' = <["isViewOnce" := isViewOnce options]>
               (<["attachment" := plain content]> io)
       \/ io' = <["isViewOnce" := isViewOnce options]>
                  (<["caption" := plain content]>
                     (<["attachment" := plain (media options)]> io))
       \/ io' = <["location" := plain content]> io
       \/ io' = <["poll" := plain content]> io
       \/ (exists card, io' = <["contactCard" := card]> io)
       \/ (exists cards, io' = <["contactCardList" := VArr cards]> io)))
  \/ (c' = plain content /\ io' = io).
Proof.
  unfold dispatch.
  destruct (content_instanceof content MessageMedia).
  { intros [= <- <-]. left. split; [reflexivity|]. tauto. }
  destruct (content_instanceof (media options) MessageMedia).
  { intros [= <- <-]. left. split; [reflexivity|]. tauto. }
  destruct (content_instanceof content Location).
  { intros [= <- <-]. left. split; [reflexivity|]. tauto. }
  destruct (content_instanceof content Poll).
  { intros [= <- <-]. left. split; [reflexivity|]. tauto. }
  destruct (content_instanceof content Contact).
  { intros H. apply bind_Normal in H as (card & _ & [= <- <-]).
    left. split; [reflexivity|]. do 4 right. left. eauto. }
  destruct content as [x|[|x xs]]; try (intros [= <- <-]; right; split; reflexivity).
  destruct (instanceof x Contact).
  - intros H. apply bind_Normal in H as (cards & _ & [= <- <-]).
    left. split; [reflexivity|]. do 5 right. eauto.
  - intros [= <- <-]. right. split; reflexivity.
Qed.

Lemma always_seq_lift P {A B} (c : completion A) (k : A -> program B) :
  (forall a, c = Normal a -> always P (k a)) -> always P (seq (lift c) k).
Proof.
  intros H st. destruct c as [a|e].
  - rewrite (seq_lift_Normal _ a) by reflexivity. apply H. reflexivity.
  - rewrite (seq_lift_Throw _ e) by reflexivity. constructor.
Qed.

Lemma always_seq_result P {A B} (h : program A) (k : A -> program B) :
  always P h ->
  (forall a, (exists st, result (h st) = Normal a) -> always P (k a)) ->
  always P (seq h k).
Proof.
  intros Hh Hk st. unfold seq. specialize (Hh st).
  destruct (h st) as [f t [a|e]] eqn:E; simpl in *; [|exact Hh].
  apply Forall_app. split; [exact Hh|].
  apply Hk. exists st. rewrite E. reflexivity.
Qed.

Lemma and_true (a b : value) :
  ToBoolean (and a b) = true -> ToBoolean a = true /\ ToBoolean b = true.
Proof.
  unfold and. destruct (ToBoolean a) eqn:E; [tauto|]. rewrite E. discriminate.
Qed.

Lemma submits_other Q (c : call) :
  submitted_options c = None -> submits Q (Call c).
Proof. intros H c' o [= <-] H'. congruence. Qed.

Lemma submits_with Q (c : call) (o : value) :
  submitted_options c = Some o -> Q o -> submits Q (Call c).
Proof. intros H HQ c' o' [= <-] H'. congruence. Qed.

Lemma stored_message_submits Q (result : value) :
  always (submits Q) (stored_message respond result).
Proof.
  unfold stored_message.
  repeat always_step; apply submits_other; reflexivity.
Qed.

Lemma send_in_page_submits Q (chatId message options sendSeen : value) :
  Q options ->
  always (submits Q) (send_in_page respond chatId message options sendSeen).
Proof.
  intros HQ. unfold send_in_page.
  repeat first
    [ apply stored_message_submits
    | always_step ];
    first [ apply submits_other; reflexivity
          | eapply submits_with; [reflexivity | exact HQ] ].
Qed.

Lemma sendMessage_submits Q (chatId : value) (content : content)
    (options : MessageSendOptions) :
  (forall mentioned c' io sticker,
      dispatch content options (internal_options options mentioned) = Normal (c', io) ->
      Q (VObj io)
      /\ (ToBoolean (get (VObj io) "sendMediaAsSticker") = true ->
          ToBoolean (get (VObj io) "attachment") = true ->
          Q (VObj (<["attachment" := sticker]> io)))) ->
  always (submits Q) (sendMessage MT respond chatId content options).
Proof.
  intros HQ. unfold sendMessage.
  apply always_seq_lift. intros mentioned _.
  apply always_seq_lift. intros [c' io] Hd.
  pose proof (fun sticker => HQ mentioned c' io sticker Hd) as HQ'. cbn [fst snd].
  apply always_seq_result.
  - repeat always_step. apply submits_other. reflexivity.
  - intros io' [st Hio'].
    apply always_seq; [|intros ?; apply always_lift].
    apply send_in_page_submits.
    destruct (ToBoolean _) eqn:Hs in Hio'.
    + apply result_seq in Hio' as (sticker & _ & [= <-]).
      apply and_true in Hs as [Hs Ha]. apply HQ'; assumption.
    + injection Hio' as <-. apply (HQ' VUndefined).
Qed.

End Submissions.

(** X11.  Whatever the content and the options, the options of every
    submission made by [sendMessage] hold at most one of [attachment],
    [location], [poll], [contactCard] and [contactCardList]; their
    [linkPreview] is [true] or [undefined] and their [parseVCards] is a
    boolean. *)
Theorem sendMessage_submits_one_kind
    (MT : MessageTypesT) (respond : call -> completion value)
    (chatId : value) (content : content) (options : MessageSendOptions) :
  always
    (submits (fun o =>
                length (kinds o) <= 1
                /\ (get o "linkPreview" = VBool true \/ get o "linkPreview" = VUndefined)
                /\ is_boolean (get o "parseVCards")))
    (sendMessage MT respond chatId content options).
Proof.
  apply sendMessage_submits. intros mentioned c' io sticker Hd.
  assert (Hlp : forall v, (if strict_eq v (VBool false) then VUndefined else VBool true)
                          = VBool true
                          \/ (if strict_eq v (VBool false) then VUndefined else VBool true)
                             = VUndefined)
    by (intros v; destruct (strict_eq v (VBool false)); tauto).
  assert (Hpv : forall v, is_boolean (if strict_eq v (VBool false)
                                      then VBool false else VBool true))
    by (intros v; destruct (strict_eq v (VBool false)); eexists; reflexivity).
  apply dispatch_inv in Hd
    as [[_ [-> | [-> | [-> | [-> | [[card ->] | [cards ->]]]]]]] | [_ ->]];
    (split; [|intros _ Ha];
     [|first [ discriminate Ha | clear Ha ]];
     (split; [vm_compute; lia | split; [apply Hlp | apply Hpv]])).
Qed.

Section Stickers.

Variable MT : MessageTypesT.
Variable respond : call -> completion value.

Lemma dispatch_sendMediaAsSticker (content : content) (options : MessageSendOptions)
    (mentioned c' : value) (io : gmap string value) :
  dispatch content options (internal_options options mentioned) = Normal (c', io) ->
  get (VObj io) "sendMediaAsSticker" = sendMediaAsSticker options.
Proof.
  intros Hd.
  apply dispatch_inv in Hd
    as [[_ [-> | [-> | [-> | [-> | [[card ->] | [cards ->]]]]]]] | [_ ->]];
    reflexivity.
Qed.

Lemma dispatch_without_media (content : content) (options : MessageSendOptions)
    (mentioned c' : value) (io : gmap string value) :
  content_instanceof content MessageMedia = false ->
  content_instanceof (media options) MessageMedia = false ->
  dispatch content options (internal_options options mentioned) = Normal (c', io) ->
  get (VObj io) "attachment" = VUndefined.
Proof.
  intros H1 H2. unfold dispatch. rewrite H1, H2.
  destruct (content_instanceof content Location); [intros [= <- <-]; reflexivity|].
  destruct (content_instanceof content Poll); [intros [= <- <-]; reflexivity|].
  destruct (content_instanceof content Contact).
  { intros H. apply bind_Normal in H as (card & _ & [= <- <-]). reflexivity. }
  destruct content as [x|[|x xs]]; try (intros [= <- <-]; reflexivity).
  destruct (instanceof x Contact).
  - intros H. apply bind_Normal in H as (cards & _ & [= <- <-]). reflexivity.
  - intros [= <- <-]. reflexivity.
Qed.

Lemma stored_message_no_conversion (result : value) :
  always (fun a => is_sticker_conversion a = false) (stored_message respond result).
Proof. unfold stored_message. repeat always_step; reflexivity. Qed.

Lemma send_in_page_no_conversion (chatId message options sendSeen : value) :
  always (fun a => is_sticker_conversion a = false)
    (send_in_page respond chatId message options sendSeen).
Proof.
  unfold send_in_page.
  repeat first [ apply stored_message_no_conversion | always_step ]; reflexivity.
Qed.

Lemma sendMessage_no_conversion (chatId : value) (content : content)
    (options : MessageSendOptions) :
  (forall mentioned c' io,
      dispatch content options (internal_options options mentioned) = Normal (c', io) ->
      ToBoolean (and (get (VObj io) "sendMediaAsSticker") (get (VObj io) "attachment"))
      = false) ->
  always (fun a => is_sticker_conversion a = false)
    (sendMessage MT respond chatId content options).
Proof.
  intros H. unfold sendMessage.
  apply always_seq_lift. intros mentioned _.
  apply always_seq_lift. intros [c' io] Hd.
  apply H in Hd. cbn [fst snd]. rewrite Hd.
  apply always_seq; [apply always_ret|]. intros io'.
  apply always_seq; [|intros ?; apply always_lift].
  apply send_in_page_no_conversion.
Qed.

End Stickers.

(** X12.  [sendMessage] converts to a sticker only when asked to and when
    there is media: with a falsy [sendMediaAsSticker], or when neither the
    content nor [options.media] is a [MessageMedia], [formatToWebpSticker]
    is never called.  With a truthy [sendMediaAsSticker] and a
    [MessageMedia] content the conversion is the first call, and when it
    fails the failure is the result of [sendMessage] and nothing is
    submitted. *)
Theorem sticker_conversion
    (MT : MessageTypesT) (respond : call -> completion value)
    (chatId : value) (content : content) (options : MessageSendOptions) :
  (ToBoolean (sendMediaAsSticker options) = false
   \/ (content_instanceof content MessageMedia = false
       /\ content_instanceof (media options) MessageMedia = false) ->
   always (fun a => is_sticker_conversion a = false)
     (sendMessage MT respond chatId content options))
  /\ (forall mentioned st,
         ToBoolean (sendMediaAsSticker options) = true ->
         content_instanceof content MessageMedia = true ->
         ToBoolean (plain content) = true ->
         mentionedJidList (mentions options) = Normal mentioned ->
         let convert :=
           Util_formatToWebpSticker (plain content)
             (VObj (list_to_map
                      [("name", stickerName options);
                       ("author", stickerAuthor options);
                       ("categories", stickerCategories options);
                       ("isAvatarSticker", stickerIsAvatar options)])) in
         let out := sendMessage MT respond chatId content options st in
         (exists rest, trace out = Call convert :: rest)
         /\ (forall e, respond convert = Throw e ->
                       trace out = [Call convert] /\ result out = Throw e)).
Proof.
  split.
  - intros H. apply sendMessage_no_conversion. intros mentioned c' io Hd.
    unfold and. rewrite (dispatch_sendMediaAsSticker _ _ _ _ _ Hd).
    destruct H as [H | [H1 H2]].
    + rewrite H. exact H.
    + rewrite (dispatch_without_media _ _ _ _ _ H1 H2 Hd).
      destruct (ToBoolean (sendMediaAsSticker options)) eqn:E; [reflexivity | exact E].
  - intros mentioned st Hs Hc Hp Hm convert out. subst convert out.
    unfold sendMessage.
    rewrite (seq_lift_Normal _ mentioned) by exact Hm.
    unfold dispatch. rewrite Hc.
    (erewrite seq_lift_Normal; [|reflexivity]). cbn [fst snd].
    match goal with
    | |- context [ToBoolean (and ?a ?b)] =>
        change a with (sendMediaAsSticker options);
        change b with (plain content)
    end.
    assert (Hand : ToBoolean (and (sendMediaAsSticker options) (plain content)) = true)
      by (unfold and; rewrite Hs; exact Hp).
    rewrite Hand, !seq_assoc, seq_request.
    split.
    + cbn [after trace]. eauto.
    + intros e ->. split; reflexivity.
Qed.

Section SendMessageCalls.

Variable MT : MessageTypesT.
Variable respond : call -> completion value.

Lemma sendMessage_always P (chatId : value) (content : content)
    (options : MessageSendOptions) :
  (forall a o, P (Call (Util_formatToWebpSticker a o))) ->
  (forall message o,
      always P (send_in_page respond chatId message o (effective_sendSeen options))) ->
  always P (sendMessage MT respond chatId content options).
Proof.
  intros Hs Hp. unfold sendMessage.
  apply always_seq_lift. intros mentioned _.
  apply always_seq_lift. intros [c' io] _. cbn [fst snd].
  apply always_seq.
  - repeat always_step. apply Hs.
  - intros io'. apply always_seq; [|intros ?; apply always_lift]. apply Hp.
Qed.

Lemma send_in_page_targets (chatId message options sendSeen : value) :
  always (targets chatId) (send_in_page respond chatId message options sendSeen).
Proof.
  unfold send_in_page, stored_message.
  repeat always_step;
    first [ intros x [= <-]; reflexivity | intros x Hx; discriminate Hx ].
Qed.

Lemma send_in_page_sendSeen (chatId message options sendSeen : value) :
  always (fun a => (is_sendSeen a = true -> ToBoolean sendSeen = true)
                   /\ forall chat msg o s,
                        a = Call (WAJS_sendMessage chat msg o s) -> s = sendSeen)
    (send_in_page respond chatId message options sendSeen).
Proof.
  unfold send_in_page, stored_message.
  destruct (strict_eq chatId (VStr "status@broadcast")).
  - repeat always_step;
      (split; [intros H; discriminate H | intros ? ? ? ? H; discriminate H]).
  - destruct (ToBoolean sendSeen) eqn:E;
      repeat always_step;
      (split;
       [ first [ reflexivity | intros H; discriminate H ]
       | first [ intros ? ? ? ? [= <- <- <- <-]; reflexivity
               | intros ? ? ? ? H; discriminate H ] ]).
Qed.

Lemma send_in_page_status_sendSeen (message options sendSeen : value) :
  always (fun a => is_sendSeen a = false)
    (send_in_page respond (VStr "status@broadcast") message options sendSeen).
Proof.
  unfold send_in_page, stored_message.
  change (strict_eq (VStr "status@broadcast") (VStr "status@broadcast")) with true.
  cbv iota. repeat always_step; reflexivity.
Qed.

End SendMessageCalls.

(** X13.  [sendMessage] marks the chat as seen by default: the flag it
    passes on is [true] when [options.sendSeen] is [undefined] and the
    option itself otherwise; [sendSeen] is called only when that flag is
    truthy, every [WAJS.sendMessage] receives that flag, and a post to
    ['status@broadcast'] never marks anything as seen. *)
Theorem sendSeen_option
    (MT : MessageTypesT) (respond : call -> completion value)
    (chatId : value) (content : content) (options : MessageSendOptions) :
  let flag := effective_sendSeen options in
  (sendSeen options = VUndefined -> flag = VBool true)
  /\ (sendSeen options <> VUndefined -> flag = sendSeen options)
  /\ always (fun a => (is_sendSeen a = true -> ToBoolean flag = true)
                      /\ forall chat msg o s,
                           a = Call (WAJS_sendMessage chat msg o s) -> s = flag)
       (sendMessage MT respond chatId content options)
  /\ always (fun a => is_sendSeen a = false)
       (sendMessage MT respond (VStr "status@broadcast") content options).
Proof.
  intros flag. subst flag. split; [|split; [|split]].
  - intros H. unfold effective_sendSeen. rewrite H. reflexivity.
  - intros H. unfold effective_sendSeen.
    destruct (sendSeen options); first [contradiction | reflexivity].
  - apply sendMessage_always.
    + intros a o. split; [intros H; discriminate H | intros ? ? ? ? H; discriminate H].
    + intros message o. apply send_in_page_sendSeen.
  - apply sendMessage_always.
    + intros a o. reflexivity.
    + intros message o. apply send_in_page_status_sendSeen.
Qed.

(** X14.  [Message.reply] quotes the message itself: every submission it
    makes carries the [_serialized] id of the message as
    [quotedMessageId], whatever [quotedMessageId] the caller put in the
    options; the chat it resolves is the given [chatId], or, when that is
    falsy, the recipient of a message sent by this account and the sender
    of a received one.  On a message whose [id] is [undefined] or [null]
    it throws a [TypeError] before any call. *)
Theorem reply_quotes_the_message
    (MT : MessageTypesT) (respond : call -> completion value)
    (m : Message.t) (content : content) (chatId : value)
    (options : MessageSendOptions) :
  let target :=
    if ToBoolean chatId then chatId
    else if ToBoolean (Message.fromMe m) then Message.to m else Message.from m in
  always (fun a => submits (fun o => get o "quotedMessageId"
                                     = get (Message.id m) "_serialized") a
                   /\ targets target a)
    (reply MT respond m content chatId options)
  /\ (~ defined (Message.id m) ->
      forall st, trace (reply MT respond m content chatId options st) = []
                 /\ result (reply MT respond m content chatId options st)
                    = Throw TypeError).
Proof.
  intros target. subst target. split.
  - unfold reply. apply always_seq_lift. intros id Hid.
    apply prop_Normal in Hid as [-> _].
    intros st. apply Forall_and. split.
    + apply sendMessage_submits. intros mentioned c' io sticker Hd.
      apply dispatch_inv in Hd
        as [[_ [-> | [-> | [-> | [-> | [[card ->] | [cards ->]]]]]]] | [_ ->]];
        (split; [|intros _ _]; reflexivity).
    + apply sendMessage_always.
      * intros a o x Hx. discriminate Hx.
      * intros message o.
        unfold _getChatId. destruct (ToBoolean chatId); apply send_in_page_targets.
  - intros Hnot st. unfold reply.
    assert (Hm : Message.id m = VUndefined \/ Message.id m = VNull).
    { destruct (defined_dec (Message.id m)); [contradiction | assumption]. }
    destruct Hm as [-> | ->]; split; reflexivity.
Qed.

(** ** More on [addParticipants] *)

Section AddParticipantsEdges.

Variable respond : call -> completion value.

Lemma add_one_without_invite (groupId group groupWid auto comment p : value) :
  ToBoolean auto = false ->
  always (fun a => is_gadd a = false /\ is_invite a = false)
    (add_one respond groupId group groupWid auto comment p).
Proof.
  intros Ha. unfold add_one. rewrite Ha.
  repeat always_step; split; reflexivity.
Qed.

Lemma for_of_always_body P (body : value -> program (option value)) (xs : list value) :
  (forall x, always P (body x)) -> always P (for_of body xs).
Proof.
  intros Hb. induction xs as [|x xs IH]; cbn [for_of].
  - apply always_ret.
  - apply always_seq; [apply Hb|]. intros [v|]; [apply always_ret | exact IH].
Qed.

End AddParticipantsEdges.

(** X15.  With a falsy [autoSendInviteV4] option ([false], [null], [0],
    ...; a missing one counts as [true]) [addParticipants] neither adds
    anybody to the contact store nor sends an invitation, whatever the
    page answers. *)
Theorem addParticipants_without_invite
    (respond : call -> completion value) (groupId participantIds options : value) :
  ToBoolean (get_default (options_or_default options) "autoSendInviteV4" (VBool true))
  = false ->
  always (fun a => is_gadd a = false /\ is_invite a = false)
    (addParticipants respond groupId participantIds options).
Proof.
  intros Ha. unfold addParticipants.
  apply always_seq_lift. intros _ _.
  apply always_seq; [apply always_request; split; reflexivity|]. intros groupWid.
  apply always_seq; [apply always_request; split; reflexivity|]. intros group.
  apply always_seq_lift. intros participants _.
  apply for_of_always_body. intros p.
  apply add_one_without_invite. exact Ha.
Qed.

(** X16.  [addParticipants] iterates over whatever [participantIds] is.  A
    string is visited character by character, so that a single id passed
    as a string behaves as the array of its first character; an empty
    array or string gives [undefined] without any attempt to add; a value
    that is neither an array nor a string gives a [TypeError], after the
    group has been looked up and again without any attempt to add. *)
Theorem addParticipants_iteration
    (respond : call -> completion value) (groupId options : value) (st : locals) :
  (forall c s,
      (N_of_ascii c < 128)%N ->
      addParticipants respond groupId (VStr (String c s)) options st
      = addParticipants respond groupId (VArr [VStr (String c "")]) options st)
  /\ (forall ids wid group,
         defined (options_or_default options) ->
         respond (WidFactory_createWid groupId) = Normal wid ->
         respond (ChatStore_find wid) = Normal group ->
         (ids = VArr [] \/ ids = VStr "" ->
          addParticipants respond groupId ids options st
          = {| final := st;
               trace := [Call (WidFactory_createWid groupId); Call (ChatStore_find wid)];
               result := Normal VUndefined |})
         /\ (~ is_array ids -> typeof ids <> "string" ->
             addParticipants respond groupId ids options st
             = {| final := st;
                  trace := [Call (WidFactory_createWid groupId);
                            Call (ChatStore_find wid)];
                  result := Throw TypeError |})).
Proof.
  split.
  - intros c s _. unfold addParticipants.
    apply seq_ext. intros _ _.
    apply seq_ext. intros groupWid _.
    apply seq_ext. intros group _.
    cbn [iterate characters].
    rewrite !(seq_lift_Normal _ _ _ _ eq_refl).
    apply for_of_add_one_first.
  - intros ids wid group [Hu Hn] Hwid Hgroup. unfold addParticipants.
    rewrite (seq_lift_Normal _ _ _ _ (prop_defined _ "autoSendInviteV4" Hu Hn)).
    rewrite seq_request, Hwid, seq_request, Hgroup. split.
    + intros [-> | ->]; reflexivity.
    + intros Harr Hstr.
      destruct ids as [| | | | |xs|];
        first [ reflexivity
              | exfalso; apply Hstr; reflexivity
              | exfalso; apply Harr; eexists; reflexivity ].
Qed.

(** ** Where the revocation events come from *)

Section Revocations.

Variable MT : MessageTypesT.
Variable W : WAStateT.
Variable opts : options.

Lemma trace_seq {A B} (h : program A) (k : A -> program B) st :
  trace (seq h k st)
  = trace (h st) ++ match result (h st) with
                    | Normal a => trace (k a (final (h st)))
                    | Throw _ => []
                    end.
Proof.
  unfold seq. destruct (h st) as [f t [a|e]]; simpl; [reflexivity|].
  rewrite app_nil_r. reflexivity.
Qed.

Lemma not_emitted (e : Events) {A} (h : program A) st args :
  always (fun a => forall args, a <> Emit e args) h ->
  ~ In (Emit e args) (trace (h st)).
Proof.
  intros H Hin. specialize (H st). rewrite Forall_forall in H.
  apply (H (Emit e args)) with args; [|reflexivity].
  apply list_elem_of_In. exact Hin.
Qed.

Lemma onRemoveMessageEvent_trace (msg : value) st args :
  In (Emit MESSAGE_REVOKED_ME args) (trace (onRemoveMessageEvent MT msg st)) ->
  exists m,
    ToBoolean (get msg "isNewMsg") = true
    /\ Message.new MT msg = Normal m
    /\ trace (onRemoveMessageEvent MT msg st) = [Emit MESSAGE_REVOKED_ME [ArgMessage m]].
Proof.
  unfold onRemoveMessageEvent.
  destruct (prop msg "isNewMsg") as [v|e] eqn:Ep.
  - rewrite (seq_lift_Normal _ v) by reflexivity.
    apply prop_Normal in Ep as [-> _].
    destruct (ToBoolean (get msg "isNewMsg")) eqn:Eb; cbn [negb]; [|intros []].
    destruct (Message.new MT msg) as [m|e] eqn:Em.
    + rewrite (seq_lift_Normal _ m) by reflexivity. intros _. eauto.
    + rewrite (seq_lift_Throw _ e) by reflexivity. intros [].
  - rewrite (seq_lift_Throw _ e) by reflexivity. intros [].
Qed.

Lemma onChangeMessageTypeEvent_trace (msg : value) st args :
  In (Emit MESSAGE_REVOKED_EVERYONE args) (trace (onChangeMessageTypeEvent MT msg st)) ->
  exists m previous,
    get msg "type" = VStr "revoked"
    /\ Message.new MT msg = Normal m
    /\ trace (onChangeMessageTypeEvent MT msg st)
       = [Emit MESSAGE_REVOKED_EVERYONE [ArgMessage m; previous]].
Proof.
  unfold onChangeMessageTypeEvent.
  destruct (prop msg "type") as [ty|e] eqn:Ep.
  2:{ rewrite (seq_lift_Throw _ e) by reflexivity. intros []. }
  rewrite (seq_lift_Normal _ ty) by reflexivity.
  apply prop_Normal in Ep as [-> _].
  destruct (strict_eq (get msg "type") (VStr "revoked")) eqn:Et; [|intros []].
  apply strict_eq_VStr in Et.
  destruct (Message.new MT msg) as [m|e] eqn:Em.
  2:{ rewrite (seq_lift_Throw _ e) by reflexivity. intros []. }
  rewrite (seq_lift_Normal _ m) by reflexivity. rewrite seq_read.
  rewrite trace_seq.
  match goal with
  | |- In _ (trace (?h st) ++ _) -> _ =>
      assert (Hh : trace (h st) = [])
  end.
  { destruct (ToBoolean (last_message st)); [|reflexivity].
    destruct (prop (get msg "id") "id") as [i|e] eqn:Ei;
      [rewrite (seq_lift_Normal _ i) by reflexivity
      |rewrite (seq_lift_Throw _ e) by reflexivity; reflexivity].
    destruct (prop (get (last_message st) "id") "id") as [j|e] eqn:Ej;
      [rewrite (seq_lift_Normal _ j) by reflexivity
      |rewrite (seq_lift_Throw _ e) by reflexivity; reflexivity].
    destruct (strict_eq i j); [|reflexivity].
    destruct (Message.new MT (last_message st)) as [m'|e] eqn:Em';
      [rewrite (seq_lift_Normal _ m') by reflexivity
      |rewrite (seq_lift_Throw _ e) by reflexivity; reflexivity].
    reflexivity. }
  rewrite Hh. cbn [app].
  match goal with
  | |- context [result ?o] => destruct (result o) as [p|e]
  end; [|intros []].
  intros _. exists m, p. repeat split; assumption || reflexivity.
Qed.

End Revocations.

(** X17.  Where the two revocation events come from.  Among the handlers,
    [message_revoke_me] is emitted only by [onRemoveMessageEvent], for a
    snapshot with a truthy [isNewMsg], and [message_revoke_everyone] only by
    [onChangeMessageTypeEvent], for a snapshot of type ['revoked']; in both
    cases it is the only event of the invocation, and its first argument
    is the message built from the snapshot. *)
Theorem revocation_events
    (MT : MessageTypesT) (W : WAStateT) (opts : options)
    (x : exposed) (st : locals) (args : list arg) :
  let t := trace (deliver MT W opts x st) in
  (In (Emit MESSAGE_REVOKED_ME args) t ->
   exists msg m,
     x = RemoveMessageEvent msg
     /\ ToBoolean (get msg "isNewMsg") = true
     /\ Message.new MT msg = Normal m
     /\ t = [Emit MESSAGE_REVOKED_ME [ArgMessage m]])
  /\ (In (Emit MESSAGE_REVOKED_EVERYONE args) t ->
      exists msg m previous,
        x = ChangeMessageTypeEvent msg
        /\ get msg "type" = VStr "revoked"
        /\ Message.new MT msg = Normal m
        /\ t = [Emit MESSAGE_REVOKED_EVERYONE [ArgMessage m; previous]]).
Proof.
  intros t. subst t. split; intros Hin.
  - destruct x; cbn [deliver] in *;
      try (exfalso; revert Hin; apply not_emitted;
           unfold qrChanged, onAddMessageEvent, onChangeMessageTypeEvent,
             onChangeMessageEvent, onMessageAckEvent, onMessageMediaUploadedEvent,
             onAppStateChangedEvent;
           repeat always_emit_step; intros ? ?; discriminate).
    apply onRemoveMessageEvent_trace in Hin as (m & H1 & H2 & H3). eauto 6.
  - destruct x; cbn [deliver] in *;
      try (exfalso; revert Hin; apply not_emitted;
           unfold qrChanged, onAddMessageEvent, onRemoveMessageEvent,
             onChangeMessageEvent, onMessageAckEvent, onMessageMediaUploadedEvent,
             onAppStateChangedEvent;
           repeat always_emit_step; intros ? ?; discriminate).
    apply onChangeMessageTypeEvent_trace in Hin as (m & p & H1 & H2 & H3). eauto 8.
Qed.

(** * Properties of the methods whose failures are inspected *)

Section GroupSettingsFacts.

Import Script.

Variable page : callee -> list value -> answer value.

Lemma attempt_run (f : callee) (args : list value) :
  fst (GroupSettings.attempt page f args) = [{| function := f; arguments := args |}]
  /\ match page f args with
     | Returned _ => snd (GroupSettings.attempt page f args) = Returned (VBool true)
     | Thrown e =>
         (refused e -> snd (GroupSettings.attempt page f args) = Returned (VBool false))
         /\ (forall n, name_of e = Normal n -> n <> VStr "ServerStatusCodeError" ->
                       snd (GroupSettings.attempt page f args) = Thrown e)
         /\ (forall r, snd (GroupSettings.attempt page f args) = Returned r ->
                       r = VBool false /\ refused e)
     end.
Proof.
  unfold GroupSettings.attempt, try_catch, bind, invoke, refused. cbn [fst snd].
  destruct (page f args) as [v|e]; cbn [fst snd app]; [split; reflexivity|].
  destruct (name_of e) as [n|err] eqn:En; cbn [lift ret throw fst snd app].
  - destruct (strict_eq n (VStr "ServerStatusCodeError")) eqn:Es; cbn [fst snd].
    + apply strict_eq_VStr in Es. subst n.
      split; [reflexivity|]. split; [reflexivity|]. split.
      * intros n [= <-] Hn. contradiction.
      * intros r [= <-]. split; reflexivity.
    + split; [reflexivity|]. split; [|split].
      * intros [= ->]. discriminate Es.
      * reflexivity.
      * intros r Hr. discriminate Hr.
  - split; [reflexivity|]. split; [|split].
    + intros Hn. discriminate Hn.
    + intros n Hn. discriminate Hn.
    + intros r Hr. discriminate Hr.
Qed.

Lemma bind_lift_Normal {A B} (c : completion A) (a : A) (k : A -> script B) :
  c = Normal a -> bind (lift c) k = k a.
Proof. intros ->. unfold bind, lift, ret. cbn [fst snd app]. destruct (k a); reflexivity. Qed.



Lemma bind_run {A B} (c : script A) (k : A -> script B) :
  bind c k
  = match snd c with
    | Returned a => (fst c ++ fst (k a), snd (k a))
    | Thrown x => (fst c, Thrown x)
    end.
Proof. reflexivity. Qed.

Lemma setter_cases (f : GroupSettings.t -> value -> script (value * GroupSettings.t))
    (this : GroupSettings.t) (x : value) :
  In f (setters page) ->
  defined (GroupSettings.id this) ->
  exists g args (echo : completion GroupSettings.t),
    f this x
    = (let+ success := GroupSettings.attempt page g args in
       if negb (ToBoolean success) then ret (VBool false, this)
       else let+ this' := lift echo in ret (VBool true, this'))
    /\ (forall this', echo = Normal this' ->
                      GroupSettings.id this' = GroupSettings.id this).
Proof.
  intros Hf [Hu Hn].
  pose proof (prop_defined _ "_serialized" Hu Hn) as Hid.
  unfold setters in Hf. cbn [In] in Hf.
  destruct Hf as [<- | [<- | [<- | [<- | []]]]].
  - exists WPP_group_setSubject, [get (GroupSettings.id this) "_serialized"; x],
      (Normal {| GroupSettings.id := GroupSettings.id this;
                 GroupSettings.name := x;
                 GroupSettings.groupMetadata := GroupSettings.groupMetadata this |}).
    split; [|intros this' [= <-]; reflexivity].
    unfold GroupSettings.setSubject. rewrite (bind_lift_Normal _ _ _ Hid).
    reflexivity.
  - eexists WPP_group_setDescription, _,
      (let* metadata := assign (GroupSettings.groupMetadata this) "desc" x in
       Normal {| GroupSettings.id := GroupSettings.id this;
                 GroupSettings.name := GroupSettings.name this;
                 GroupSettings.groupMetadata := metadata |}).
    split.
    + unfold GroupSettings.setDescription. rewrite (bind_lift_Normal _ _ _ Hid).
      f_equal. destruct (assign _ _ _); reflexivity.
    + intros this' H. apply bind_Normal in H as (md & _ & [= <-]). reflexivity.
  - eexists WPP_group_setProperty, _,
      (let* metadata := assign (GroupSettings.groupMetadata this) "announce"
                          (GroupSettings.or_true x) in
       Normal {| GroupSettings.id := GroupSettings.id this;
                 GroupSettings.name := GroupSettings.name this;
                 GroupSettings.groupMetadata := metadata |}).
    split.
    + unfold GroupSettings.setMessagesAdminsOnly. rewrite (bind_lift_Normal _ _ _ Hid).
      f_equal. destruct (assign _ _ _); reflexivity.
    + intros this' H. apply bind_Normal in H as (md & _ & [= <-]). reflexivity.
  - eexists WPP_group_setProperty, _,
      (let* metadata := assign (GroupSettings.groupMetadata this) "restrict"
                          (GroupSettings.or_true x) in
       Normal {| GroupSettings.id := GroupSettings.id this;
                 GroupSettings.name := GroupSettings.name this;
                 GroupSettings.groupMetadata := metadata |}).
    split.
    + unfold GroupSettings.setInfoAdminsOnly. rewrite (bind_lift_Normal _ _ _ Hid).
      f_equal. destruct (assign _ _ _); reflexivity.
    + intros this' H. apply bind_Normal in H as (md & _ & [= <-]). reflexivity.
Qed.

End GroupSettingsFacts.

(** X18.  The four boolean setters of a group ([setSubject],
    [setDescription], [setMessagesAdminsOnly], [setInfoAdminsOnly]) make
    exactly one call to the page.  When that call fails with an error named
    ['ServerStatusCodeError'] they return [false] and leave the group
    object as it was; a failure with another name is thrown on unchanged;
    and whenever they return, it is with [false] and the unchanged object
    after such a refusal, or with [true] after the page accepted the
    change. *)
Theorem group_setters_failures
    (page : Script.callee -> list value -> Script.answer value)
    (f : GroupSettings.t -> value -> Script.script (value * GroupSettings.t))
    (this : GroupSettings.t) (x : value) :
  In f (setters page) ->
  defined (GroupSettings.id this) ->
  exists call,
    fst (f this x) = [call]
    /\ match page (Script.function call) (Script.arguments call) with
       | Script.Thrown e =>
           (refused e -> snd (f this x) = Script.Returned (VBool false, this))
           /\ (forall n, Script.name_of e = Normal n ->
                         n <> VStr "ServerStatusCodeError" ->
                         snd (f this x) = Script.Thrown e)
           /\ (forall r this', snd (f this x) = Script.Returned (r, this') ->
                               refused e /\ r = VBool false /\ this' = this)
       | Script.Returned _ =>
           forall r this', snd (f this x) = Script.Returned (r, this') ->
                           r = VBool true
                           /\ GroupSettings.id this' = GroupSettings.id this
       end.
Proof.
  intros Hf Hid.
  destruct (setter_cases page f this x Hf Hid) as (g & args & echo & -> & Hecho).
  destruct (attempt_run page g args) as [Hcall Hrun].
  exists {| Script.function := g; Script.arguments := args |}.
  cbn [Script.function Script.arguments].
  rewrite bind_run.
  destruct (page g args) as [v|e].
  - rewrite Hrun. cbn [ToBoolean negb fst snd]. split.
    + rewrite Hcall. destruct echo; reflexivity.
    + intros r this'. destruct echo as [t|err]; cbn; [|discriminate].
      intros [= <- <-]. split; [reflexivity|]. apply Hecho. reflexivity.
  - destruct Hrun as (Hrefused & Hother & Hreturned).
    destruct (snd (GroupSettings.attempt page g args)) as [r|e'] eqn:Er.
    + destruct (Hreturned r eq_refl) as [-> Href].
      cbn [ToBoolean negb Script.ret fst snd]. rewrite Hcall. split; [reflexivity|].
      split; [reflexivity|]. split.
      * intros n Hn Hne. specialize (Hother n Hn Hne). discriminate Hother.
      * intros r this' [= <- <-]. auto.
    + cbn [fst snd]. split; [exact Hcall|]. split; [|split].
      * intros Href. specialize (Hrefused Href). discriminate Hrefused.
      * intros n Hn Hne. specialize (Hother n Hn Hne).
        injection Hother as ->. reflexivity.
      * intros r this' Hr. discriminate Hr.
Qed.

(** X19.  What the setters write on the group object once the page has
    accepted the change: [setSubject] stores the subject as [name];
    [setDescription] stores the description in [groupMetadata.desc];
    [setMessagesAdminsOnly] and [setInfoAdminsOnly] send [1] or [0] to the
    page by the truth of their argument ([true] when it is omitted) but
    store the argument itself in [groupMetadata.announce] and
    [groupMetadata.restrict].  On a group without metadata the last three
    throw a [TypeError] after the page has made the change. *)
Theorem group_setters_echo
    (page : Script.callee -> list value -> Script.answer value)
    (this : GroupSettings.t) (chatId x : value) :
  prop (GroupSettings.id this) "_serialized" = Normal chatId ->
  (forall f args, exists v, page f args = Script.Returned v) ->
  let call f args := {| Script.function := f; Script.arguments := args |} in
  let bit := if ToBoolean (GroupSettings.or_true x) then VNum (Num 1) else VNum (Num 0) in
  GroupSettings.setSubject page this x
  = ([call Script.WPP_group_setSubject [chatId; x]],
     Script.Returned (VBool true,
                      {| GroupSettings.id := GroupSettings.id this;
                         GroupSettings.name := x;
                         GroupSettings.groupMetadata :=
                           GroupSettings.groupMetadata this |}))
  /\ (forall md,
         GroupSettings.groupMetadata this = VObj md ->
         let stored k v :=
           Script.Returned (VBool true,
                            {| GroupSettings.id := GroupSettings.id this;
                               GroupSettings.name := GroupSettings.name this;
                               GroupSettings.groupMetadata := VObj (<[k := v]> md) |}) in
         GroupSettings.setDescription page this x
         = ([call Script.WPP_group_setDescription [chatId; x]], stored "desc" x)
         /\ GroupSettings.setMessagesAdminsOnly page this x
            = ([call Script.WPP_group_setProperty [chatId; VStr "announcement"; bit]],
               stored "announce" (GroupSettings.or_true x))
         /\ GroupSettings.setInfoAdminsOnly page this x
            = ([call Script.WPP_group_setProperty [chatId; VStr "restrict"; bit]],
               stored "restrict" (GroupSettings.or_true x)))
  /\ (~ defined (GroupSettings.groupMetadata this) ->
      let failed := Script.Thrown (Script.Raised TypeError) in
      GroupSettings.setDescription page this x
      = ([call Script.WPP_group_setDescription [chatId; x]], failed)
      /\ GroupSettings.setMessagesAdminsOnly page this x
         = ([call Script.WPP_group_setProperty [chatId; VStr "announcement"; bit]],
            failed)
      /\ GroupSettings.setInfoAdminsOnly page this x
         = ([call Script.WPP_group_setProperty [chatId; VStr "restrict"; bit]],
            failed)).
Proof.
  intros Hid Hpage call bit. subst call bit. cbv beta.
  unfold GroupSettings.setSubject, GroupSettings.setDescription,
    GroupSettings.setMessagesAdminsOnly, GroupSettings.setInfoAdminsOnly.
  rewrite !(bind_lift_Normal _ _ _ Hid).
  unfold GroupSettings.attempt, Script.try_catch, Script.invoke, GroupSettings.flag.
  split; [|split].
  - destruct (Hpage Script.WPP_group_setSubject [chatId; x]) as [v ->]. reflexivity.
  - intros md ->. cbv zeta beta.
    repeat split;
      match goal with
      | |- context [page ?f ?a] => destruct (Hpage f a) as [v ->]
      end; reflexivity.
  - intros Hnot. cbv zeta beta.
    destruct (defined_dec (GroupSettings.groupMetadata this)) as [H | [-> | ->]];
      [contradiction | |];
      (repeat split;
       match goal with
       | |- context [page ?f ?a] => destruct (Hpage f a) as [v ->]
       end; reflexivity).
Qed.

(** X20.  [setPicture] never tells the page which group it is about: the
    argument object is built with the key [chatId] and read with the key
    [chatid], so [WAJS.setPicture] receives [undefined] as its chat id,
    whatever the group. *)
Theorem setPicture_loses_the_group
    (page : Script.callee -> list value -> Script.answer value)
    (this : GroupSettings.t) (media : value) :
  defined (GroupSettings.id this) ->
  GroupSettings.setPicture page this media
  = ([{| Script.function := Script.WAJS_setPicture;
         Script.arguments := [VUndefined; media] |}],
     page Script.WAJS_setPicture [VUndefined; media]).
Proof.
  intros [Hu Hn]. unfold GroupSettings.setPicture.
  rewrite (bind_lift_Normal _ _ _ (prop_defined _ "_serialized" Hu Hn)).
  reflexivity.
Qed.

(** ** Queries of the client *)

Section StringFacts.

Lemma substring_all (s : string) : substring 0 (String.length s) s = s.
Proof. induction s as [|c s IH]; simpl; [reflexivity|]. rewrite IH. reflexivity. Qed.

Lemma substring_append_r (s t : string) :
  substring (String.length s) (String.length t) (s ++ t)%string = t.
Proof. induction s as [|c s IH]; simpl; [apply substring_all | exact IH]. Qed.

Lemma length_append (s t : string) :
  String.length (s ++ t)%string = String.length s + String.length t.
Proof. induction s as [|c s IH]; simpl; [reflexivity|]. rewrite IH. reflexivity. Qed.

Lemma ends_with_append (suffix s : string) :
  Script.ends_with suffix (s ++ suffix)%string = true.
Proof.
  unfold Script.ends_with. rewrite length_append.
  apply andb_true_iff. split.
  - apply Nat.leb_le. lia.
  - replace (String.length s + String.length suffix - String.length suffix)
      with (String.length s) by lia.
    rewrite substring_append_r. apply String.eqb_refl.
Qed.

End StringFacts.

(** X21.  [Client.sendSeen] accepts a message id only for a status: with a
    falsy [msgId] the chat is marked as read; with a string that does not
    contain ['status@broadcast'] the method throws the string ['use the
    message id from status'], and with one that contains it but not the
    chat id it throws ['chatId has no match in msgId'], in both cases
    before any call; only a [msgId] that includes both reaches
    [sendReadStatus]. *)
Theorem sendSeen_validation
    (page : Script.callee -> list value -> Script.answer value)
    (chatId msgId : value) :
  let run := ClientQueries.sendSeen page chatId msgId in
  let call f args := {| Script.function := f; Script.arguments := args |} in
  (ToBoolean msgId = false ->
   run = ([call Script.WPP_chat_markIsRead [chatId]],
          page Script.WPP_chat_markIsRead [chatId]))
  /\ (forall s,
         msgId = VStr s -> s <> "" ->
         (contains "status@broadcast" s = false ->
          run = ([], Script.Thrown (Script.Custom (VStr "use the message id from status"))))
         /\ (contains "status@broadcast" s = true ->
             contains (ToString chatId) s = false ->
             run = ([], Script.Thrown (Script.Custom (VStr "chatId has no match in msgId"))))
         /\ (contains "status@broadcast" s = true ->
             contains (ToString chatId) s = true ->
             run = ([call Script.WPP_status_sendReadStatus [chatId; msgId]],
                    page Script.WPP_status_sendReadStatus [chatId; msgId])))
  /\ (forall c,
         In c (fst run) -> Script.function c = Script.WPP_status_sendReadStatus ->
         Script.includes_method msgId (VStr "status@broadcast") = Normal true
         /\ Script.includes_method msgId chatId = Normal true).
Proof.
  intros run call. subst run call. cbv beta. unfold ClientQueries.sendSeen.
  split; [|split].
  - intros ->. reflexivity.
  - intros s -> Hs.
    assert (Ht : ToBoolean (VStr s) = true).
    { cbn [ToBoolean]. destruct (String.eqb s "") eqn:E; [|reflexivity].
      apply String.eqb_eq in E. contradiction. }
    rewrite Ht. cbn [Script.includes_method ToString].
    split; [|split].
    + intros ->. reflexivity.
    + intros -> ->. reflexivity.
    + intros -> ->. reflexivity.
  - intros c.
    destruct (ToBoolean msgId) eqn:Ht.
    + destruct (Script.includes_method msgId (VStr "status@broadcast")) as [[|]|e];
        cbn; try tauto.
      destruct (Script.includes_method msgId chatId) as [[|]|e]; cbn; try tauto.
    + cbn. intros [<- | []] H. discriminate H.
Qed.


(** ** Methods of a message that ask the page *)

Section MessageActionsFacts.

Import Script.

Variable MT : MessageTypesT.
Variable page : callee -> list value -> answer value.

(** A constructed message is [unpatched], or it was patched from an object
    and holds it as [_data]. *)
Lemma new_cases (data : value) (m : Message.t) :
  Message.new MT data = Normal m ->
  (ToBoolean data = false /\ m = Message.unpatched)
  \/ (ToBoolean data = true
      /\ Message.patch_fields MT data = Normal m
      /\ exists o, Message._data m = VObj o).
Proof.
  intros H. destruct (ToBoolean data) eqn:Et.
  - right. split; [reflexivity|].
    pose proof (new_truthy_inv MT data m H Et) as Hp. split; [exact Hp|].
    apply patch_fields_inv in Hp as (_ & _ & Hd & _ & _ & Hu & _).
    rewrite Hd.
    destruct data as [| | | | | |o]; try (exfalso; apply Hu; reflexivity).
    destruct (is_poll MT (VObj o)); eexists; reflexivity.
  - left. split; [reflexivity|]. rewrite (new_falsy MT data Et) in H.
    injection H as <-. reflexivity.
Qed.


End MessageActionsFacts.


Section Gates.

Variable MT : MessageTypesT.

Lemma new_flags (data : value) (m : Message.t) :
  Message.new MT data = Normal m ->
  ToBoolean (Message.hasQuotedMsg m) = ToBoolean (get data "quotedMsg")
  /\ ToBoolean (Message.hasMedia m)
     = ToBoolean (get data "mediaKey") && ToBoolean (get data "directPath")
  /\ ToBoolean (Message.fromMe m) = ToBoolean (get (get data "id") "fromMe").
Proof.
  intros H. destruct (new_cases MT data m H) as [[Hf ->] | (Ht & Hp & _)].
  - rewrite !(get_falsy data _ Hf). repeat split; reflexivity.
  - pose proof (patch_fields_inv MT data m Hp) as (Hmedia & _ & _ & _ & HfromMe & _).
    rewrite Hmedia, HfromMe. split; [|split; reflexivity].
    unfold Message.patch_fields in Hp.
    apply bind_Normal in Hp as (i & _ & Hp).
    apply bind_Normal in Hp as (vc & _ & Hp).
    apply bind_Normal in Hp as (inv & _ & Hp).
    apply bind_Normal in Hp as (row & _ & Hp).
    injection Hp as <-. reflexivity.
Qed.

End Gates.

(** X24.  Three methods of a message ask the page only when the snapshot
    the message was built from says there is something to ask about:
    [getQuotedMessage] returns [undefined] without any call unless the
    snapshot has a truthy [quotedMsg], [downloadMedia] returns [undefined]
    without any call unless it has both [mediaKey] and [directPath], and
    [edit] returns [null] without any call unless its [id.fromMe] is
    truthy (its [mentions] option, an array of ids here, is still read
    first). *)
Theorem gated_methods_make_no_call
    (MT : MessageTypesT) (page : Script.callee -> list value -> Script.answer value)
    (data : value) (m : Message.t) :
  Message.new MT data = Normal m ->
  (ToBoolean (get data "quotedMsg") = false ->
   MessageActions.getQuotedMessage MT page m = ([], Script.Returned None))
  /\ (ToBoolean (get data "mediaKey") && ToBoolean (get data "directPath") = false ->
      MessageActions.downloadMedia page m = ([], Script.Returned None))
  /\ (ToBoolean (get (get data "id") "fromMe") = false ->
      forall content (o : gmap string value) mentioned,
        Client.mentionedJidList (get (VObj o) "mentions") = Normal mentioned ->
        MessageActions.edit MT page m content (VObj o) = ([], Script.Returned None)).
Proof.
  intros Hnew. destruct (new_flags MT data m Hnew) as (Hq & Hm & Hf).
  split; [|split].
  - intros H. unfold MessageActions.getQuotedMessage. rewrite Hq, H. reflexivity.
  - intros H. unfold MessageActions.downloadMedia. rewrite Hm, H. reflexivity.
  - intros H content o mentioned Hmentions. unfold MessageActions.edit.
    (erewrite bind_lift_Normal; [|reflexivity]).
    rewrite (bind_lift_Normal _ _ _ Hmentions).
    rewrite Hf, H. reflexivity.
Qed.

Section SplitFacts.

Import MessageActions.



Lemma split_on_nonempty (sep : ascii) (s : string) : split_on sep s <> [].
Proof.
  destruct s as [|c s]; simpl; [discriminate|].
  destruct (Ascii.eqb c sep); [discriminate|].
  destruct (split_on sep s); discriminate.
Qed.

End SplitFacts.


(** X26.  What [getQuotedMessage] and [edit] give back once they have
    asked the page.  [getQuotedMessage] builds a message from whatever
    model the page returns: it never returns [undefined] then, and a falsy
    model gives a message without any field.  [edit] returns [null] when
    the page answers a falsy value and the message built from the answer
    otherwise. *)
Theorem quoted_and_edited_messages
    (MT : MessageTypesT) (page : Script.callee -> list value -> Script.answer value)
    (m : Message.t) (msgId : value) :
  prop (Message.id m) "_serialized" = Normal msgId ->
  let call f args := {| Script.function := f; Script.arguments := args |} in
  (ToBoolean (Message.hasQuotedMsg m) = true ->
   snd (MessageActions.getQuotedMessage MT page m) <> Script.Returned None
   /\ forall msg quoted model,
        page Script.WPP_whatsapp_MsgStore_get [msgId] = Script.Returned msg ->
        page Script.WPP_whatsapp_functions_getQuotedMsgObj [msg]
        = Script.Returned quoted ->
        page Script.WAJS_getMessageModel [quoted] = Script.Returned model ->
        fst (MessageActions.getQuotedMessage MT page m)
        = [call Script.WPP_whatsapp_MsgStore_get [msgId];
           call Script.WPP_whatsapp_functions_getQuotedMsgObj [msg];
           call Script.WAJS_getMessageModel [quoted]]
        /\ (ToBoolean model = false ->
            snd (MessageActions.getQuotedMessage MT page m)
            = Script.Returned (Some Message.unpatched))
        /\ (forall q, Message.new MT model = Normal q ->
                      snd (MessageActions.getQuotedMessage MT page m)
                      = Script.Returned (Some q)))
  /\ (ToBoolean (Message.fromMe m) = true ->
      forall content (o : gmap string value) mentioned answer,
        Client.mentionedJidList (get (VObj o) "mentions") = Normal mentioned ->
        let options :=
          obj [("linkPreview", if strict_eq (get (VObj o) "linkPreview") (VBool false)
                               then VUndefined else VBool true);
               ("mentionedJidList", mentioned);
               ("extraOptions", get (VObj o) "extra")] in
        page Script.WPP_chat_editMessage [msgId; content; options]
        = Script.Returned answer ->
        fst (MessageActions.edit MT page m content (VObj o))
        = [call Script.WPP_chat_editMessage [msgId; content; options]]
        /\ (ToBoolean answer = false ->
            snd (MessageActions.edit MT page m content (VObj o)) = Script.Returned None)
        /\ (forall edited, ToBoolean answer = true ->
                           Message.new MT answer = Normal edited ->
                           snd (MessageActions.edit MT page m content (VObj o))
                           = Script.Returned (Some edited))).
Proof.
  intros Hid call. subst call. cbv beta. split.
  - intros Hq. unfold MessageActions.getQuotedMessage. rewrite Hq. cbn [negb].
    rewrite (bind_lift_Normal _ _ _ Hid). split.
    + unfold Script.bind, Script.invoke. cbn [fst snd].
      destruct (page Script.WPP_whatsapp_MsgStore_get [msgId]) as [msg|x];
        cbn [fst snd]; [|intros H; discriminate H].
      destruct (page Script.WPP_whatsapp_functions_getQuotedMsgObj [msg]) as [q|x];
        cbn [fst snd]; [|intros H; discriminate H].
      destruct (page Script.WAJS_getMessageModel [q]) as [model|x];
        cbn [fst snd]; [|intros H; discriminate H].
      destruct (Message.new MT model); cbn; intros H; discriminate H.
    + intros msg quoted model Hget Hquoted Hmodel.
      unfold Script.bind, Script.invoke. cbn [fst snd].
      rewrite Hget. cbn [fst snd]. rewrite Hquoted. cbn [fst snd].
      rewrite Hmodel. cbn [fst snd].
      split; [|split].
      * destruct (Message.new MT model); reflexivity.
      * intros Hf. rewrite (new_falsy MT model Hf). reflexivity.
      * intros q ->. reflexivity.
  - intros Hf content o mentioned answer Hmentions options Hedit.
    subst options. unfold MessageActions.edit.
    (erewrite bind_lift_Normal; [|reflexivity]).
    rewrite (bind_lift_Normal _ _ _ Hmentions).
    rewrite Hf. cbn [negb].
    rewrite (bind_lift_Normal _ _ _ Hid).
    rewrite bind_run. cbn [Script.invoke fst snd].
    unfold obj in Hedit. rewrite Hedit.
    split; [|split].
    + destruct (ToBoolean answer); [|reflexivity].
      destruct (Message.new MT answer); reflexivity.
    + intros ->. reflexivity.
    + intros edited -> ->. reflexivity.
Qed.

(** * Properties of [compareWwebVersions] *)

Section VersionFacts.

Import Script Versions.

Lemma append_nil_r (s : string) : (s ++ "")%string = s.
Proof.
  induction s as [|c s IH]; [reflexivity|].
  change (String c (s ++ "") = String c s). rewrite IH. reflexivity.
Qed.

Lemma append_assoc (a b c : string) : ((a ++ b) ++ c)%string = (a ++ (b ++ c))%string.
Proof.
  induction a as [|x a IH]; [reflexivity|].
  change (String x ((a ++ b) ++ c) = String x (a ++ (b ++ c))). rewrite IH. reflexivity.
Qed.

Lemma length_zeros (n : nat) : String.length (zeros n) = n.
Proof. induction n as [|n IH]; [reflexivity|]. cbn [zeros String.length]. rewrite IH. reflexivity. Qed.

Lemma substring_append_l (s t : string) :
  substring 0 (String.length s) (s ++ t)%string = s.
Proof.
  induction s as [|c s IH].
  - destruct t; reflexivity.
  - change (String c (substring 0 (String.length s) (s ++ t)) = String c s).
    rewrite IH. reflexivity.
Qed.

Lemma pad_closed (l r : string) :
  pad l r = ((l ++ zeros (String.length r - String.length l))%string,
             (r ++ zeros (String.length l - String.length r))%string).
Proof.
  funelim (pad l r).
  - clear H Heqcall. apply Nat.eqb_eq in e. rewrite e, Nat.sub_diag.
    cbn [zeros]. rewrite !append_nil_r. reflexivity.
  - rewrite H0. clear H0 H1 H2 Heqcall. apply Nat.ltb_lt in H.
    rewrite length_append. cbn [String.length].
    replace (String.length r + 1 - String.length l) with 0 by lia.
    replace (String.length r - String.length l) with 0 by lia.
    replace (String.length l - String.length r)
      with (S (String.length l - (String.length r + 1))) by lia.
    cbn [zeros]. rewrite append_assoc. reflexivity.
  - rewrite H0. clear H0 H1 H2 Heqcall.
    apply Nat.ltb_ge in H. apply Nat.eqb_neq in E.
    rewrite length_append. cbn [String.length].
    replace (String.length l + 1 - String.length r) with 0 by lia.
    replace (String.length l - String.length r) with 0 by lia.
    replace (String.length r - String.length l)
      with (S (String.length r - (String.length l + 1))) by lia.
    cbn [zeros]. rewrite append_assoc. reflexivity.
Qed.

Lemma pad_swap (l r : string) : pad r l = (snd (pad l r), fst (pad l r)).
Proof. rewrite !pad_closed. reflexivity. Qed.

Lemma pad_lengths (l r : string) :
  String.length (fst (pad l r)) = String.length (snd (pad l r)).
Proof.
  rewrite pad_closed. cbn [fst snd]. rewrite !length_append, !length_zeros. lia.
Qed.

Lemma same_value_zero_VStr (v : value) (s : string) :
  same_value_zero v (VStr s) = true <-> v = VStr s.
Proof.
  destruct v as [| |b|[|z]|s'|xs|o]; cbn [same_value_zero];
    apply strict_eq_VStr.
Qed.

Lemma known_operator (operator : value) :
  existsb (same_value_zero operator) operators = true <-> In operator operators.
Proof.
  rewrite existsb_exists. split.
  - intros (x & Hin & Hx). unfold operators in Hin. cbn [In] in Hin.
    destruct Hin as [<- | [<- | [<- | [<- | [<- | []]]]]];
      apply same_value_zero_VStr in Hx; subst operator; cbn; tauto.
  - intros Hin. exists operator. split; [exact Hin|].
    unfold operators in Hin. cbn [In] in Hin.
    destruct Hin as [<- | [<- | [<- | [<- | [<- | []]]]]]; reflexivity.
Qed.

Lemma number_eqb_sym (a b : number) : number_eqb a b = number_eqb b a.
Proof. destruct a, b; cbn; try reflexivity. apply Z.eqb_sym. Qed.

Lemma strip_beta_id (s : string) : ends_with "-beta" s = false -> strip_beta s = s.
Proof. unfold strip_beta. intros ->. reflexivity. Qed.

Lemma strip_beta_append (s : string) : strip_beta (s ++ "-beta") = s.
Proof.
  unfold strip_beta. rewrite ends_with_append, length_append.
  cbn [String.length].
  replace (String.length s + 5 - 5) with (String.length s) by lia.
  apply substring_append_l.
Qed.

Lemma get_last_zero (n : nat) : String.get n (zeros (S n)) = Some "0"%char.
Proof. induction n as [|n IH]; [reflexivity|]. exact IH. Qed.

Lemma ends_with_last (t s : string) :
  ends_with t s = true -> t <> "" ->
  String.get (String.length s - 1) s = String.get (String.length t - 1) t.
Proof.
  unfold ends_with. intros H Ht. apply andb_true_iff in H as [Hle Heq].
  apply Nat.leb_le in Hle. apply String.eqb_eq in Heq.
  assert (Hpos : 0 < String.length t) by (destruct t; [contradiction | cbn; lia]).
  transitivity (String.get (String.length t - 1)
                  (substring (String.length s - String.length t) (String.length t) s));
    [|rewrite Heq; reflexivity].
  rewrite substring_correct1 by lia.
  f_equal. lia.
Qed.

Lemma no_beta_after_zeros (v : string) (n : nat) :
  ends_with "-beta" v = false -> ends_with "-beta" (v ++ zeros n) = false.
Proof.
  intros Hv. destruct n as [|n]; [cbn [zeros]; rewrite append_nil_r; exact Hv|].
  destruct (ends_with "-beta" (v ++ zeros (S n))) eqn:E; [|reflexivity].
  apply ends_with_last in E; [|discriminate].
  rewrite length_append, length_zeros in E.
  replace (String.length v + S n - 1) with (n + String.length v) in E by lia.
  rewrite <- append_correct2, get_last_zero in E. discriminate E.
Qed.

End VersionFacts.

(** X27.  [compareWwebVersions] checks the operator before the operands: an
    operator other than ['>'], ['>='], ['<'], ['<='] and ['='] is rejected
    whatever the operands are, then an operand that is not a string is
    rejected, each with a [CompareWwebVersionsError]; on two strings the
    function always answers a boolean.  Exchanging the operands exchanges
    ['<'] with ['>'] and ['<='] with ['>='], and leaves ['='] as it is. *)
Theorem compareWwebVersions_checks_and_converses
    (Number : string -> number) (l operator r : value) :
  let compare := Versions.compareWwebVersions Number in
  (~ In operator operators ->
   compare l operator r
   = Script.Thrown (Versions.CompareWwebVersionsError
                      "Invalid comparison operator is provided"))
  /\ (In operator operators ->
      typeof l <> "string" \/ typeof r <> "string" ->
      compare l operator r
      = Script.Thrown (Versions.CompareWwebVersionsError
                         "A non-string WWeb version type is provided"))
  /\ (In operator operators ->
      typeof l = "string" -> typeof r = "string" ->
      exists b, compare l operator r = Script.Returned (VBool b))
  /\ compare l (VStr "<") r = compare r (VStr ">") l
  /\ compare l (VStr "<=") r = compare r (VStr ">=") l
  /\ compare l (VStr "=") r = compare r (VStr "=") l.
Proof.
  intros compare. subst compare. unfold Versions.compareWwebVersions.
  fold operators.
  split; [|split; [|split; [|split; [|split]]]].
  - intros Hno.
    destruct (existsb (Script.same_value_zero operator) operators) eqn:E;
      [|reflexivity].
    apply known_operator in E. contradiction.
  - intros Hop Hty. apply known_operator in Hop. rewrite Hop. cbn [negb].
    destruct l as [| |b|n|a|xs|o]; try reflexivity.
    destruct r as [| |b|n|c|xs|o]; try reflexivity.
    destruct Hty as [H | H]; exfalso; apply H; reflexivity.
  - intros Hop Hl Hr. apply known_operator in Hop. rewrite Hop. cbn [negb].
    destruct l as [| |b|n|a|xs|o]; try discriminate Hl.
    destruct r as [| |b|n|c|xs|o]; try discriminate Hr.
    eexists. reflexivity.
  - cbn [existsb Script.same_value_zero strict_eq String.eqb Ascii.eqb Bool.eqb
           orb negb].
    destruct l as [| |b|n|a|xs|o], r as [| |b'|n'|c|xs'|o']; try reflexivity.
    rewrite (pad_swap (Versions.strip_beta a) (Versions.strip_beta c)).
    reflexivity.
  - cbn [existsb Script.same_value_zero strict_eq String.eqb Ascii.eqb Bool.eqb
           orb negb].
    destruct l as [| |b|n|a|xs|o], r as [| |b'|n'|c|xs'|o']; try reflexivity.
    rewrite (pad_swap (Versions.strip_beta a) (Versions.strip_beta c)).
    reflexivity.
  - cbn [existsb Script.same_value_zero strict_eq String.eqb Ascii.eqb Bool.eqb
           orb negb].
    destruct l as [| |b|n|a|xs|o], r as [| |b'|n'|c|xs'|o']; try reflexivity.
    rewrite (pad_swap (Versions.strip_beta a) (Versions.strip_beta c)).
    cbn [fst snd]. rewrite number_eqb_sym. reflexivity.
Qed.

(** X28.  What [compareWwebVersions] cannot tell apart.  A trailing
    ['-beta'] is dropped from either operand, and the shorter operand is
    padded with zeros before the dots are removed, so that a version and
    the same version followed by any number of ['0'] characters (['2.3000.1']
    and ['2.3000.10']) are never ordered by ['<'] or ['>'] and are equal for
    ['='], ['<='] and ['>='], unless their digits do not make a number. *)
Theorem compareWwebVersions_blind_spots
    (Number : string -> number) (v r : string) (operator : value) (n : nat) :
  Script.ends_with "-beta" v = false ->
  let compare := Versions.compareWwebVersions Number in
  let longer := (v ++ zeros n)%string in
  let same := negb (is_NaN (Number (Versions.strip_dots longer))) in
  compare (VStr (v ++ "-beta")) operator (VStr r) = compare (VStr v) operator (VStr r)
  /\ compare (VStr r) operator (VStr (v ++ "-beta")) = compare (VStr r) operator (VStr v)
  /\ compare (VStr v) (VStr "<") (VStr longer) = Script.Returned (VBool false)
  /\ compare (VStr v) (VStr ">") (VStr longer) = Script.Returned (VBool false)
  /\ compare (VStr v) (VStr "=") (VStr longer) = Script.Returned (VBool same)
  /\ compare (VStr v) (VStr "<=") (VStr longer) = Script.Returned (VBool same)
  /\ compare (VStr v) (VStr ">=") (VStr longer) = Script.Returned (VBool same).
Proof.
  intros Hv compare longer same. subst compare longer same.
  unfold Versions.compareWwebVersions.
  rewrite strip_beta_append, (strip_beta_id v Hv).
  rewrite (strip_beta_id _ (no_beta_after_zeros v n Hv)).
  assert (Hpad : Versions.pad v (v ++ zeros n) = ((v ++ zeros n)%string, (v ++ zeros n)%string)).
  { rewrite pad_closed, length_append, length_zeros.
    replace (String.length v + n - String.length v) with n by lia.
    replace (String.length v - (String.length v + n)) with 0 by lia.
    cbn [zeros]. rewrite append_nil_r. reflexivity. }
  rewrite Hpad. cbn [fst snd].
  split; [reflexivity|]. split; [reflexivity|].
  cbn [existsb Script.same_value_zero strict_eq String.eqb Ascii.eqb Bool.eqb
         orb negb].
  destruct (Number (Versions.strip_dots (v ++ zeros n))) as [|z];
    cbn [number_gtb Versions.number_geb number_eqb is_NaN negb];
    rewrite ?Z.ltb_irrefl, ?Z.leb_refl, ?Z.eqb_refl; repeat split; reflexivity.
Qed.

(** ** Taking over a conflicting session *)

(** X29.  [onAppStateChangedEvent] schedules a takeover exactly when
    [takeoverOnConflict] is truthy and the state is [CONFLICT], with the
    delay [takeoverTimeoutMs]; the session is then kept: nothing else
    happens but the [change_state] event.  Without [takeoverOnConflict] a
    [CONFLICT] (a state different from the four accepted ones) ends the
    session and no takeover is attempted. *)
Theorem takeover_on_conflict
    (W : WAStateT) (opts : options) (state : value) (st : locals) :
  let out := onAppStateChangedEvent W opts state st in
  List.filter is_takeover (trace out)
  = (if ToBoolean (takeoverOnConflict opts) && strict_eq state (VStr (CONFLICT W))
     then [SetTimeoutTakeover (takeoverTimeoutMs opts)] else [])
  /\ (ToBoolean (takeoverOnConflict opts) = true -> state = VStr (CONFLICT W) ->
      trace out = [Emit STATE_CHANGED [ArgValue state];
                   SetTimeoutTakeover (takeoverTimeoutMs opts)])
  /\ (ToBoolean (takeoverOnConflict opts) = false -> state = VStr (CONFLICT W) ->
      ~ In (CONFLICT W) [CONNECTED W; OPENING W; PAIRING W; TIMEOUT W] ->
      trace out = [Emit STATE_CHANGED [ArgValue state];
                   Emit DISCONNECTED [ArgValue state]; Destroy]).
Proof.
  intros out. subst out. rewrite onAppStateChangedEvent_trace. cbn [trace].
  split; [|split].
  - cbn [List.filter is_takeover]. rewrite List.filter_app.
    destruct (ToBoolean (takeoverOnConflict opts) && strict_eq state (VStr (CONFLICT W)));
      destruct (includes (allow_list W opts) state); reflexivity.
  - intros Ht ->. rewrite Ht.
    assert (Hs : strict_eq (VStr (CONFLICT W)) (VStr (CONFLICT W)) = true)
      by (apply strict_eq_VStr; reflexivity).
    rewrite Hs. cbn [andb].
    assert (Hin : includes (allow_list W opts) (VStr (CONFLICT W)) = true).
    { apply includes_true. exists (CONFLICT W). split; [|reflexivity].
      unfold allow_list. rewrite Ht. apply in_or_app. right. left. reflexivity. }
    rewrite Hin. reflexivity.
  - intros Ht -> Hnot. rewrite Ht. cbn [andb app].
    assert (Hin : includes (allow_list W opts) (VStr (CONFLICT W)) = false).
    { destruct (includes (allow_list W opts) (VStr (CONFLICT W))) eqn:E; [|reflexivity].
      apply includes_true in E as (s & Hs & Heq). injection Heq as <-.
      unfold allow_list in Hs. rewrite Ht, app_nil_r in Hs. contradiction. }
    rewrite Hin. reflexivity.
Qed.

(** ** Creating a group *)

Section GroupCreationFacts.

Import Script GroupCreation.

Variable page : callee -> list value -> answer value.

Lemma in_bind {A B} (m : script A) (k : A -> script B) (c : invocation) :
  In c (fst (bind m k)) ->
  In c (fst m) \/ exists a, snd m = Returned a /\ In c (fst (k a)).
Proof.
  rewrite bind_run. destruct (snd m) as [a|x]; cbn [fst].
  - intros H. apply in_app_or in H as [H | H]; [left; exact H | right; eauto].
  - intros H. left. exact H.
Qed.

Lemma in_lift {A} (c : completion A) (i : invocation) : ~ In i (fst (lift c)).
Proof. destruct c; intros []. Qed.

Lemma in_invoke (f : callee) (args : list value) (c : invocation) :
  In c (fst (invoke page f args)) -> c = {| function := f; arguments := args |}.
Proof. intros [H | []]. symmetry. exact H. Qed.

Lemma lookup_spec (participants wids failed : list value) (c : invocation) :
  (In c (fst (lookup page participants wids failed)) ->
   (function c = WPP_whatsapp_WidFactory_createWid
    /\ exists a, arguments c = [a] /\ In a participants)
   \/ function c = WPP_contact_queryExists)
  /\ (Forall (registered page) wids ->
      forall looked, snd (lookup page participants wids failed) = Returned looked ->
                     Forall (registered page) (fst looked)).
Proof.
  revert wids failed.
  induction participants as [|p rest IH]; intros wids failed; cbn [lookup].
  - split; [intros [] | intros H looked [= <-]; exact H].
  - split.
    + intros H. apply in_bind in H as [H | (w & Hw & H)].
      { apply in_invoke in H. subst c. left. split; [reflexivity|].
        exists p. split; [reflexivity | left; reflexivity]. }
      apply in_bind in H as [H | (found & Hfound & H)].
      { apply in_invoke in H. subst c. right. reflexivity. }
      destruct (ToBoolean (optional_prop found "wid"));
        apply IH in H as [(Hf & a & Ha & Hin) | Hf];
        solve [ left; split; [exact Hf|]; exists a; split; [exact Ha | right; exact Hin]
              | right; exact Hf ].
    + intros Hreg looked. unfold bind at 1. cbn [invoke fst snd].
      destruct (page WPP_whatsapp_WidFactory_createWid [p]) as [w|x];
        cbn [fst snd]; [|intros H; discriminate H].
      unfold bind at 1. cbn [invoke fst snd].
      destruct (page WPP_contact_queryExists [w]) as [found|x] eqn:Efound;
        cbn [fst snd]; [|intros H; discriminate H].
      destruct (ToBoolean (optional_prop found "wid")) eqn:Ewid.
      * apply IH. apply Forall_app. split; [exact Hreg|].
        constructor; [|constructor]. exists found. split; assumption.
      * apply IH. exact Hreg.
Qed.

Lemma report_calls (auto comment result : value) (data : gmap string value)
    (participant : value) (c : invocation) :
  In c (fst (report page auto comment result data participant)) ->
  ToBoolean auto = true
  /\ (function c = Util_sleep \/ function c = WPP_chat_sendGroupInviteMessage).
Proof.
  unfold report. intros H.
  apply in_bind in H as [H | (wid & _ & H)]; [destruct (in_lift _ _ H)|].
  apply in_bind in H as [H | (id & _ & H)]; [destruct (in_lift _ _ H)|].
  apply in_bind in H as [H | (sent & _ & [])].
  destruct (ToBoolean (and auto _)) eqn:Eand in H; [|destruct H].
  assert (Hauto : ToBoolean auto = true).
  { unfold and in Eand. destruct (ToBoolean auto) eqn:E; [reflexivity|].
    rewrite E in Eand. discriminate Eand. }
  split; [exact Hauto|].
  apply in_bind in H as [H | (u & _ & H)].
  { apply in_invoke in H. subst c. left. reflexivity. }
  apply in_bind in H as [H | (gid & _ & H)]; [destruct (in_lift _ _ H)|].
  apply in_bind in H as [H | (groupId & _ & H)]; [destruct (in_lift _ _ H)|].
  apply in_bind in H as [H | (r & _ & [])].
  apply in_invoke in H. subst c. right. reflexivity.
Qed.

Lemma reports_calls (auto comment result : value) (participants : list value)
    (data : gmap string value) (c : invocation) :
  In c (fst (reports page auto comment result data participants)) ->
  ToBoolean auto = true
  /\ (function c = Util_sleep \/ function c = WPP_chat_sendGroupInviteMessage).
Proof.
  revert data. induction participants as [|p rest IH]; intros data; cbn [reports].
  - intros [].
  - intros H. apply in_bind in H as [H | (data' & _ & H)].
    + apply report_calls in H. exact H.
    + apply IH in H. exact H.
Qed.

Lemma createGroup_shape (title : value) (participants : participants_arg)
    (options : value) :
  let options' := match options with VUndefined => VObj ∅ | _ => options end in
  let auto := get_default options' "autoSendInviteV4" (VBool true) in
  let run := createGroup page title participants options in
  exists lookups parent creation reporting : list invocation,
    fst run = lookups ++ parent ++ creation ++ reporting
    /\ (forall c, In c lookups ->
                  (function c = WPP_whatsapp_WidFactory_createWid
                   /\ exists a, arguments c = [a] /\ In a (given participants))
                  \/ function c = WPP_contact_queryExists)
    /\ (forall c, In c parent ->
                  c = {| function := WPP_whatsapp_WidFactory_createWid;
                         arguments := [get options' "parentGroupId"] |})
    /\ (forall c, In c creation ->
                  exists wids timer parentWid,
                    c = {| function := WPP_whatsapp_functions_sendCreateGroup;
                           arguments := [title; VArr wids; timer; parentWid] |}
                    /\ Forall (registered page) wids
                    /\ (forall e, page (function c) (arguments c) = Thrown e ->
                                  snd run = Returned creation_error))
    /\ (forall c, In c reporting ->
                  ToBoolean auto = true
                  /\ (function c = Util_sleep
                      \/ function c = WPP_chat_sendGroupInviteMessage)).
Proof.
  intros options' auto run. subst run. unfold createGroup.
  fold options'. fold auto.
  set (instances := match participants with
                    | Omitted => []
                    | Single x => [x]
                    | Several xs => xs
                    end).
  assert (Hgiven : List.map snd instances = given participants)
    by (destruct participants; reflexivity).
  rewrite Hgiven.
  destruct (mapM _ instances) as [ignored|e];
    [rewrite (bind_lift_Normal _ _ _ eq_refl)
    |exists [], [], [], [];
     (split; [reflexivity|]); (split; [intros c []|]); (split; [intros c []|]);
     split; intros c []].
  destruct (prop options' "messageTimer") as [timer|e];
    [rewrite (bind_lift_Normal _ _ _ eq_refl)
    |exists [], [], [], [];
     (split; [reflexivity|]); (split; [intros c []|]); (split; [intros c []|]);
     split; intros c []].
  pose proof (lookup_spec (given participants) [] []) as Hlookup.
  rewrite bind_run.
  destruct (lookup page (given participants) [] []) as [lookups [looked|x]] eqn:Elook;
    cbn [fst snd] in *.
  2:{ exists lookups, [], [], []. rewrite !app_nil_r.
      split; [reflexivity|].
      split; [intros c Hc; apply (Hlookup c); exact Hc|].
      split; [intros c []|]. split; intros c []. }
  assert (Hreg : Forall (registered page) (fst looked)).
  { apply (proj2 (Hlookup {| function := Util_sleep; arguments := [] |}));
      [constructor | reflexivity]. }
  assert (Hcalls : forall c, In c lookups ->
             (function c = WPP_whatsapp_WidFactory_createWid
              /\ exists a, arguments c = [a] /\ In a (given participants))
             \/ function c = WPP_contact_queryExists)
    by (intros c Hc; apply (Hlookup c); exact Hc).
  clear Hlookup Elook.
  set (parentStage := if ToBoolean (get options' "parentGroupId")
                      then invoke page WPP_whatsapp_WidFactory_createWid
                             [get options' "parentGroupId"]
                      else ret VUndefined).
  assert (Hparent : forall c, In c (fst parentStage) ->
             c = {| function := WPP_whatsapp_WidFactory_createWid;
                    arguments := [get options' "parentGroupId"] |}).
  { intros c. subst parentStage.
    destruct (ToBoolean (get options' "parentGroupId")); [apply in_invoke | intros []]. }
  rewrite bind_run.
  destruct parentStage as [parent [parentWid|x]]; cbn [fst snd] in *.
  2:{ exists lookups, parent, [], []. rewrite !app_nil_r.
      split; [reflexivity|]. split; [exact Hcalls|]. split; [exact Hparent|].
      split; intros c []. }
  rewrite bind_run. unfold try_catch. rewrite bind_run. cbn [invoke fst snd].
  set (timer' := get_default options' "messageTimer" (VNum (Num 0))).
  destruct (page WPP_whatsapp_functions_sendCreateGroup
              [title; VArr (fst looked); timer'; parentWid]) as [result|e] eqn:Ecreate;
    cbn [fst snd ret app].
  - match goal with
    | |- context [fst ?rest] =>
        match rest with
        | bind _ _ => exists lookups, parent,
            [{| function := WPP_whatsapp_functions_sendCreateGroup;
                arguments := [title; VArr (fst looked); timer'; parentWid] |}],
            (fst rest)
        end
    end.
    split; [reflexivity|]. split; [exact Hcalls|]. split; [exact Hparent|].
    split.
    + intros c [<- | []]. exists (fst looked), timer', parentWid.
      split; [reflexivity|]. split; [exact Hreg|].
      intros e He. cbn [function arguments] in He. rewrite Ecreate in He.
      discriminate He.
    + intros c H.
      apply in_bind in H as [H | (added & _ & H)]; [destruct (in_lift _ _ H)|].
      apply in_bind in H as [H | (items & _ & H)]; [destruct (in_lift _ _ H)|].
      apply in_bind in H as [H | (data & _ & [])].
      apply reports_calls in H. exact H.
  - exists lookups, parent,
      [{| function := WPP_whatsapp_functions_sendCreateGroup;
          arguments := [title; VArr (fst looked); timer'; parentWid] |}], [].
    rewrite !app_nil_r.
    split; [reflexivity|]. split; [exact Hcalls|]. split; [exact Hparent|].
    split; [|intros c []].
    intros c [<- | []]. exists (fst looked), timer', parentWid.
    split; [reflexivity|]. split; [exact Hreg|].
    intros e' _. reflexivity.
Qed.

End GroupCreationFacts.

(** X30.  What [createGroup] passes on.  The group is created with the
    given title and with the wids of the participants that the page knows
    as registered, and of no others; when the creation itself fails,
    whatever the failure, the method returns the string
    ['CreateGroupError: ...'] instead of throwing.  The participants are
    resolved as they were given: the ids computed from [Contact] objects by
    [participants.map] are dropped, so a [Contact] reaches [createWid] as
    an object.  Nothing sleeps and no invitation is sent unless
    [autoSendInviteV4] is truthy (it is [true] when left out). *)
Theorem createGroup_participants
    (page : Script.callee -> list value -> Script.answer value)
    (title : value) (participants : GroupCreation.participants_arg)
    (options : value) (c : Script.invocation) :
  let run := GroupCreation.createGroup page title participants options in
  let options' := options_or_default options in
  In c (fst run) ->
  (Script.function c = Script.WPP_whatsapp_functions_sendCreateGroup ->
   (exists wids timer parent,
       Script.arguments c = [title; VArr wids; timer; parent]
       /\ Forall (registered page) wids)
   /\ (forall e, page (Script.function c) (Script.arguments c) = Script.Thrown e ->
                 snd run = Script.Returned creation_error))
  /\ (Script.function c = Script.WPP_whatsapp_WidFactory_createWid ->
      exists a, Script.arguments c = [a]
                /\ (In a (given participants) \/ a = get options' "parentGroupId"))
  /\ (Script.function c = Script.Util_sleep
      \/ Script.function c = Script.WPP_chat_sendGroupInviteMessage ->
      ToBoolean (get_default options' "autoSendInviteV4" (VBool true)) = true).
Proof.
  intros run options' Hc.
  destruct (createGroup_shape page title participants options)
    as (lookups & parent & creation & reporting & Hrun & Hl & Hp & Hcr & Hr).
  fold run in Hrun, Hcr. rewrite Hrun in Hc.
  apply in_app_or in Hc as [Hc | Hc]; [|apply in_app_or in Hc as [Hc | Hc];
                                        [|apply in_app_or in Hc as [Hc | Hc]]].
  - apply Hl in Hc as [(Hf & a & Ha & Hin) | Hf];
      (split; [|split]); rewrite Hf; try discriminate;
      try (intros [H | H]; discriminate H).
    intros _. exists a. split; [exact Ha | left; exact Hin].
  - apply Hp in Hc. subst c. cbn [Script.function Script.arguments].
    split; [|split]; try discriminate; try (intros [H | H]; discriminate H).
    intros _. eexists. split; [reflexivity | right; reflexivity].
  - apply Hcr in Hc as (wids & timer & p & -> & Hreg & Hthrown).
    cbn [Script.function Script.arguments] in *.
    split; [|split]; try discriminate; try (intros [H | H]; discriminate H).
    intros _. split; [|exact Hthrown]. exists wids, timer, p. split; [reflexivity | exact Hreg].
  - apply Hr in Hc as [Hauto [Hf | Hf]];
      (split; [|split]); rewrite Hf; try discriminate; intros _; exact Hauto.
Qed.

(** * Concrete runs of the further properties *)

Lemma Message_fields_shape_witness :
  exists m,
    Message.new sample_types image_snapshot = Normal m
    /\ is_boolean (Message.hasMedia m)
    /\ is_array (Message.vCards m)
    /\ ToBoolean (Message.mentionedIds m) = true.
Proof.
  assert (exists m, Message.new sample_types image_snapshot = Normal m)
    as [m Hm] by (eexists; vm_compute; reflexivity).
  exists m. split; [exact Hm|].
  destruct (Message_fields_shape sample_types _ m
              (Hm : Message.new sample_types (VObj _) = Normal m))
    as (Hmedia & _ & _ & _ & Hcards & _ & _ & _ & Hmentioned & _).
  split; [exact Hmedia|]. split; [exact Hcards | exact Hmentioned].
Defined.

Lemma Message_rebuilt_from_rawData_witness :
  (exists m, Message.new sample_types chat_snapshot = Normal m
             /\ Message.new sample_types (Message.rawData m) = Normal m)
  /\ (exists m m', Message.new sample_types poll_snapshot = Normal m
                   /\ Message.pollName m = VStr "Lunch?"
                   /\ Message.new sample_types (Message.rawData m) = Normal m'
                   /\ Message.pollName m' = VUndefined).
Proof.
  assert (exists m, Message.new sample_types chat_snapshot = Normal m)
    as [m Hm] by (eexists; vm_compute; reflexivity).
  assert (exists p, Message.new sample_types poll_snapshot = Normal p)
    as [p Hp] by (eexists; vm_compute; reflexivity).
  split.
  - exists m. split; [exact Hm|].
    destruct (Message_rebuilt_from_rawData sample_types _ m
                (Hm : Message.new sample_types (VObj _) = Normal m)) as [Hsame _].
    apply Hsame. vm_compute; reflexivity.
  - destruct (Message_rebuilt_from_rawData sample_types _ p
                (Hp : Message.new sample_types (VObj _) = Normal p)) as [_ Hpoll].
    destruct Hpoll as (Hname & _ & m' & Hm' & Hname' & _); [vm_compute; reflexivity|].
    exists p, m'. split; [exact Hp|]. split; [rewrite Hname; vm_compute; reflexivity|].
    split; [exact Hm' | exact Hname'].
Defined.

Lemma group_notification_event_witness :
  exists n,
    onAddMessageEvent sample_types join_payload initial
    = {| final := initial; trace := [Emit GROUP_JOIN [ArgNotification n]];
         result := Normal tt |}.
Proof.
  assert (exists n, GroupNotification.new join_payload = Normal n)
    as [n Hn] by (eexists; vm_compute; reflexivity).
  exists n.
  assert (Hty : get join_payload "type" = VStr "gp2") by (vm_compute; reflexivity).
  destruct (group_notification_event sample_types _ n initial
              (Hty : get (VObj _) "type" = VStr "gp2")
              (Hn : GroupNotification.new (VObj _) = Normal n))
    as (event & Hrun & _ & Hjoin & _).
  assert (Hevent : event = GROUP_JOIN).
  { apply Hjoin. left. vm_compute; reflexivity. }
  rewrite <- Hevent. exact Hrun.
Defined.

Lemma ordinary_chat_in_page_witness :
  trace (send_in_page sample_page (VStr "1@c.us") (VStr "hello") (VObj ∅)
           (VBool false) initial)
  = [Call (WidFactory_createWid (VStr "1@c.us")); Call (ChatStore_find (VObj ∅));
     Call (WAJS_sendMessage (VObj ∅) (VStr "hello") (VObj ∅) (VBool false));
     Call (serialize (VObj ∅))].
Proof.
  destruct (ordinary_chat_in_page sample_page (VStr "1@c.us") (VStr "hello") (VObj ∅)
              (VBool false) (VObj ∅) initial eq_refl eq_refl) as [_ Hrun].
  destruct (Hrun (VObj ∅) (VObj ∅) (VObj ∅)
              (obj [("id", message_id "3A07" true "status@broadcast");
                    ("type", VStr "chat")])
              eq_refl eq_refl eq_refl) as [_ Htrace].
  - split; discriminate.
  - reflexivity.
  - exact Htrace.
Defined.

Lemma addParticipants_without_invite_witness :
  Forall (fun a => is_gadd a = false /\ is_invite a = false)
    (trace (addParticipants sample_page (VStr "5@g.us") (VArr [VStr "1@c.us"])
              (obj [("autoSendInviteV4", VBool false)]) initial)).
Proof.
  apply (addParticipants_without_invite sample_page (VStr "5@g.us")
           (VArr [VStr "1@c.us"]) (obj [("autoSendInviteV4", VBool false)])).
  vm_compute; reflexivity.
Defined.

Lemma group_setters_failures_witness :
  snd (GroupSettings.setDescription refusing_page sample_group (VStr "dinner"))
  = Script.Returned (VBool false, sample_group).
Proof.
  destruct (group_setters_failures refusing_page
              (GroupSettings.setDescription refusing_page) sample_group (VStr "dinner"))
    as (call & _ & Hrun).
  - right. left. reflexivity.
  - split; discriminate.
  - cbn [refusing_page] in Hrun. destruct Hrun as (Hrefused & _).
    apply Hrefused. vm_compute; reflexivity.
Defined.

Lemma group_setters_echo_witness :
  exists this',
    GroupSettings.setMessagesAdminsOnly accepting_page sample_group VUndefined
    = ([{| Script.function := Script.WPP_group_setProperty;
           Script.arguments := [VStr "5@g.us"; VStr "announcement"; VNum (Num 1)] |}],
       Script.Returned (VBool true, this'))
    /\ get (GroupSettings.groupMetadata this') "announce" = VBool true
    /\ GroupSettings.name this' = VStr "Lunch".
Proof.
  destruct (group_setters_echo accepting_page sample_group (VStr "5@g.us") VUndefined)
    as (_ & Hobject & _).
  - vm_compute; reflexivity.
  - intros f args. eexists. reflexivity.
  - destruct (Hobject _ eq_refl) as (_ & Hannounce & _).
    eexists. split; [exact Hannounce|]. split; vm_compute; reflexivity.
Defined.

Lemma setPicture_loses_the_group_witness :
  GroupSettings.setPicture accepting_page sample_group image_media
  = ([{| Script.function := Script.WAJS_setPicture;
         Script.arguments := [VUndefined; image_media] |}],
     Script.Returned VUndefined).
Proof.
  apply (setPicture_loses_the_group accepting_page sample_group image_media).
  split; discriminate.
Defined.


Lemma gated_methods_make_no_call_witness :
  exists m,
    Message.new sample_types chat_snapshot = Normal m
    /\ MessageActions.getQuotedMessage sample_types echo_page m = ([], Script.Returned None)
    /\ MessageActions.downloadMedia echo_page m = ([], Script.Returned None)
    /\ MessageActions.edit sample_types echo_page m (VStr "hi") (VObj ∅)
       = ([], Script.Returned None).
Proof.
  assert (exists m, Message.new sample_types chat_snapshot = Normal m)
    as [m Hm] by (eexists; vm_compute; reflexivity).
  exists m. split; [exact Hm|].
  destruct (gated_methods_make_no_call sample_types echo_page chat_snapshot m Hm)
    as (Hquoted & Hmedia & Hedit).
  split; [apply Hquoted; vm_compute; reflexivity|].
  split; [apply Hmedia; vm_compute; reflexivity|].
  assert (Hmentions : mentionedJidList (get (VObj ∅) "mentions") = Normal (VArr []))
    by (vm_compute; reflexivity).
  apply (Hedit ltac:(vm_compute; reflexivity) (VStr "hi") ∅ (VArr []) Hmentions).
Defined.


Lemma quoted_and_edited_messages_witness :
  exists m,
    Message.new sample_types poll_snapshot = Normal m
    /\ snd (MessageActions.edit sample_types accepting_page m (VStr "Dinner?") (VObj ∅))
       = Script.Returned None.
Proof.
  assert (exists m, Message.new sample_types poll_snapshot = Normal m)
    as [m Hm] by (eexists; vm_compute; reflexivity).
  exists m. split; [exact Hm|].
  assert (Hid : prop (Message.id m) "_serialized" = Normal VUndefined)
    by (injection Hm as <-; vm_compute; reflexivity).
  destruct (quoted_and_edited_messages sample_types accepting_page m VUndefined Hid)
    as [_ Hedit].
  assert (HfromMe : ToBoolean (Message.fromMe m) = true)
    by (injection Hm as <-; vm_compute; reflexivity).
  assert (Hmentions : mentionedJidList (get (VObj ∅) "mentions") = Normal (VArr []))
    by (vm_compute; reflexivity).
  destruct (Hedit HfromMe (VStr "Dinner?") ∅ (VArr []) VUndefined Hmentions eq_refl)
    as (_ & Hnull & _).
  apply Hnull. reflexivity.
Defined.

Lemma compareWwebVersions_blind_spots_witness :
  Versions.compareWwebVersions decimal (VStr "2.3000.1") (VStr "=") (VStr "2.3000.10")
  = Script.Returned (VBool true)
  /\ Versions.compareWwebVersions decimal (VStr "2.3000.1") (VStr "<") (VStr "2.3000.10")
     = Script.Returned (VBool false).
Proof.
  destruct (compareWwebVersions_blind_spots decimal "2.3000.1" "" (VStr "=") 1 eq_refl)
    as (_ & _ & Hlt & _ & Heq & _).
  split; [exact Heq | exact Hlt].
Defined.

Lemma createGroup_participants_witness :
  snd (GroupCreation.createGroup creating_page (VStr "Lunch")
         (GroupCreation.Several [(None, VStr "1@c.us"); (None, VStr "2@c.us")])
         VUndefined)
  = Script.Returned creation_error
  /\ Forall (registered creating_page) [VStr "1@c.us"].
Proof.
  destruct (createGroup_participants creating_page (VStr "Lunch")
              (GroupCreation.Several [(None, VStr "1@c.us"); (None, VStr "2@c.us")])
              VUndefined
              {| Script.function := Script.WPP_whatsapp_functions_sendCreateGroup;
                 Script.arguments := [VStr "Lunch"; VArr [VStr "1@c.us"];
                                      VNum (Num 0); VUndefined] |})
    as (Hcreate & _ & _).
  - vm_compute. do 4 right. left. reflexivity.
  - destruct (Hcreate eq_refl) as [(wids & timer & parent & Hargs & Hreg) Hfails].
    injection Hargs as <- _ _.
    split; [|exact Hreg].
    apply (Hfails (Script.Raised (Error "timeout"))). reflexivity.
Defined.

Lemma Message_new_returns_iff_witness :
  (exists m, Message.new sample_types chat_snapshot = Normal m)
  /\ ~ constructible sample_types anonymous_snapshot.
Proof.
  split.
  - apply (proj1 (Message_new_returns_iff sample_types _)).
    split; [split; discriminate|].
    split; [intros H; vm_compute in H; discriminate H|].
    split; intros H; vm_compute in H; discriminate H.
  - intros H.
    apply (proj1 (Message_new_returns_iff sample_types _)) in H as [m Hm].
    vm_compute in Hm. discriminate Hm.
Defined.

Lemma GroupNotification_new_returns_iff_witness :
  (exists n, GroupNotification.new join_payload = Normal n)
  /\ GroupNotification.new orphan_payload = Throw TypeError.
Proof.
  split.
  - apply (proj1 (GroupNotification_new_returns_iff _)).
    split; [split; discriminate|]. split; discriminate.
  - destruct (GroupNotification_new_returns_iff
                (list_to_map [("id", message_id "3A09" false "5@g.us");
                              ("type", VStr "gp2"); ("subtype", VStr "leave");
                              ("author", VNull)]))
      as (_ & _ & Hnull).
    apply Hnull. vm_compute; reflexivity.
Defined.

Lemma handlers_throw_before_emitting_witness :
  result (onAddMessageEvent sample_types anonymous_snapshot initial) = Throw TypeError
  /\ trace (onAddMessageEvent sample_types anonymous_snapshot initial) = [].
Proof.
  assert (Hthrows : result (onAddMessageEvent sample_types anonymous_snapshot initial)
                    = Throw TypeError) by (vm_compute; reflexivity).
  split; [exact Hthrows|].
  destruct (handlers_throw_before_emitting sample_types
              (list_to_map [("type", VStr "chat")]) VUndefined initial TypeError)
    as (Hadd & _).
  apply Hadd. exact Hthrows.
Defined.

Lemma status_dispatch_in_page_witness :
  exists rest,
    trace (send_in_page sample_page (VStr "status@broadcast") image_media (VObj ∅)
             (VBool true) initial)
    = Call (status_sendImageStatus (VStr "data:image/png;base64,iVBORw0KGgo=") (VObj ∅))
      :: rest.
Proof.
  destruct (status_dispatch_in_page sample_page image_media (VObj ∅) (VBool true) initial)
    as (_ & Hmedia & _).
  destruct Hmedia as (Himage & _).
  - vm_compute. discriminate.
  - split; discriminate.
  - apply Himage. vm_compute; reflexivity.
Defined.

Lemma sticker_conversion_witness :
  result (sendMessage sample_types failing_converter (VStr "1@c.us")
            (One (Some MessageMedia, image_media)) sticker_options initial)
  = Throw (Error "conversion failed")
  /\ length (trace (sendMessage sample_types failing_converter (VStr "1@c.us")
                      (One (Some MessageMedia, image_media)) sticker_options initial))
     = 1.
Proof.
  destruct (sticker_conversion sample_types failing_converter (VStr "1@c.us")
              (One (Some MessageMedia, image_media)) sticker_options)
    as [_ Hconvert].
  destruct (Hconvert (VArr []) initial eq_refl eq_refl eq_refl eq_refl)
    as [_ Hfails].
  destruct (Hfails (Error "conversion failed") eq_refl) as [Htrace Hresult].
  split; [exact Hresult|]. rewrite Htrace. reflexivity.
Defined.

Lemma reply_quotes_the_message_witness :
  result (reply sample_types sample_page Message.unpatched
            (One (None, VStr "hello")) VUndefined no_options initial)
  = Throw TypeError.
Proof.
  destruct (reply_quotes_the_message sample_types sample_page Message.unpatched
              (One (None, VStr "hello")) VUndefined no_options) as [_ Hid].
  apply Hid. intros [H _]. apply H. reflexivity.
Defined.

Lemma addParticipants_iteration_witness :
  addParticipants sample_page (VStr "5@g.us") (VStr "1@c.us") VUndefined initial
  = addParticipants sample_page (VStr "5@g.us") (VArr [VStr "1"]) VUndefined initial.
Proof.
  destruct (addParticipants_iteration sample_page (VStr "5@g.us") VUndefined initial)
    as [Hstring _].
  apply (Hstring "1"%char "@c.us"). vm_compute; reflexivity.
Defined.

Lemma revocation_events_witness :
  exists m,
    trace (deliver sample_types sample_states sample_options
             (RemoveMessageEvent removed_snapshot) initial)
    = [Emit MESSAGE_REVOKED_ME [ArgMessage m]].
Proof.
  assert (exists m, trace (deliver sample_types sample_states sample_options
                             (RemoveMessageEvent removed_snapshot) initial)
                    = [Emit MESSAGE_REVOKED_ME [ArgMessage m]])
    as [m Hm] by (eexists; vm_compute; reflexivity).
  destruct (revocation_events sample_types sample_states sample_options
              (RemoveMessageEvent removed_snapshot) initial [ArgMessage m])
    as [Hme _].
  destruct Hme as (msg & m' & _ & _ & _ & Htrace).
  - rewrite Hm. left. reflexivity.
  - exists m'. exact Htrace.
Defined.

Lemma sendSeen_validation_witness :
  ClientQueries.sendSeen accepting_page (VStr "1@c.us") (VStr "false_1@c.us_3EB0")
  = ([], Script.Thrown (Script.Custom (VStr "use the message id from status"))).
Proof.
  destruct (sendSeen_validation accepting_page (VStr "1@c.us") (VStr "false_1@c.us_3EB0"))
    as (_ & Hstring & _).
  destruct (Hstring "false_1@c.us_3EB0" eq_refl) as (Hstatus & _).
  - discriminate.
  - apply Hstatus. vm_compute; reflexivity.
Defined.


Lemma compareWwebVersions_checks_and_converses_witness :
  Versions.compareWwebVersions decimal (VStr "2.2335.6") (VStr "!=") (VStr "2.3000.0")
  = Script.Thrown (Versions.CompareWwebVersionsError
                     "Invalid comparison operator is provided").
Proof.
  destruct (compareWwebVersions_checks_and_converses decimal
              (VStr "2.2335.6") (VStr "!=") (VStr "2.3000.0")) as (Hinvalid & _).
  apply Hinvalid. intros H. vm_compute in H.
  destruct H as [H | [H | [H | [H | [H | []]]]]]; discriminate H.
Defined.

Lemma takeover_on_conflict_witness :
  trace (onAppStateChangedEvent sample_states takeover_options (VStr "CONFLICT") initial)
  = [Emit STATE_CHANGED [ArgValue (VStr "CONFLICT")];
     SetTimeoutTakeover (VNum (Num 5000))].
Proof.
  destruct (takeover_on_conflict sample_states takeover_options (VStr "CONFLICT") initial)
    as (_ & Hkept & _).
  apply Hkept; reflexivity.
Defined.
